(** * Vermillion logo generators: the generate-with-fallback-and-persist workflow

    A shallow embedding of [generate_logo.py] and [generate_round3.py].
    Both scripts drive an image-generation HTTP API, one request per
    wanted image, fall back to a second model when the first answers
    with an error status, and write the decoded bytes to a path
    computed from the concept (or prompt key) and the variation index.

    The effects of the scripts are threaded explicitly: a [world] holds
    the file system and the chronological trace of what the process did
    (lines printed, requests sent, pauses); a computation either returns
    a value or raises a Python exception, and in both cases hands back
    the world it reached, since an exception does not undo the effects
    that came before it. *)

From Stdlib Require Import ZArith QArith_base String Ascii List.
From stdpp Require Import base gmap strings list pretty.

Close Scope Q_scope.
Local Open Scope Z_scope.
Set Warnings "-register-all".

(** ** Python values used by the scripts *)

Definition bytes := list Byte.byte.

(** What [json.loads] produces.  Numbers are kept as integers: the
    scripts never compute with a number of a response, and every
    operation they apply to one raises [TypeError] whatever its value.
    An object is the list of its items in insertion order, as a Python
    [dict] keeps them; lookup takes the first binding of a key. *)
Inductive json : Type :=
  | JNull
  | JBool (b : bool)
  | JNum (n : Z)
  | JStr (s : string)
  | JArr (xs : list json)
  | JObj (kvs : list (string * json)).

Definition dict := list (string * json).

Record response : Type := mkResponse {
  status_code : Z;
  text : string;              (* response.text, a str *)
  json_body : option json;    (* response.json(); None when the body is not JSON *)
  content : bytes;            (* response.content *)
}.

Inductive request : Type :=
  | POST (url : string) (headers : list (string * string)) (body : dict) (timeout : Q)
  | GET (url : string) (timeout : Q).

(** A request is answered, or fails below HTTP (connection refused,
    timeout, ...: httpx raises a [RequestError]). *)
Inductive outcome : Type :=
  | Responded (r : response)
  | NetworkFailure.

Inductive exn : Type :=
  | HTTPStatusError (r : response)
  | RequestError
  | JSONDecodeError
  | TypeError
  | KeyError
  | IndexError
  | BinasciiError
  | UnidentifiedImageError
  | FileExistsError
  | FileNotFoundError
  | NotADirectoryError
  | IsADirectoryError
  | SystemExit (code : Z).

(** ** The outside world *)

(** [pathlib.Path] as its tuple of parts. *)
Abbreviation path := (list string).

Inductive node : Type :=
  | File (data : bytes)
  | Dir.

Inductive event : Type :=
  | EPrint (line : string)      (* print(line) *)
  | EPrintHelp                  (* parser.print_help() *)
  | ESend (r : request)         (* a request handed to the network *)
  | ESleep (seconds : Q).       (* time.sleep(seconds) *)

Record world : Type := mkWorld {
  fs : gmap path node;
  trace : list event;           (* oldest first *)
}.

(** The parts of the environment the scripts only call: the remote API
    (the answer to the [n]-th request of the process, counted from 0),
    [base64.b64decode] ([None]: it raises [binascii.Error]) and
    [PIL.Image.open] followed by [.size] ([None]: the bytes are not
    recognised as an image). *)
Record environment : Type := mkEnv {
  net : nat -> request -> outcome;
  b64decode : string -> option bytes;
  image_open : bytes -> option (Z * Z);
}.

(** ** Computations with state and exceptions *)

Inductive result (A : Type) : Type :=
  | Ok (a : A)
  | Raise (e : exn).
Arguments Ok {A} a.
Arguments Raise {A} e.

Definition M (A : Type) : Type := world -> result A * world.

Definition ret {A} (a : A) : M A := fun w => (Ok a, w).

Definition raise {A} (e : exn) : M A := fun w => (Raise e, w).

Definition bind {A B} (m : M A) (k : A -> M B) : M B :=
  fun w => match m w with
           | (Ok a, w') => k a w'
           | (Raise e, w') => (Raise e, w')
           end.

Declare Scope py_scope.
Delimit Scope py_scope with py.
Notation "x <- m ;; k" := (bind m (fun x => k))
  (at level 100, m at next level, right associativity) : py_scope.
Notation "m ;;; k" := (bind m (fun _ => k))
  (at level 100, right associativity) : py_scope.
Local Open Scope py_scope.

(** [try: body except httpx.HTTPStatusError as e: handler e]: every
    other exception passes through. *)
Definition try_except_HTTPStatusError {A} (body : M A) (handler : response -> M A) : M A :=
  fun w => match body w with
           | (Raise (HTTPStatusError r), w') => handler r w'
           | other => other
           end.

Definition lift {A} (r : result A) : M A := fun w => (r, w).

(** The world after some more events. *)
Definition push (w : world) (events : list event) : world :=
  mkWorld (fs w) (trace w ++ events).

Definition emit (e : event) : M unit :=
  fun w => (Ok tt, push w [e]).

Definition print (line : string) : M unit := emit (EPrint line).

Definition sleep (seconds : Q) : M unit := emit (ESleep seconds).

Definition is_send (e : event) : bool :=
  match e with ESend _ => true | _ => false end.

Definition is_sleep (e : event) : bool :=
  match e with ESleep _ => true | _ => false end.

(** The requests of a trace, in order. *)
Definition requests (t : list event) : list request :=
  omap (fun e => match e with ESend r => Some r | _ => None end) t.


(** How many requests the process has sent so far. *)
Definition calls (w : world) : nat := length (requests (trace w)).

Definition send (E : environment) (r : request) : M response :=
  fun w =>
    match net E (calls w) r with
    | Responded resp => (Ok resp, push w [ESend r])
    | NetworkFailure => (Raise RequestError, push w [ESend r])
    end.

(** [response.raise_for_status()]: anything but 2xx raises. *)
Definition is_success (r : response) : bool :=
  (200 <=? status_code r) && (status_code r <=? 299).

Definition raise_for_status (r : response) : M unit :=
  if is_success r then ret tt else raise (HTTPStatusError r).

Definition response_json (r : response) : M json :=
  match json_body r with
  | Some j => ret j
  | None => raise JSONDecodeError
  end.

(** ** Python strings

    A [str] is kept as its UTF-8 encoding.  Its characters are the
    code points of that encoding, not its bytes: [len] counts them,
    an index picks one and a slice cuts between them.  A byte
    [10xxxxxx] continues the code point begun before it; every other
    byte begins one. *)

Definition is_continuation (a : ascii) : bool :=
  let n := N_of_ascii a in (128 <=? n)%N && (n <? 192)%N.

(** [len(s)]. *)
Fixpoint str_len (s : string) : nat :=
  match s with
  | EmptyString => O
  | String a s' => if is_continuation a then str_len s' else S (str_len s')
  end.

(** [s[:n]]: the first [n] code points, each with all of its bytes. *)
Fixpoint str_take (n : nat) (s : string) : string :=
  match s with
  | EmptyString => EmptyString
  | String a s' =>
      if is_continuation a then String a (str_take n s')
      else match n with
           | O => EmptyString
           | S n' => String a (str_take n' s')
           end
  end.

(** ** Python operators on JSON values *)

Fixpoint is_prefix (p s : string) : bool :=
  match p, s with
  | EmptyString, _ => true
  | String a p', String b s' => if Ascii.eqb a b then is_prefix p' s' else false
  | String _ _, EmptyString => false
  end.

(** [p in s] on two [str]: [p] occurs in [s]. *)
Fixpoint is_substring (p s : string) : bool :=
  is_prefix p s ||
  match s with
  | EmptyString => false
  | String _ s' => is_substring p s'
  end.

Definition dict_get (k : string) (d : dict) : option json :=
  snd <$> List.find (fun kv => String.eqb (fst kv) k) d.

Definition dict_has (k : string) (d : dict) : bool :=
  match dict_get k d with Some _ => true | None => false end.

(** [d[k] = v]: an existing key keeps its position. *)
Fixpoint dict_set (k : string) (v : json) (d : dict) : dict :=
  match d with
  | [] => [(k, v)]
  | (k', v') :: d' =>
      if String.eqb k' k then (k, v) :: d' else (k', v') :: dict_set k v d'
  end.

(** [d.pop(k, None)]. *)
Definition dict_pop (k : string) (d : dict) : dict :=
  List.filter (fun kv => negb (String.eqb (fst kv) k)) d.

Definition is_JStr (k : string) (j : json) : bool :=
  match j with JStr s => String.eqb s k | _ => false end.

(** [k in j] for a [str] [k]: key of a dict, element of a list,
    substring of a str; anything else is not iterable. *)
Definition py_contains (k : string) (j : json) : result bool :=
  match j with
  | JObj kvs => Ok (dict_has k kvs)
  | JArr xs => Ok (existsb (is_JStr k) xs)
  | JStr s => Ok (is_substring k s)
  | JNull | JBool _ | JNum _ => Raise TypeError
  end.

(** [j[k]] for a [str] [k]. *)
Definition py_getitem (k : string) (j : json) : result json :=
  match j with
  | JObj kvs => match dict_get k kvs with
                | Some v => Ok v
                | None => Raise KeyError
                end
  | _ => Raise TypeError
  end.

(** [len(j)]. *)
Definition py_len (j : json) : result Z :=
  match j with
  | JObj kvs => Ok (Z.of_nat (length kvs))
  | JArr xs => Ok (Z.of_nat (length xs))
  | JStr s => Ok (Z.of_nat (str_len s))
  | JNull | JBool _ | JNum _ => Raise TypeError
  end.

(** [j[0]]. *)
Definition py_first (j : json) : result json :=
  match j with
  | JArr (x :: _) => Ok x
  | JArr [] => Raise IndexError
  | JStr (String a s) => Ok (JStr (str_take 1 (String a s)))
  | JStr EmptyString => Raise IndexError
  | JObj _ => Raise KeyError
  | JNull | JBool _ | JNum _ => Raise TypeError
  end.

(** ** Formatting *)

Definition nl : string := String "010"%char EmptyString.

Fixpoint str_repeat (n : nat) (s : string) : string :=
  match n with
  | O => EmptyString
  | S n' => s +:+ str_repeat n' s
  end.

(** [str(i)] is stdpp's [pretty] on [Z]. *)
Definition str_of_int (i : Z) : string := pretty i.

(** [f"{i:02d}"]: the decimal digits, with zeros between the sign and
    the digits up to a total width of two. *)
Definition format_02d (i : Z) : string :=
  let digits := str_of_int (Z.abs i) in
  let sign := if i <? 0 then "-" else EmptyString in
  let width := (String.length sign + String.length digits)%nat in
  sign +:+ str_repeat (2 - width) "0" +:+ digits.

(** ** Paths *)

(** The pieces of a string between its slashes. *)
Fixpoint split_slash (s : string) : list string :=
  match s with
  | EmptyString => [EmptyString]
  | String a s' =>
      if Ascii.eqb a "/"%char then EmptyString :: split_slash s'
      else match split_slash s' with
           | [] => [String a EmptyString]
           | piece :: pieces => String a piece :: pieces
           end
  end.

Definition keep_part (piece : string) : bool :=
  negb (String.eqb piece EmptyString) && negb (String.eqb piece ".").

(** [p / s]: an absolute [s] replaces [p] (its root becomes the first
    part); otherwise the parts of [s] are appended, empty and [.] pieces
    dropped. *)
Definition path_join (p : path) (s : string) : path :=
  let parts := List.filter keep_part (split_slash s) in
  if is_prefix "/" s then "/"%string :: parts else p ++ parts.

(** [p.parent]. *)
Definition parent (p : path) : path := removelast p.

(** [str(p)]. *)
Fixpoint path_str (p : path) : string :=
  match p with
  | [] => "."
  | [part] => part
  | part :: rest =>
      if String.eqb part "/" then part +:+ path_str rest
      else part +:+ "/" +:+ path_str rest
  end.

(** ** File system *)

(** Whether something sits at [p]; the empty path is the working
    directory. *)
Definition present (m : gmap path node) (p : path) : bool :=
  match p with
  | [] => true
  | _ => bool_decide (is_Some (m !! p))
  end.

(** [p.exists()]. *)
Definition path_exists (p : path) : M bool :=
  fun w => (Ok (present (fs w) p), w).

(** [mkdir -p], walking down from the first part: a directory on the
    way is entered, a missing one is created, a file stops the walk
    ([FileExistsError] when it sits at the target itself). *)
Fixpoint mkdir_walk (above below : path) (m : gmap path node) : result (gmap path node) :=
  match below with
  | [] => Ok m
  | part :: rest =>
      let here := above ++ [part] in
      match m !! here with
      | Some Dir => mkdir_walk here rest m
      | Some (File _) =>
          Raise (match rest with [] => FileExistsError | _ => NotADirectoryError end)
      | None => mkdir_walk here rest (<[here := Dir]> m)
      end
  end.

(** [p.mkdir(parents=True, exist_ok=True)]. *)
Definition mkdir (p : path) : M unit :=
  fun w => match mkdir_walk [] p (fs w) with
           | Ok m => (Ok tt, mkWorld m (trace w))
           | Raise e => (Raise e, w)
           end.

(** [with open(p, "wb") as f: f.write(data)]: the directory of [p] must
    exist and [p] must not be a directory; a file already there is
    replaced. *)
Definition write_bytes (p : path) (data : bytes) : M unit :=
  fun w =>
    match p, fs w !! p with
    | [], _ | _, Some Dir => (Raise IsADirectoryError, w)
    | _, _ =>
        match parent p, fs w !! parent p with
        | [], _ | _, Some Dir => (Ok tt, mkWorld (<[p := File data]> (fs w)) (trace w))
        | _, Some (File _) => (Raise NotADirectoryError, w)
        | _, None => (Raise FileNotFoundError, w)
        end
    end.

(** ** Control flow shared by the scripts *)

(** A [for] loop over [items] that carries the running state [s]. *)
Fixpoint for_each {S A : Type} (items : list A) (body : S -> A -> M S) (s : S) : M S :=
  match items with
  | [] => ret s
  | x :: rest => s' <- body s x ;; for_each rest body s'
  end.

(** [range(lo, hi)]. *)
Definition py_range (lo hi : Z) : list Z := seqZ lo (hi - lo).

(** Truth value of an [Optional[bytes]]: [None] and [b""] are false. *)
Definition truthy (image_bytes : option bytes) : option bytes :=
  match image_bytes with
  | Some (b :: rest) => Some (b :: rest)
  | Some [] | None => None
  end.

(** Truth value of [os.environ.get("OPENAI_API_KEY")]: unset and empty
    are false. *)
Definition credential (key : option string) : option string :=
  match key with
  | Some EmptyString | None => None
  | Some k => Some k
  end.

(** ** Image Requestor

    [generate_image] is the same function in both scripts up to the
    client timeout and the wording of two log lines, which are the
    variables [post_timeout], [trying_prefix] and [failed_prefix] below.
    The two model names are variables as well, so that the guard
    [MODEL != FALLBACK_MODEL] can be studied for any configuration. *)

Definition API_URL : string := "https://api.openai.com/v1/images/generations".
Definition MODEL : string := "gpt-image-1".
Definition FALLBACK_MODEL : string := "dall-e-3".

Section Requestor.
Variable E : environment.
Variables model fallback_model : string.
Variable post_timeout : Q.
Variables trying_prefix failed_prefix : string.

Definition auth_headers (api_key : string) : list (string * string) :=
  [("Authorization"%string, "Bearer " +:+ api_key)].

Definition primary_payload (prompt size quality : string) : dict :=
  [ ("model"%string, JStr model);
    ("prompt"%string, JStr prompt);
    ("size"%string, JStr size);
    ("quality"%string, JStr quality);
    ("n"%string, JNum 1);
    ("output_format"%string, JStr "png") ].

(** The three updates made to [payload] before the second attempt. *)
Definition fallback_payload (payload : dict) : dict :=
  dict_set "response_format" (JStr "b64_json")
    (dict_pop "output_format"
       (dict_set "model" (JStr fallback_model) payload)).

(** [response = client.post(...); response.raise_for_status()]. *)
Definition post_checked (headers : list (string * string)) (payload : dict) : M response :=
  response <- send E (POST API_URL headers payload post_timeout) ;;
  raise_for_status response ;;;
  ret response.

(** The line logged for an error status: the status and the first
    300 characters of the body. *)
Definition status_line (prefix : string) (e : response) : string :=
  prefix +:+ str_of_int (status_code e) +:+ "): " +:+ str_take 300 (text e).

(** The body of [except httpx.HTTPStatusError as e] around the first
    attempt.  [None] stands for its two [return None]. *)
Definition fallback_attempt (headers : list (string * string)) (payload : dict)
    (e : response) : M (option response) :=
  print (status_line "  API error (" e) ;;;
  if negb (String.eqb model fallback_model) then
    print (trying_prefix +:+ fallback_model +:+ "...") ;;;
    let payload := fallback_payload payload in
    try_except_HTTPStatusError
      (response <- post_checked headers payload ;; ret (Some response))
      (fun e2 => print (status_line failed_prefix e2) ;;; ret None)
  else ret None.

(** The [with httpx.Client(...)] block. *)
Definition request_with_fallback (headers : list (string * string)) (payload : dict)
  : M (option response) :=
  try_except_HTTPStatusError
    (response <- post_checked headers payload ;; ret (Some response))
    (fallback_attempt headers payload).

(** [base64.b64decode(v)]. *)
Definition py_b64decode (v : json) : M bytes :=
  match v with
  | JStr s => match b64decode E s with
              | Some data => ret data
              | None => raise BinasciiError
              end
  | _ => raise TypeError
  end.

(** The download of [item["url"]] with its own client. *)
Definition download (v : json) : M bytes :=
  match v with
  | JStr url =>
      img_resp <- send E (GET url (60 # 1)) ;;
      raise_for_status img_resp ;;;
      ret (content img_resp)
  | _ => raise TypeError
  end.

Definition unexpected_format : M (option bytes) :=
  print "  Unexpected response format" ;;;
  ret None.

(** Everything after the [with] block. *)
Definition extract_image (response : response) : M (option bytes) :=
  data <- response_json response ;;
  has_data <- lift (py_contains "data" data) ;;
  nonempty <- (if has_data : bool then
                 items <- lift (py_getitem "data" data) ;;
                 n <- lift (py_len items) ;;
                 ret (0 <? n)
               else ret false) ;;
  if nonempty : bool then
    items <- lift (py_getitem "data" data) ;;
    item <- lift (py_first items) ;;
    has_b64 <- lift (py_contains "b64_json" item) ;;
    if has_b64 : bool then
      payload <- lift (py_getitem "b64_json" item) ;;
      decoded <- py_b64decode payload ;;
      ret (Some decoded)
    else
      has_url <- lift (py_contains "url" item) ;;
      if has_url : bool then
        url <- lift (py_getitem "url" item) ;;
        downloaded <- download url ;;
        ret (Some downloaded)
      else unexpected_format
  else unexpected_format.

Definition generate_image_with (api_key prompt size quality : string) : M (option bytes) :=
  let headers := auth_headers api_key in
  let payload := primary_payload prompt size quality in
  print ("  Calling " +:+ model +:+ " (" +:+ size +:+ ", " +:+ quality +:+ ")...") ;;;
  answer <- request_with_fallback headers payload ;;
  match answer with
  | Some response => extract_image response
  | None => ret None
  end.

(** [Image.open(io.BytesIO(image_bytes))] and its [size]. *)
Definition py_image_open (image_bytes : bytes) : M (Z * Z) :=
  match image_open E image_bytes with
  | Some size => ret size
  | None => raise UnidentifiedImageError
  end.

(** The persist step, written out in [save_image] of
    [generate_logo.py] and inline in [main] of [generate_round3.py]. *)
Definition persist (image_bytes : bytes) (output_path : path) : M unit :=
  mkdir (parent output_path) ;;;
  write_bytes output_path image_bytes ;;;
  size <- py_image_open image_bytes ;;
  print ("  Saved: " +:+ path_str output_path +:+ " (" +:+ str_of_int (fst size)
         +:+ "x" +:+ str_of_int (snd size) +:+ ")").
End Requestor.

(** ** generate_logo.py *)

Module GenerateLogo.

Definition CONCEPT_DIRS : list (Z * string) :=
  [ (1, "concepts/01-kiln-mark"%string);
    (2, "concepts/02-earthen-strata"%string);
    (3, "concepts/03-winding-path"%string);
    (4, "concepts/04-vermillion-leaf"%string) ].

Record concept : Type := mkConcept {
  name : string;
  prompt : string;
}.

(** [d[k]] on a dict with integer keys. *)
Definition lookup_int {A} (k : Z) (d : list (Z * A)) : M A :=
  match List.find (fun kv => fst kv =? k) d with
  | Some kv => ret (snd kv)
  | None => raise KeyError
  end.

Definition variation_hints : list string :=
  [ " Explore a different compositional arrangement."%string;
    " Try a bolder, more minimal interpretation."%string;
    " Emphasize the typography more prominently."%string;
    " Make the mark/icon more abstract and simplified."%string;
    " Try a horizontal lockup layout."%string ].

(** The suffix chosen for variation [i]. *)
Definition variation_suffix (i : Z) : string :=
  if 1 <? i then
    nth (Z.to_nat ((i - 2) mod Z.of_nat (length variation_hints)))
        variation_hints EmptyString
  else EmptyString.

Definition filename_of (i : Z) : string := "v" +:+ format_02d i +:+ ".png".

Record args : Type := mkArgs {
  arg_concept : option Z;
  arg_all : bool;
  arg_variations : Z;
  arg_quality : string;
  arg_size : string;
  arg_list : bool;
}.

(** The lines printed by a turn of the loop, and its pause, named for
    the statements about them. *)
Definition skipping_line (variations i : Z) : event :=
  EPrint (nl +:+ "  [" +:+ str_of_int i +:+ "/" +:+ str_of_int variations
          +:+ "] Skipping (already exists): " +:+ filename_of i).

Definition generating_line (variations i : Z) : event :=
  EPrint (nl +:+ "  [" +:+ str_of_int i +:+ "/" +:+ str_of_int variations
          +:+ "] Generating " +:+ filename_of i +:+ "...").

Definition failed_line (i : Z) : event :=
  EPrint ("  FAILED to generate " +:+ filename_of i).

Definition pause (variations i : Z) : list event :=
  if i <? variations then [ESleep (1 # 1)] else [].

(** The lines printed by [run_concept] before its loop. *)
Definition banner (concept_id : Z) (concept_name : string) (output_dir : path)
    (variations : Z) : list event :=
  [ EPrint (nl +:+ str_repeat 60 "=");
    EPrint ("Concept " +:+ str_of_int concept_id +:+ ": " +:+ concept_name);
    EPrint ("Output: " +:+ path_str output_dir);
    EPrint ("Generating " +:+ str_of_int variations +:+ " variation(s)...");
    EPrint (str_repeat 60 "=") ].

(** The last lines printed by [main]. *)
Definition done_lines (total_success total_attempted : Z) : list event :=
  [ EPrint (nl +:+ str_repeat 60 "=");
    EPrint ("DONE: " +:+ str_of_int total_success +:+ "/"
            +:+ str_of_int total_attempted +:+ " images generated successfully");
    EPrint (str_repeat 60 "=") ].

(** The first two events of every call of [generate_image]. *)
Definition calling_line (size quality : string) : event :=
  EPrint ("  Calling " +:+ MODEL +:+ " (" +:+ size +:+ ", " +:+ quality +:+ ")...").

Definition primary_request (api_key prompt size quality : string) : request :=
  POST API_URL (auth_headers api_key) (primary_payload MODEL prompt size quality) (120 # 1).

Definition first_request (api_key prompt size quality : string) : event :=
  ESend (primary_request api_key prompt size quality).

Definition fallback_request (api_key prompt size quality : string) : request :=
  POST API_URL (auth_headers api_key)
    (fallback_payload FALLBACK_MODEL (primary_payload MODEL prompt size quality))
    (120 # 1).

Section Script.
Variable E : environment.

(** The text of the four concept prompts: literal data of the
    script, of no consequence for its control flow. *)
Variable prompt_text : Z -> string.

Definition CONCEPT_PROMPTS : list (Z * concept) :=
  [ (1, mkConcept "The Kiln Mark" (prompt_text 1));
    (2, mkConcept "Earthen Strata" (prompt_text 2));
    (3, mkConcept "The Winding Path" (prompt_text 3));
    (4, mkConcept "The Vermillion Leaf" (prompt_text 4)) ].

Definition generate_image : string -> string -> string -> string -> M (option bytes) :=
  generate_image_with E MODEL FALLBACK_MODEL (120 # 1)
    "  Trying fallback model: " "  Fallback also failed (".

Definition save_image (image_bytes : bytes) (output_path : path) : M unit :=
  persist E image_bytes output_path.

(** One turn of the [for i in range(1, variations + 1)] loop. *)
Definition run_variation (api_key : string) (c : concept) (output_dir : path)
    (variations : Z) (quality size : string) (success_count : Z) (i : Z) : M Z :=
  let filename := filename_of i in
  let output_path := path_join output_dir filename in
  found <- path_exists output_path ;;
  if found : bool then
    print (nl +:+ "  [" +:+ str_of_int i +:+ "/" +:+ str_of_int variations
           +:+ "] Skipping (already exists): " +:+ filename) ;;;
    ret (success_count + 1)
  else
    print (nl +:+ "  [" +:+ str_of_int i +:+ "/" +:+ str_of_int variations
           +:+ "] Generating " +:+ filename +:+ "...") ;;;
    let prompt := prompt c +:+ variation_suffix i in
    image_bytes <- generate_image api_key prompt size quality ;;
    success_count <- match truthy image_bytes with
                     | Some image_bytes =>
                         save_image image_bytes output_path ;;;
                         ret (success_count + 1)
                     | None =>
                         print ("  FAILED to generate " +:+ filename) ;;;
                         ret success_count
                     end ;;
    (if i <? variations then sleep (1 # 1) else ret tt) ;;;
    ret success_count.

Definition run_concept (api_key : string) (concept_id variations : Z)
    (quality size : string) (base_dir : path) : M Z :=
  c <- lookup_int concept_id CONCEPT_PROMPTS ;;
  dir <- lookup_int concept_id CONCEPT_DIRS ;;
  let output_dir := path_join base_dir dir in
  mkdir output_dir ;;;
  print (nl +:+ str_repeat 60 "=") ;;;
  print ("Concept " +:+ str_of_int concept_id +:+ ": " +:+ name c) ;;;
  print ("Output: " +:+ path_str output_dir) ;;;
  print ("Generating " +:+ str_of_int variations +:+ " variation(s)...") ;;;
  print (str_repeat 60 "=") ;;;
  for_each (py_range 1 (variations + 1))
    (run_variation api_key c output_dir variations quality size) 0.

Definition list_concept (_ : unit) (entry : Z * concept) : M unit :=
  let (cid, c) := entry in
  print (nl +:+ "Concept " +:+ str_of_int cid +:+ ": " +:+ name c) ;;;
  dir <- lookup_int cid CONCEPT_DIRS ;;
  print ("  Dir: " +:+ dir) ;;;
  print ("  Prompt (" +:+ str_of_int (Z.of_nat (str_len (prompt c)))
         +:+ " chars):") ;;;
  print ("  " +:+ str_take 200 (prompt c) +:+ "...").

(** Truth value of [args.concept]. *)
Definition chosen (a : args) : option Z :=
  match arg_concept a with
  | Some 0 | None => None
  | Some c => Some c
  end.

Definition concepts_to_run (a : args) : list Z :=
  if arg_all a then py_range 1 5
  else match arg_concept a with Some c => [c] | None => [] end.

(** The loop of [main] over the concepts, on the pair
    [(total_success, total_attempted)]. *)
Definition run_all (api_key : string) (a : args) (base_dir : path)
    (totals : Z * Z) (cid : Z) : M (Z * Z) :=
  count <- run_concept api_key cid (arg_variations a) (arg_quality a) (arg_size a)
             base_dir ;;
  ret (fst totals + count, snd totals + arg_variations a).

(** [main], from the parsed arguments; [OPENAI_API_KEY] is the value
    of the environment variable and [base_dir] the directory of the
    script.  The result is the pair of totals that the last lines
    print, [None] when nothing was to be generated. *)
Definition main (a : args) (OPENAI_API_KEY : option string) (base_dir : path)
  : M (option (Z * Z)) :=
  if arg_list a then
    for_each CONCEPT_PROMPTS list_concept tt ;;;
    ret None
  else
    match chosen a, arg_all a with
    | None, false =>
        emit EPrintHelp ;;;
        print (nl +:+ "Error: specify --concept N or --all") ;;;
        raise (SystemExit 1)
    | _, _ =>
        match credential OPENAI_API_KEY with
        | None =>
            print "Error: OPENAI_API_KEY environment variable not set" ;;;
            print "Usage: OPENAI_API_KEY='sk-...' python3 generate_logo.py --concept 1" ;;;
            raise (SystemExit 1)
        | Some api_key =>
            totals <- for_each (concepts_to_run a) (run_all api_key a base_dir) (0, 0) ;;
            print (nl +:+ str_repeat 60 "=") ;;;
            print ("DONE: " +:+ str_of_int (fst totals) +:+ "/"
                   +:+ str_of_int (snd totals) +:+ " images generated successfully") ;;;
            print (str_repeat 60 "=") ;;;
            ret (Some totals)
        end
    end.
End Script.

End GenerateLogo.

(** ** generate_round3.py *)

Module GenerateRound3.

(** The keys of [PROMPTS], in the order of the literal. *)
Definition PROMPT_KEYS : list string :=
  [ "r3-01-brick-wordmark"; "r3-02-brick-monogram"; "r3-03-brick-minimal-B";
    "r3-04-brick-stamp"; "r3-05-home-editorial"; "r3-06-home-mixed-type";
    "r3-07-home-house-icon"; "r3-08-home-stacked"; "r3-09-clay-seal";
    "r3-10-clay-earthy"; "r3-11-clay-terre"; "r3-12-clay-arch";
    "r3-13-nature-simple-v"; "r3-14-nature-golden-oak"; "r3-15-nature-bird";
    "r3-16-nature-botanical"; "r3-17-hybrid-terra"; "r3-18-hybrid-crest";
    "r3-19-hybrid-land"; "r3-20-hybrid-dual-tone"; "r3-21-type-condensed";
    "r3-22-type-italic"; "r3-23-type-ampersand"; "r3-24-type-sans" ]%string.

(** [OUTPUT_DIR = Path(__file__).parent / "concepts" / "round3"]. *)
Definition OUTPUT_DIR (script_dir : path) : path :=
  path_join (path_join script_dir "concepts") "round3".

Definition filename_of (key : string) : string := key +:+ ".png".

(** The selection made from [sys.argv]: without arguments every key,
    otherwise, argument by argument, the keys that contain it. *)
Definition keys_to_run (argv : list string) : list string :=
  if 1 <? Z.of_nat (length argv) then
    List.concat
      (List.map (fun arg => List.filter (fun k => is_substring arg k) PROMPT_KEYS)
                (List.tl argv))
  else PROMPT_KEYS.

(** [enumerate(items, 1)]. *)
Definition enumerate1 {A} (items : list A) : list (Z * A) :=
  List.combine (seqZ 1 (Z.of_nat (length items))) items.

(** The lines printed by a turn of the loop, and its pause. *)
Definition skipping_line (total i : Z) (key : string) : event :=
  EPrint (nl +:+ "[" +:+ str_of_int i +:+ "/" +:+ str_of_int total
          +:+ "] SKIP (exists): " +:+ filename_of key).

Definition generating_lines (total i : Z) (key : string) : list event :=
  [ EPrint (nl +:+ str_repeat 60 "=");
    EPrint ("[" +:+ str_of_int i +:+ "/" +:+ str_of_int total
            +:+ "] Generating: " +:+ key);
    EPrint (str_repeat 60 "=") ].

Definition failed_line (key : string) : event := EPrint ("  FAILED: " +:+ key).

Definition pause (total i : Z) : list event :=
  if i <? total then [ESleep (3 # 2)] else [].

(** The last lines printed by [main]. *)
Definition done_lines (success total : Z) (output_dir : path) : list event :=
  [ EPrint (nl +:+ str_repeat 60 "=");
    EPrint ("DONE: " +:+ str_of_int success +:+ "/" +:+ str_of_int total
            +:+ " logos generated");
    EPrint ("Output: " +:+ path_str output_dir);
    EPrint (str_repeat 60 "=") ].

Section Script.
Variable E : environment.

(** The text of the prompts: literal data of the script. *)
Variable prompt_text : string -> string.

Definition PROMPTS : list (string * string) :=
  List.map (fun k => (k, prompt_text k)) PROMPT_KEYS.

Definition lookup_str (k : string) (d : list (string * string)) : M string :=
  match List.find (fun kv => String.eqb (fst kv) k) d with
  | Some kv => ret (snd kv)
  | None => raise KeyError
  end.

Definition generate_image : string -> string -> string -> string -> M (option bytes) :=
  generate_image_with E MODEL FALLBACK_MODEL (180 # 1)
    "  Trying fallback: " "  Fallback failed (".

(** One turn of the [for i, key in enumerate(keys_to_run, 1)] loop. *)
Definition run_key (api_key : string) (output_dir : path) (total : Z)
    (success : Z) (entry : Z * string) : M Z :=
  let (i, key) := entry in
  let filename := filename_of key in
  let output_path := path_join output_dir filename in
  found <- path_exists output_path ;;
  if found : bool then
    print (nl +:+ "[" +:+ str_of_int i +:+ "/" +:+ str_of_int total
           +:+ "] SKIP (exists): " +:+ filename) ;;;
    ret (success + 1)
  else
    print (nl +:+ str_repeat 60 "=") ;;;
    print ("[" +:+ str_of_int i +:+ "/" +:+ str_of_int total
           +:+ "] Generating: " +:+ key) ;;;
    print (str_repeat 60 "=") ;;;
    prompt <- lookup_str key PROMPTS ;;
    image_bytes <- generate_image api_key prompt "1024x1024" "high" ;;
    success <- match truthy image_bytes with
               | Some image_bytes =>
                   persist E image_bytes output_path ;;;
                   ret (success + 1)
               | None =>
                   print ("  FAILED: " +:+ key) ;;;
                   ret success
               end ;;
    (if i <? total then sleep (3 # 2) else ret tt) ;;;
    ret success.

(** [main]; the result is the pair [(success, total)] of the last
    lines printed. *)
Definition main (argv : list string) (OPENAI_API_KEY : option string)
    (script_dir : path) : M (Z * Z) :=
  match credential OPENAI_API_KEY with
  | None =>
      print "Error: OPENAI_API_KEY not set" ;;;
      raise (SystemExit 1)
  | Some api_key =>
      let output_dir := OUTPUT_DIR script_dir in
      mkdir output_dir ;;;
      let keys := keys_to_run argv in
      let total := Z.of_nat (length keys) in
      success <- for_each (enumerate1 keys) (run_key api_key output_dir total) 0 ;;
      print (nl +:+ str_repeat 60 "=") ;;;
      print ("DONE: " +:+ str_of_int success +:+ "/" +:+ str_of_int total
             +:+ " logos generated") ;;;
      print ("Output: " +:+ path_str output_dir) ;;;
      print (str_repeat 60 "=") ;;;
      ret (success, total)
  end.
End Script.

End GenerateRound3.

(** * Vocabulary of the properties *)

(** A computation respects a relation on worlds when every run of it,
    normal or exceptional, leaves a world related to the one it
    started from. *)
Definition respects {A} (R : relation world) (m : M A) : Prop :=
  ∀ w, R w (snd (m w)).

(** The run appended to the trace only events accepted by [P]. *)
Definition emits_only (P : event → bool) : relation world :=
  λ w w', ∃ t, trace w' = trace w ++ t ∧ forallb P t = true.

Definition same_fs : relation world := λ w w', fs w' = fs w.

(** What exists keeps existing and directories stay directories. *)
Definition fs_le (m m' : gmap path node) : Prop :=
  ∀ p, (is_Some (m !! p) → is_Some (m' !! p)) ∧ (m !! p = Some Dir → m' !! p = Some Dir).

Definition fs_grows : relation world := λ w w', fs_le (fs w) (fs w').

Definition not_sleep (e : event) : bool := negb (is_sleep e).

Definition not_send (e : event) : bool := negb (is_send e).

Definition is_post (e : event) : bool :=
  match e with ESend (POST _ _ _ _) => true | _ => false end.

Definition not_post (e : event) : bool := negb (is_post e).

Fixpoint no_slash (s : string) : bool :=
  match s with
  | EmptyString => true
  | String a s' => negb (Ascii.eqb a "/"%char) && no_slash s'
  end.

(** The decimal digit of a number below ten. *)
Definition digit (d : Z) : ascii := pretty_N_char (Z.to_N d).

(** Every directory on the way to [p], and [p] itself, is a directory
    of [m]. *)
Definition dirs_to (m : gmap path node) (p : path) : Prop :=
  ∀ k, (0 < k ≤ length p)%nat → m !! take k p = Some Dir.

(** What [generate_image] does with the first item of a well-formed
    answer, an object whose fields are [fields]. *)
Definition first_item_outcome (E : environment) (fields : dict) (w : world)
  : result (option bytes) * world :=
  match dict_get "b64_json" fields with
  | Some (JStr payload) =>
      match b64decode E payload with
      | Some data => (Ok (Some data), w)
      | None => (Raise BinasciiError, w)
      end
  | Some _ => (Raise TypeError, w)
  | None =>
      match dict_get "url" fields with
      | Some (JStr url) =>
          let fetch := GET url (60 # 1) in
          match net E (calls w) fetch with
          | Responded img =>
              (if is_success img then Ok (Some (content img))
               else Raise (HTTPStatusError img),
               push w [ESend fetch])
          | NetworkFailure => (Raise RequestError, push w [ESend fetch])
          end
      | Some _ => (Raise TypeError, w)
      | None => (Ok None, push w [EPrint "  Unexpected response format"])
      end
  end.

(** The line printed after a file was written and read back as an
    image of the given size. *)
Definition saved_line (output_path : path) (size : Z * Z) : event :=
  EPrint ("  Saved: " +:+ path_str output_path +:+ " (" +:+ str_of_int (fst size)
          +:+ "x" +:+ str_of_int (snd size) +:+ ")").

(** The answer [r] is a success whose first item holds, inline, a
    payload that decodes to [data]. *)
Definition carries_inline (E : environment) (r : response) (data : bytes) : Prop :=
  is_success r = true ∧
  ∃ kvs fields rest payload,
    json_body r = Some (JObj kvs) ∧
    dict_get "data" kvs = Some (JArr (JObj fields :: rest)) ∧
    dict_get "b64_json" fields = Some (JStr payload) ∧
    b64decode E payload = Some data.

(** Every pause of [t] lasts [d] seconds and comes after a request;
    [seen] tells whether a request was sent before [t]. *)
Fixpoint paced (d : Q) (seen : bool) (t : list event) : Prop :=
  match t with
  | [] => True
  | ESend _ :: t' => paced d true t'
  | ESleep d' :: t' => seen = true ∧ d' = d ∧ paced d seen t'
  | _ :: t' => paced d seen t'
  end.

Definition pacing (d : Q) : relation world :=
  λ w w', ∃ t, trace w' = trace w ++ t ∧ paced d false t.



(** Nothing that was in the file system has changed: every file and
    every directory of [w] is in [w'] as it was. *)
Definition keeps_fs : relation world := λ w w', fs w ⊆ fs w'.

(** The run sent at most [n] requests. *)
Definition sends_at_most (n : nat) : relation world :=
  λ w w', ∃ t, trace w' = trace w ++ t ∧ (length (requests t) ≤ n)%nat.

(** Every run of [m] sends at most [n] requests. *)
Definition costs {A} (n : nat) (m : M A) : Prop :=
  ∀ w, sends_at_most n w (snd (m w)).

(** A server that answers every request with an image, carried inline,
    that is not empty and opens. *)
Definition always_inline (E : environment) : Prop :=
  ∀ n r, ∃ resp data dims,
    net E n r = Responded resp ∧ carries_inline E resp data ∧ data ≠ [] ∧
    image_open E data = Some dims.

(** No empty file was added: a file without content that is there
    afterwards was there before. *)
Definition no_empty_file : relation world :=
  λ w w', ∀ p, fs w' !! p = Some (File []) → fs w !! p = Some (File []).

(** A request that is posted goes to the API and carries the key
    [api_key], in the one header of the scripts. *)
Definition to_api_with (api_key : string) (e : event) : bool :=
  match e with
  | ESend (POST url headers _ _) =>
      bool_decide (url = API_URL ∧ headers = auth_headers api_key)
  | _ => true
  end.

(** The UTF-8 encoding of a code point: one byte below U+0080, two
    below U+0800, three below U+10000 and four from there on, up to
    the last code point, U+10FFFF (a larger number stands for its low
    21 bits). *)
Definition utf8_char (c : N) : string :=
  if (c <? 128)%N then String (ascii_of_N c) ""
  else if (c <? 2048)%N then
    String (ascii_of_N (192 + c / 64)%N) (String (ascii_of_N (128 + c mod 64)%N) "")
  else if (c <? 65536)%N then
    String (ascii_of_N (224 + c / 4096)%N)
      (String (ascii_of_N (128 + (c / 64) mod 64)%N)
         (String (ascii_of_N (128 + c mod 64)%N) ""))
  else
    String (ascii_of_N (240 + (c / 262144) mod 8)%N)
      (String (ascii_of_N (128 + (c / 4096) mod 64)%N)
         (String (ascii_of_N (128 + (c / 64) mod 64)%N)
            (String (ascii_of_N (128 + c mod 64)%N) ""))).

(** The [str] whose characters are the code points [cps]. *)
Definition utf8 (cps : list N) : string :=
  foldr (λ c s, utf8_char c +:+ s) EmptyString cps.

(** The four lines that [--list] prints for the concept [cid], of
    name [name], kept in [dir], whose prompt is made of the code
    points [cps]. *)
Definition listing (cid : Z) (name dir : string) (cps : list N) : list event :=
  [ EPrint (nl +:+ "Concept " +:+ str_of_int cid +:+ ": " +:+ name);
    EPrint ("  Dir: " +:+ dir);
    EPrint ("  Prompt (" +:+ str_of_int (Z.of_nat (length cps)) +:+ " chars):");
    EPrint ("  " +:+ utf8 (take 200 cps) +:+ "...") ].

(** * Worked scenarios

    Small concrete worlds on which the statements below are run. *)

Module Scenario.
(** The first bytes of a PNG file stand for an image. *)
Definition png : bytes := [Byte.x89; Byte.x50; Byte.x4e; Byte.x47].

Definition decoder (payload : string) : option bytes :=
  if String.eqb payload "iVBORw==" then Some png else None.

Definition viewer (data : bytes) : option (Z * Z) :=
  match data with
  | [] => None
  | _ => Some (1024, 1024)
  end.

(** An answer carrying an image inline. *)
Definition inline_answer : response :=
  mkResponse 200 ""
    (Some (JObj [("created"%string, JNum 1700000000);
                 ("data"%string, JArr [JObj [("b64_json"%string, JStr "iVBORw==")]])]))
    [].

Definition error_answer : response :=
  mkResponse 500 "{ error: server_error }" None [].

(** Every request is answered with an inline image. *)
Definition healthy : environment :=
  mkEnv (fun _ _ => Responded inline_answer) decoder viewer.

(** Every request is answered with status 500. *)
Definition failing : environment :=
  mkEnv (fun _ _ => Responded error_answer) decoder viewer.

(** No request gets through. *)
Definition offline : environment :=
  mkEnv (fun _ _ => NetworkFailure) decoder viewer.

(** Images arrive but do not open. *)
Definition garbled : environment :=
  mkEnv (fun _ _ => Responded inline_answer) decoder (fun _ => None).


Definition texts (concept_id : Z) : string := "P".

Definition base_dir : path := ["srv"; "vermillion"]%string.

Definition kiln_dir : path := ["srv"; "vermillion"; "concepts"; "01-kiln-mark"]%string.

Definition fresh : world := mkWorld ∅ [].

(** [v01.png] is there from an earlier run. *)
Definition resumed : world :=
  mkWorld (list_to_map [ (["srv"%string], Dir);
                         (["srv"; "vermillion"]%string, Dir);
                         (["srv"; "vermillion"; "concepts"]%string, Dir);
                         (kiln_dir, Dir);
                         (kiln_dir ++ ["v01.png"%string], File png) ]) [].



Definition kiln : GenerateLogo.concept := GenerateLogo.mkConcept "The Kiln Mark" "P".

Definition one_concept : GenerateLogo.args :=
  GenerateLogo.mkArgs (Some 1) false 3 "high" "1024x1024" false.




(** A successful answer whose body is not JSON. *)
Definition html_answer : response :=
  mkResponse 200 "<html>Bad gateway</html>" None [].

(** An answer giving the address of the image. *)
Definition url_answer : response :=
  mkResponse 200 ""
    (Some (JObj [("data"%string,
                  JArr [JObj [("url"%string, JStr "https://cdn.example/img.png")]])]))
    [].

(** An answer whose inline payload is empty. *)
Definition empty_answer : response :=
  mkResponse 200 ""
    (Some (JObj [("data"%string, JArr [JObj [("b64_json"%string, JStr "")]])]))
    [].

(** The first request of the process is refused, the others are
    answered with an image. *)
Definition recovering : environment :=
  mkEnv (fun n _ => match n with O => Responded error_answer | _ => Responded inline_answer end)
        decoder viewer.

(** Every request is answered with a page that is not JSON. *)
Definition proxy : environment :=
  mkEnv (fun _ _ => Responded html_answer) decoder viewer.

(** The API gives an address from which the image is gone. *)
Definition expired : environment :=
  mkEnv (fun _ r => match r with
                    | POST _ _ _ _ => Responded url_answer
                    | GET _ _ => Responded error_answer
                    end)
        decoder viewer.

(** Answers whose image has no bytes. *)
Definition hollow : environment :=
  mkEnv (fun _ _ => Responded empty_answer) (fun _ => Some []) viewer.

Definition prompts (key : string) : string := "P".

(** A prompt of 252 characters with an em dash, U+2014, as its second;
    encoded it has 254 bytes. *)
Definition dashed_points (concept_id : Z) : list N :=
  80%N :: 8212%N :: repeat 97%N 250.

Definition dashed (concept_id : Z) : string := utf8 (dashed_points concept_id).

(** An error body of 311 characters, the first an em dash. *)
Definition long_body : list N := 8212%N :: repeat 120%N 310.

Definition long_error_answer : response :=
  mkResponse 500 (utf8 long_body) None [].

(** Every request is refused with the long error body. *)
Definition verbose : environment :=
  mkEnv (fun _ _ => Responded long_error_answer) decoder viewer.

(** [--list] on its own. *)
Definition list_only : GenerateLogo.args :=
  GenerateLogo.mkArgs None false 3 "high" "1024x1024" true.

(** One key of the catalogue asked for on a fresh disk. *)
Definition round3_run : result (Z * Z) * world :=
  GenerateRound3.main healthy prompts ["generate_round3.py"; "r3-01"]%string
    (Some "sk-test"%string) base_dir fresh.



End Scenario.

(** * Reasoning about computations *)

Global Instance emits_only_preorder P : PreOrder (emits_only P).
Proof.
  split.
  - intros w. exists []. by rewrite app_nil_r.
  - intros w1 w2 w3 (t1 & H1 & F1) (t2 & H2 & F2). exists (t1 ++ t2). split.
    + by rewrite H2, H1, app_assoc.
    + rewrite forallb_app. by rewrite F1, F2.
Qed.

Global Instance same_fs_preorder : PreOrder same_fs.
Proof. split; unfold same_fs; [done | intros w1 w2 w3 H1 H2; congruence]. Qed.

Global Instance fs_le_preorder : PreOrder fs_le.
Proof.
  split.
  - intros m p. done.
  - intros m1 m2 m3 H1 H2 p. destruct (H1 p), (H2 p). split; auto.
Qed.

Global Instance fs_grows_preorder : PreOrder fs_grows.
Proof.
  split; unfold fs_grows.
  - intros w. reflexivity.
  - intros w1 w2 w3 H1 H2. by etrans.
Qed.

Section Respects.
Context (R : relation world) `{!PreOrder R}.

Lemma respects_ret {A} (a : A) : respects R (ret a).
Proof. intros w. simpl. reflexivity. Qed.

Lemma respects_raise {A} e : respects R (@raise A e).
Proof. intros w. simpl. reflexivity. Qed.

Lemma respects_lift {A} (r : result A) : respects R (lift r).
Proof. intros w. simpl. reflexivity. Qed.

Lemma respects_bind {A B} (m : M A) (k : A → M B) :
  respects R m → (∀ a, respects R (k a)) → respects R (bind m k).
Proof.
  intros Hm Hk w. unfold bind. specialize (Hm w).
  destruct (m w) as [[a|e] w']; simpl in *; [|done].
  etrans; [exact Hm | apply Hk].
Qed.

Lemma respects_try {A} (body : M A) handler :
  respects R body → (∀ r, respects R (handler r)) →
  respects R (try_except_HTTPStatusError body handler).
Proof.
  intros Hb Hh w. unfold try_except_HTTPStatusError. specialize (Hb w).
  destruct (body w) as [[a|[]] w']; simpl in *; try done.
  etrans; [exact Hb | apply Hh].
Qed.

Lemma respects_for_each {S A} (items : list A) (body : S → A → M S) s :
  (∀ s x, respects R (body s x)) → respects R (for_each items body s).
Proof.
  intros Hb. revert s. induction items as [|x rest IH]; intros s; simpl.
  - apply respects_ret.
  - apply respects_bind; auto.
Qed.
End Respects.

Ltac respects_step :=
  match goal with
  | |- respects _ (bind _ _) => refine (respects_bind _ _ _ _ _); [|intros ?]
  | |- respects _ (ret _) => refine (respects_ret _ _)
  | |- respects _ (raise _) => refine (respects_raise _ _)
  | |- respects _ (lift _) => refine (respects_lift _ _)
  | |- respects _ (try_except_HTTPStatusError _ _) =>
      refine (respects_try _ _ _ _ _); [|intros ?]
  | |- respects _ (for_each _ _ _) => refine (respects_for_each _ _ _ _ _); intros ? ?
  | |- respects _ (if ?b then _ else _) => destruct b
  | |- respects _ (match ?x with _ => _ end) => destruct x
  end.

(** What the primitive operations respect. *)

Lemma emit_emits P e : P e = true → respects (emits_only P) (emit e).
Proof. intros H w. exists [e]. simpl. by rewrite H. Qed.

Lemma send_emits P E r : P (ESend r) = true → respects (emits_only P) (send E r).
Proof.
  intros H w. exists [ESend r]. unfold send.
  destruct (net E _ r); simpl; by rewrite H.
Qed.

Lemma path_exists_emits P p : respects (emits_only P) (path_exists p).
Proof. intros w. simpl. reflexivity. Qed.

Lemma mkdir_emits P p : respects (emits_only P) (mkdir p).
Proof.
  intros w. unfold mkdir. destruct (mkdir_walk [] p (fs w)); simpl; [|reflexivity].
  exists []. by rewrite app_nil_r.
Qed.

Lemma write_bytes_emits P p data : respects (emits_only P) (write_bytes p data).
Proof.
  intros w. unfold write_bytes.
  repeat case_match; simpl; try reflexivity; exists []; by rewrite app_nil_r.
Qed.

Lemma emit_same_fs e : respects same_fs (emit e).
Proof. by intros w. Qed.

Lemma send_same_fs E r : respects same_fs (send E r).
Proof. intros w. unfold send. by destruct (net E _ r). Qed.

Lemma path_exists_same_fs p : respects same_fs (path_exists p).
Proof. by intros w. Qed.
(** * Strings, formats and paths *)

Lemma app_empty_r (s : string) : s +:+ "" = s.
Proof. induction s as [|a s IH]; [done|]. unfold String.app in *. simpl. by rewrite IH. Qed.

Lemma app_cons (a : ascii) (s t : string) : String a s +:+ t = String a (s +:+ t).
Proof. done. Qed.

Lemma app_assoc_str (s t u : string) : (s +:+ t) +:+ u = s +:+ t +:+ u.
Proof. induction s as [|a s IH]; [done|]. rewrite !app_cons. by rewrite IH. Qed.

Lemma length_app_str (s t : string) :
  String.length (s +:+ t) = (String.length s + String.length t)%nat.
Proof. induction s as [|a s IH]; [done|]. rewrite app_cons. simpl. by rewrite IH. Qed.

Lemma no_slash_app (s t : string) : no_slash (s +:+ t) = no_slash s && no_slash t.
Proof.
  induction s as [|a s IH]; [done|]. rewrite app_cons. simpl.
  rewrite IH. by rewrite andb_assoc.
Qed.

Lemma no_slash_repeat n : no_slash (str_repeat n "0") = true.
Proof. induction n as [|n IH]; [done|]. simpl. by rewrite no_slash_app, IH. Qed.

Lemma no_slash_digit x : Ascii.eqb (pretty_N_char x) "/" = false.
Proof. unfold pretty_N_char. by repeat case_match. Qed.

Lemma no_slash_pretty_N_go x s : no_slash s = true → no_slash (pretty_N_go x s) = true.
Proof.
  revert s. induction (N.lt_wf_0 x) as [x _ IH]; intros s Hs.
  destruct (decide (x = 0%N)) as [->|Hx]; [by rewrite pretty_N_go_0|].
  rewrite pretty_N_go_step by lia. apply IH.
  - apply N.div_lt; lia.
  - simpl. by rewrite no_slash_digit, Hs.
Qed.

Lemma no_slash_pretty_N (x : N) : no_slash (pretty x) = true.
Proof.
  unfold pretty, pretty_N. case_decide; [done|]. by apply no_slash_pretty_N_go.
Qed.

Lemma no_slash_str_of_int i : no_slash (str_of_int i) = true.
Proof.
  unfold str_of_int, pretty, pretty_Z. destruct i as [|x|x]; [done|..].
  - apply (no_slash_pretty_N (Npos x)).
  - rewrite no_slash_app. simpl. apply (no_slash_pretty_N (Npos x)).
Qed.

Lemma no_slash_format_02d i : no_slash (format_02d i) = true.
Proof.
  unfold format_02d. rewrite !no_slash_app, no_slash_repeat, no_slash_str_of_int.
  by destruct (i <? 0).
Qed.

Lemma split_slash_part s : no_slash s = true → split_slash s = [s].
Proof.
  induction s as [|a s IH]; [done|]. simpl. intros [Ha Hs]%andb_true_iff.
  apply negb_true_iff in Ha. rewrite Ha. by rewrite (IH Hs).
Qed.

Lemma is_prefix_slash s : no_slash s = true → is_prefix "/" s = false.
Proof.
  destruct s as [|a s]; [done|]. cbn [no_slash is_prefix].
  intros [Ha _]%andb_true_iff. apply negb_true_iff in Ha.
  by rewrite Ascii.eqb_sym, Ha.
Qed.

(** Joining a single part that holds no slash appends it. *)
Lemma path_join_part (d : path) (s : string) :
  no_slash s = true → s ≠ "" → s ≠ "." → path_join d s = d ++ [s].
Proof.
  intros Hs Hne Hdot. unfold path_join.
  rewrite (split_slash_part s Hs), is_prefix_slash by done. cbn [List.filter].
  assert (keep_part s = true) as ->; [|done].
  unfold keep_part. apply andb_true_iff; split; apply negb_true_iff, String.eqb_neq; done.
Qed.

Lemma path_join_filename_logo d i :
  path_join d (GenerateLogo.filename_of i) = d ++ [GenerateLogo.filename_of i].
Proof.
  apply path_join_part; [|done..].
  unfold GenerateLogo.filename_of. rewrite !no_slash_app, no_slash_format_02d. done.
Qed.

(** ** The format of the variation index *)

Lemma pretty_Z_nonneg (i : Z) : 0 ≤ i → pretty i = pretty (Z.to_N i).
Proof. intros Hi. destruct i as [|x|x]; [done|done|lia]. Qed.

Lemma length_pretty_N_go x s : (String.length s ≤ String.length (pretty_N_go x s))%nat.
Proof.
  revert s. induction (N.lt_wf_0 x) as [x _ IH]; intros s.
  destruct (decide (x = 0%N)) as [->|Hx]; [by rewrite pretty_N_go_0|].
  rewrite pretty_N_go_step by lia.
  etrans; [|apply IH, N.div_lt; lia]. simpl. lia.
Qed.

Lemma length_pretty_ge_10 (i : Z) : 10 ≤ i → (2 ≤ String.length (pretty i))%nat.
Proof.
  intros Hi. rewrite pretty_Z_nonneg by lia. unfold pretty, pretty_N.
  case_decide; [lia|].
  assert (0 < (Z.to_N i `div` 10))%N by (apply N.div_str_pos; lia).
  rewrite !pretty_N_go_step by lia.
  etrans; [|apply length_pretty_N_go]. simpl. lia.
Qed.

Lemma length_pretty_ge_100 (i : Z) : 100 ≤ i → (3 ≤ String.length (pretty i))%nat.
Proof.
  intros Hi. rewrite pretty_Z_nonneg by lia. unfold pretty, pretty_N.
  case_decide; [lia|].
  assert (0 < (Z.to_N i `div` 10))%N by (apply N.div_str_pos; lia).
  assert (0 < ((Z.to_N i `div` 10) `div` 10))%N.
  { apply N.div_str_pos. split; [lia|]. apply N.div_le_lower_bound; lia. }
  rewrite !pretty_N_go_step by lia.
  etrans; [|apply length_pretty_N_go]. simpl. lia.
Qed.

(** Below one hundred the format is two digits, tens then units. *)
Lemma format_02d_digits (i : Z) :
  0 ≤ i < 100 →
  format_02d i = String (digit (i `div` 10)) (String (digit (i `mod` 10)) "").
Proof.
  intros Hi.
  assert (forallb (λ i, bool_decide
            (format_02d i = String (digit (i `div` 10)) (String (digit (i `mod` 10)) "")))
            (seqZ 0 100) = true) as Hall by (vm_compute; reflexivity).
  rewrite forallb_forall in Hall. specialize (Hall i).
  apply bool_decide_eq_true in Hall; [done|].
  apply list_elem_of_In, elem_of_seqZ. lia.
Qed.

(** From ten on the format is the plain decimal writing. *)
Lemma format_02d_ge_10 (i : Z) : 10 ≤ i → format_02d i = str_of_int i.
Proof.
  intros Hi. unfold format_02d. rewrite Z.abs_eq by lia.
  assert ((i <? 0) = false) as -> by lia. simpl.
  pose proof (length_pretty_ge_10 i Hi) as Hlen. unfold str_of_int.
  replace (2 - String.length (pretty i))%nat with 0%nat by lia. done.
Qed.

Lemma digit_inj a b : 0 ≤ a < 10 → 0 ≤ b < 10 → digit a = digit b → a = b.
Proof.
  intros Ha Hb H. apply pretty_N_char_inj in H; lia.
Qed.

Lemma format_02d_inj (i j : Z) : 0 ≤ i → 0 ≤ j → format_02d i = format_02d j → i = j.
Proof.
  assert (∀ i j, 0 ≤ i < 100 → 0 ≤ j → format_02d i = format_02d j → i = j) as Hlow.
  { clear. intros i j Hi Hj Heq.
    destruct (decide (j < 100)) as [Hj'|Hj'].
    - rewrite (format_02d_digits i), (format_02d_digits j) in Heq by lia.
      injection Heq as Ht Hu.
      apply digit_inj in Hu; [|apply Z.mod_pos_bound; lia..].
      apply digit_inj in Ht; [|split; [apply Z.div_pos|apply Z.div_lt_upper_bound]; lia..].
      rewrite (Z.div_mod i 10), (Z.div_mod j 10) by lia. lia.
    - assert (String.length (format_02d i) = 2%nat) as Hl
        by (by rewrite format_02d_digits by lia).
      rewrite Heq, format_02d_ge_10 in Hl by lia.
      pose proof (length_pretty_ge_100 j). unfold str_of_int in Hl. lia. }
  intros Hi Hj Heq.
  destruct (decide (i < 100)); [by apply Hlow; try lia|].
  destruct (decide (j < 100)); [symmetry; by apply Hlow; try lia|].
  rewrite !format_02d_ge_10 in Heq by lia. by apply (inj pretty).
Qed.

(** ** Code points

    [str_len] and [str_take] count code points: on the encoding of a
    sequence of code points they are its length and the encoding of
    its first elements. *)

Lemma continuation_byte (n : N) :
  (128 ≤ n < 192)%N → is_continuation (ascii_of_N n) = true.
Proof.
  intros Hn. unfold is_continuation. rewrite N_ascii_embedding by lia.
  apply andb_true_iff. split; [apply N.leb_le | apply N.ltb_lt]; lia.
Qed.

Lemma leading_byte (n : N) :
  (n < 128 ∨ 192 ≤ n < 256)%N → is_continuation (ascii_of_N n) = false.
Proof.
  intros Hn. unfold is_continuation. rewrite N_ascii_embedding by lia.
  apply andb_false_iff. destruct Hn; [left; apply N.leb_gt | right; apply N.ltb_ge]; lia.
Qed.

Lemma continuation_plus (m : N) :
  (m < 64)%N → is_continuation (ascii_of_N (128 + m)) = true.
Proof. intros Hm. apply continuation_byte. lia. Qed.

Lemma leading_plus (base m : N) :
  (192 ≤ base)%N → (base + m < 256)%N → is_continuation (ascii_of_N (base + m)) = false.
Proof. intros Hbase Hm. apply leading_byte. lia. Qed.

Lemma utf8_char_bytes (c : N) :
  ∃ lead rest,
    utf8_char c = String lead rest ∧
    is_continuation lead = false ∧
    (∀ s, str_len (rest +:+ s) = str_len s) ∧
    (∀ n s, str_take n (rest +:+ s) = rest +:+ str_take n s).
Proof.
  assert (∀ x, is_continuation (ascii_of_N (128 + x mod 64)) = true) as Hcont.
  { intros x. apply continuation_plus. by apply N.mod_lt. }
  assert (∀ base bound x, (192 ≤ base)%N → (base + bound ≤ 256)%N → (x < bound)%N →
            is_continuation (ascii_of_N (base + x)) = false) as Hlead.
  { intros base bound x Hbase Hbound Hx. apply leading_plus; lia. }
  unfold utf8_char.
  destruct (c <? 128)%N eqn:H1; [apply N.ltb_lt in H1|apply N.ltb_ge in H1].
  { eexists _, _. split; [reflexivity|]. split; [apply leading_byte; lia|]. done. }
  destruct (c <? 2048)%N eqn:H2; [apply N.ltb_lt in H2|apply N.ltb_ge in H2].
  { eexists _, _. split; [reflexivity|]. split.
    - apply (Hlead 192 32)%N; [lia|lia|]. apply N.Div0.div_lt_upper_bound. lia.
    - split; intros; rewrite !app_cons; cbn [str_len str_take]; by rewrite !Hcont. }
  destruct (c <? 65536)%N eqn:H3; [apply N.ltb_lt in H3|apply N.ltb_ge in H3].
  { eexists _, _. split; [reflexivity|]. split.
    - apply (Hlead 224 16)%N; [lia|lia|]. apply N.Div0.div_lt_upper_bound. lia.
    - split; intros; rewrite !app_cons; cbn [str_len str_take]; by rewrite !Hcont. }
  eexists _, _. split; [reflexivity|]. split.
  - apply (Hlead 240 8)%N; [lia|lia|]. by apply N.mod_lt.
  - split; intros; rewrite !app_cons; cbn [str_len str_take]; by rewrite !Hcont.
Qed.

Lemma str_len_utf8 (cps : list N) : str_len (utf8 cps) = length cps.
Proof.
  induction cps as [|c cps IH]; [done|]. cbn [utf8 foldr length].
  destruct (utf8_char_bytes c) as (lead & rest & -> & Hlead & Hlen & _).
  rewrite app_cons. cbn [str_len]. rewrite Hlead, Hlen. by f_equal.
Qed.

Lemma str_take_utf8 (n : nat) (cps : list N) : str_take n (utf8 cps) = utf8 (take n cps).
Proof.
  revert n. induction cps as [|c cps IH]; intros n; [by destruct n|].
  cbn [utf8 foldr].
  destruct (utf8_char_bytes c) as (lead & rest & Hc & Hlead & _ & Htake).
  rewrite Hc, app_cons. cbn [str_take]. rewrite Hlead.
  destruct n as [|n]; [done|].
  cbn [take utf8 foldr]. rewrite Hc, app_cons, Htake. f_equal. f_equal. apply IH.
Qed.
(** * The file system *)

Lemma world_eta w : mkWorld (fs w) (trace w) = w.
Proof. by destruct w. Qed.

Lemma mkdir_walk_spec above below m m' :
  mkdir_walk above below m = Ok m' →
  (∀ k, (0 < k ≤ length below)%nat → m' !! (above ++ take k below) = Some Dir) ∧
  (∀ q, m' !! q = m !! q ∨
        ∃ k, (0 < k ≤ length below)%nat ∧ q = above ++ take k below ∧ m' !! q = Some Dir).
Proof.
  revert above m. induction below as [|part rest IH]; intros above m; simpl.
  - intros [= ->]. split; [intros k; lia | by left].
  - set (here := above ++ [part]).
    assert (∀ k, above ++ part :: take k rest = here ++ take k rest) as Hhere
      by (intros k; unfold here; by rewrite <-app_assoc).
    destruct (m !! here) as [[data|]|] eqn:Hlook; [done|..]; intros Hwalk;
      apply IH in Hwalk as [Hdirs Hrest].
    + split.
      * intros [|k] Hk; [lia|]. simpl. rewrite Hhere.
        destruct k as [|k]; [|apply Hdirs; simpl; lia].
        rewrite take_0, app_nil_r.
        destruct (Hrest here) as [->|(k & Hk' & Hq & _)]; [done|].
        apply (f_equal length) in Hq. rewrite length_app, length_take in Hq. lia.
      * intros q. destruct (Hrest q) as [?|(k & Hk & -> & Hq)]; [by left|right].
        exists (S k). simpl. rewrite Hhere. split; [lia|done].
    + split.
      * intros [|k] Hk; [lia|]. simpl. rewrite Hhere.
        destruct k as [|k]; [|apply Hdirs; simpl; lia].
        rewrite take_0, app_nil_r.
        destruct (Hrest here) as [->|(k & Hk' & Hq & _)]; [by rewrite lookup_insert_eq|].
        apply (f_equal length) in Hq. rewrite length_app, length_take in Hq. lia.
      * intros q. destruct (Hrest q) as [Hq|(k & Hk & -> & Hq)].
        -- destruct (decide (q = here)) as [->|Hne].
           ++ right. exists 1%nat. simpl. rewrite take_0.
              rewrite Hq, lookup_insert_eq. split; [lia|done].
           ++ left. by rewrite Hq, lookup_insert_ne.
        -- right. exists (S k). simpl. rewrite Hhere. split; [lia|done].
Qed.

Lemma mkdir_walk_idem above below m :
  (∀ k, (0 < k ≤ length below)%nat → m !! (above ++ take k below) = Some Dir) →
  mkdir_walk above below m = Ok m.
Proof.
  revert above. induction below as [|part rest IH]; intros above Hdirs; simpl; [done|].
  assert (m !! (above ++ [part]) = Some Dir) as ->.
  { specialize (Hdirs 1%nat). simpl in Hdirs. rewrite take_0 in Hdirs. apply Hdirs. lia. }
  apply IH.
  intros k Hk. rewrite <-app_assoc. apply (Hdirs (S k)). simpl. lia.
Qed.

Lemma mkdir_walk_dirs_to p m m' : mkdir_walk [] p m = Ok m' → dirs_to m' p.
Proof. intros [H _]%mkdir_walk_spec. exact H. Qed.

Lemma mkdir_walk_fs_le above below m m' : mkdir_walk above below m = Ok m' → fs_le m m'.
Proof.
  intros [_ H]%mkdir_walk_spec q. destruct (H q) as [->|(k & _ & _ & Hq)]; [done|].
  rewrite Hq. split; [eauto|done].
Qed.

Lemma dirs_to_mono m m' p : fs_le m m' → dirs_to m p → dirs_to m' p.
Proof. intros Hle Hd k Hk. by apply Hle, Hd. Qed.

(** Making a directory that is already there changes nothing. *)
Lemma mkdir_idem p w : dirs_to (fs w) p → mkdir p w = (Ok tt, w).
Proof.
  intros Hd. unfold mkdir. rewrite mkdir_walk_idem by done. by rewrite world_eta.
Qed.

Lemma mkdir_fs_grows p : respects fs_grows (mkdir p).
Proof.
  intros w. unfold mkdir. destruct (mkdir_walk [] p (fs w)) eqn:Hwalk; simpl.
  - by eapply mkdir_walk_fs_le.
  - reflexivity.
Qed.

Lemma write_bytes_fs_grows p data : respects fs_grows (write_bytes p data).
Proof.
  intros w. unfold write_bytes.
  assert (fs w !! p ≠ Some Dir → fs_le (fs w) (<[p := File data]> (fs w))) as Hins.
  { intros Hp q. destruct (decide (q = p)) as [->|Hne].
    - rewrite lookup_insert_eq. split; [eauto|done].
    - by rewrite lookup_insert_ne. }
  repeat case_match; simpl; try reflexivity; apply Hins; congruence.
Qed.

Lemma emit_fs_grows e : respects fs_grows (emit e).
Proof. intros w. unfold fs_grows. simpl. reflexivity. Qed.

Lemma same_fs_grows {A} (m : M A) : respects same_fs m → respects fs_grows m.
Proof. intros H w. unfold fs_grows. rewrite (H w). reflexivity. Qed.

Lemma parent_app_part (d : path) (part : string) : parent (d ++ [part]) = d.
Proof. unfold parent. apply removelast_last. Qed.
(** * The requestor *)

Ltac respects_base :=
  first
    [ apply emit_emits; reflexivity | apply send_emits; reflexivity
    | apply path_exists_emits | apply mkdir_emits | apply write_bytes_emits
    | apply emit_same_fs | apply send_same_fs | apply path_exists_same_fs
    | apply emit_fs_grows | apply mkdir_fs_grows | apply write_bytes_fs_grows ].

Ltac respects_auto := repeat (respects_base || respects_step).

Lemma push_push w es es' : push (push w es) es' = push w (es ++ es').
Proof. unfold push. simpl. by rewrite app_assoc. Qed.

Lemma requests_app t t' : requests (t ++ t') = requests t ++ requests t'.
Proof. apply omap_app. Qed.

Lemma calls_push w es : calls (push w es) = (calls w + length (requests es))%nat.
Proof. unfold calls, push. simpl. by rewrite requests_app, length_app. Qed.

Section RequestorFacts.
Variable E : environment.
Variables model fallback_model : string.
Variable post_timeout : Q.
Variables trying_prefix failed_prefix : string.

Local Abbreviation generate :=
  (generate_image_with E model fallback_model post_timeout trying_prefix failed_prefix).
Local Abbreviation post headers payload := (POST API_URL headers payload post_timeout).

Lemma extract_image_same_fs r : respects same_fs (extract_image E r).
Proof.
  unfold extract_image, unexpected_format, response_json, py_b64decode, download,
    raise_for_status, print.
  respects_auto.
Qed.

Lemma generate_same_fs api_key prompt size quality :
  respects same_fs (generate api_key prompt size quality).
Proof.
  unfold generate_image_with, request_with_fallback, fallback_attempt, post_checked,
    raise_for_status, print.
  respects_auto; apply extract_image_same_fs.
Qed.

(** After the response nothing is posted any more: the only request
    that may follow is the download. *)
Lemma extract_image_no_post r : respects (emits_only not_post) (extract_image E r).
Proof.
  unfold extract_image, unexpected_format, response_json, py_b64decode, download,
    raise_for_status, print.
  respects_auto.
Qed.

Lemma extract_image_no_sleep r : respects (emits_only not_sleep) (extract_image E r).
Proof.
  unfold extract_image, unexpected_format, response_json, py_b64decode, download,
    raise_for_status, print.
  respects_auto.
Qed.

Lemma persist_no_sleep data p : respects (emits_only not_sleep) (persist E data p).
Proof. unfold persist, py_image_open, print. respects_auto. Qed.

Lemma persist_fs_grows data p : respects fs_grows (persist E data p).
Proof. unfold persist, py_image_open, print. respects_auto. Qed.

(** ** The two attempts, step by step *)

Lemma post_checked_run headers payload w :
  post_checked E post_timeout headers payload w =
  match net E (calls w) (post headers payload) with
  | Responded r =>
      (if is_success r then Ok r else Raise (HTTPStatusError r),
       push w [ESend (post headers payload)])
  | NetworkFailure => (Raise RequestError, push w [ESend (post headers payload)])
  end.
Proof.
  unfold post_checked, bind, send, raise_for_status.
  destruct (net E (calls w) _) as [r|]; [|done]. by destruct (is_success r).
Qed.

Lemma request_with_fallback_run headers payload w :
  request_with_fallback E model fallback_model post_timeout trying_prefix failed_prefix
    headers payload w =
  let w' := push w [ESend (post headers payload)] in
  match net E (calls w) (post headers payload) with
  | Responded r =>
      if is_success r then (Ok (Some r), w')
      else fallback_attempt E model fallback_model post_timeout trying_prefix
             failed_prefix headers payload r w'
  | NetworkFailure => (Raise RequestError, w')
  end.
Proof.
  unfold request_with_fallback, try_except_HTTPStatusError, bind.
  rewrite post_checked_run.
  destruct (net E (calls w) _) as [r|]; [|done]. by destruct (is_success r).
Qed.

(** The second attempt, when the two model names differ. *)
Lemma fallback_attempt_run headers payload e w :
  model ≠ fallback_model →
  fallback_attempt E model fallback_model post_timeout trying_prefix failed_prefix
    headers payload e w =
  let second := post headers (fallback_payload fallback_model payload) in
  let said := [EPrint (status_line "  API error (" e);
               EPrint (trying_prefix +:+ fallback_model +:+ "...")] in
  match net E (calls w) second with
  | Responded r2 =>
      if is_success r2 then (Ok (Some r2), push w (said ++ [ESend second]))
      else (Ok None,
            push w (said ++ [ESend second; EPrint (status_line failed_prefix r2)]))
  | NetworkFailure => (Raise RequestError, push w (said ++ [ESend second]))
  end.
Proof.
  intros Hne. unfold fallback_attempt.
  apply String.eqb_neq in Hne. rewrite Hne. cbn [negb].
  unfold try_except_HTTPStatusError, bind, print, emit, ret.
  rewrite post_checked_run, !push_push, !calls_push. cbn [requests omap length app].
  rewrite !Nat.add_0_r.
  destruct (net E (calls w) _) as [r2|]; [|done].
  destruct (is_success r2); by rewrite ?push_push.
Qed.

(** No second attempt when the two model names are the same. *)
Lemma fallback_attempt_same headers payload e w :
  model = fallback_model →
  fallback_attempt E model fallback_model post_timeout trying_prefix failed_prefix
    headers payload e w =
  (Ok None, push w [EPrint (status_line "  API error (" e)]).
Proof.
  intros Heq. unfold fallback_attempt.
  apply String.eqb_eq in Heq. rewrite Heq. done.
Qed.

Lemma generate_run api_key prompt size quality w :
  generate api_key prompt size quality w =
  let said := EPrint ("  Calling " +:+ model +:+ " (" +:+ size +:+ ", " +:+ quality
                      +:+ ")...") in
  match request_with_fallback E model fallback_model post_timeout trying_prefix
          failed_prefix (auth_headers api_key) (primary_payload model prompt size quality)
          (push w [said]) with
  | (Ok (Some response), w') => extract_image E response w'
  | (Ok None, w') => (Ok None, w')
  | (Raise e, w') => (Raise e, w')
  end.
Proof.
  unfold generate_image_with, bind, print, emit.
  by destruct (request_with_fallback _ _ _ _ _ _ _ _ _) as [[[r|]|e] w'].
Qed.

Lemma fallback_attempt_no_sleep headers payload e :
  respects (emits_only not_sleep)
    (fallback_attempt E model fallback_model post_timeout trying_prefix failed_prefix
       headers payload e).
Proof.
  unfold fallback_attempt, post_checked, raise_for_status, print.
  respects_auto.
Qed.

(** Every call starts by posting the request for the first model;
    whatever follows, it is no pause. *)
Lemma generate_first_request api_key prompt size quality w :
  emits_only not_sleep
    (push w [EPrint ("  Calling " +:+ model +:+ " (" +:+ size +:+ ", " +:+ quality
                     +:+ ")...");
             ESend (post (auth_headers api_key)
                      (primary_payload model prompt size quality))])
    (snd (generate api_key prompt size quality w)).
Proof.
  rewrite generate_run. cbn zeta. rewrite request_with_fallback_run. cbn zeta.
  rewrite push_push. cbn [app].
  set (w1 := push w _).
  destruct (net E _ _) as [r|]; [|reflexivity].
  destruct (is_success r); [apply extract_image_no_sleep|].
  pose proof (fallback_attempt_no_sleep (auth_headers api_key)
                (primary_payload model prompt size quality) r w1) as Hfb.
  destruct (fallback_attempt _ _ _ _ _ _ _ _ _ _) as [[[r2|]|e] w2]; simpl in *;
    [|done..].
  etrans; [exact Hfb | apply extract_image_no_sleep].
Qed.

End RequestorFacts.
(** * What is taken from a response *)

Lemma extract_image_first_item E r kvs fields rest w :
  json_body r = Some (JObj kvs) →
  dict_get "data" kvs = Some (JArr (JObj fields :: rest)) →
  extract_image E r w = first_item_outcome E fields w.
Proof.
  intros Hjson Hdata.
  unfold extract_image, first_item_outcome, response_json, bind, lift.
  rewrite Hjson. cbn [ret py_contains py_getitem]. unfold dict_has. rewrite Hdata.
  cbn [py_len length py_first py_contains py_getitem ret].
  assert ((0 <? Z.of_nat (S (length rest))) = true) as -> by (apply Z.ltb_lt; lia).
  unfold dict_has.
  destruct (dict_get "b64_json" fields) as [v|] eqn:Hb64.
  - unfold py_b64decode. destruct v as [| | |s| |]; try done.
    unfold raise, ret. by destruct (b64decode E s).
  - destruct (dict_get "url" fields) as [v|] eqn:Hurl; [|done].
    unfold download. destruct v as [| | |u| |]; try done.
    unfold bind, send, raise_for_status.
    destruct (net E (calls w) _) as [img|]; [|done]. by destruct (is_success img).
Qed.

(** A response without a usable [data] array is an unexpected format. *)
Lemma extract_image_no_data E r kvs w :
  json_body r = Some (JObj kvs) →
  dict_get "data" kvs = None ∨ dict_get "data" kvs = Some (JArr []) →
  extract_image E r w = (Ok None, push w [EPrint "  Unexpected response format"]).
Proof.
  intros Hjson Hdata.
  unfold extract_image, response_json, bind, lift.
  rewrite Hjson. cbn [ret py_contains py_getitem]. unfold dict_has.
  by destruct Hdata as [-> | ->].
Qed.

Section Extraction.
Variable E : environment.
Variables model fallback_model : string.
Variable post_timeout : Q.
Variables trying_prefix failed_prefix : string.

Local Abbreviation generate :=
  (generate_image_with E model fallback_model post_timeout trying_prefix failed_prefix).
Local Abbreviation exchange :=
  (request_with_fallback E model fallback_model post_timeout trying_prefix failed_prefix).

(** The exchange hands a response over only when its status is 2xx. *)
Lemma exchange_success headers payload w r w' :
  exchange headers payload w = (Ok (Some r), w') → is_success r = true.
Proof.
  rewrite request_with_fallback_run. cbn zeta.
  destruct (net E (calls w) _) as [r1|]; [|done].
  destruct (is_success r1) eqn:H1; [by intros [= <- _]|].
  unfold fallback_attempt, try_except_HTTPStatusError, bind, print, emit, ret.
  destruct (negb _); [|done].
  rewrite post_checked_run.
  destruct (net E _ _) as [r2|]; [|done].
  destruct (is_success r2) eqn:H2; [by intros [= <- _]|done].
Qed.

(** The response handed over is the answer to the first request or,
    after an error status on it, the answer to the second one. *)
Lemma exchange_origin headers payload w r w' :
  exchange headers payload w = (Ok (Some r), w') →
  net E (calls w) (POST API_URL headers payload post_timeout) = Responded r ∨
  ∃ e, net E (calls w) (POST API_URL headers payload post_timeout) = Responded e ∧
       is_success e = false ∧
       net E (S (calls w))
         (POST API_URL headers (fallback_payload fallback_model payload) post_timeout)
       = Responded r.
Proof.
  rewrite request_with_fallback_run. cbn zeta.
  destruct (net E (calls w) _) as [r1|]; [|done].
  destruct (is_success r1) eqn:H1; [intros [= <- _]; by left|].
  destruct (decide (model = fallback_model)) as [Heq|Hne].
  { by rewrite fallback_attempt_same. }
  rewrite fallback_attempt_run by done. cbn zeta.
  rewrite calls_push. cbn [requests omap length]. rewrite Nat.add_1_r.
  destruct (net E (S (calls w)) _) as [r2|] eqn:H2; [|done].
  destruct (is_success r2); [|done].
  intros [= <- _]. right. by exists r1.
Qed.

(** C8.  Whenever the exchange with the API ends with a successful
    response, the answer to the first request or, after an error status
    on it, to the second one, and the answer is a JSON object
    whose [data] array is not empty, [generate_image] looks at the
    first item only: an inline [b64_json] payload is decoded on the
    spot, without any further request; failing that a [url] is
    fetched with one more request of its own; with neither field the
    result is [None], logged as an unexpected response format. *)
Theorem generate_image_first_item api_key prompt size quality w r w' kvs fields rest :
  exchange (auth_headers api_key) (primary_payload model prompt size quality)
    (push w [EPrint ("  Calling " +:+ model +:+ " (" +:+ size +:+ ", " +:+ quality
                     +:+ ")...")]) = (Ok (Some r), w') →
  json_body r = Some (JObj kvs) →
  dict_get "data" kvs = Some (JArr (JObj fields :: rest)) →
  let first := POST API_URL (auth_headers api_key)
                 (primary_payload model prompt size quality) post_timeout in
  let second := POST API_URL (auth_headers api_key)
                  (fallback_payload fallback_model
                     (primary_payload model prompt size quality)) post_timeout in
  is_success r = true ∧
  (net E (calls w) first = Responded r ∨
   ∃ e, net E (calls w) first = Responded e ∧ is_success e = false ∧
        net E (S (calls w)) second = Responded r) ∧
  generate api_key prompt size quality w =
    match dict_get "b64_json" fields with
    | Some (JStr payload) =>
        match b64decode E payload with
        | Some data => (Ok (Some data), w')
        | None => (Raise BinasciiError, w')
        end
    | Some _ => (Raise TypeError, w')
    | None =>
        match dict_get "url" fields with
        | Some (JStr url) =>
            match net E (calls w') (GET url (60 # 1)) with
            | Responded img =>
                (if is_success img then Ok (Some (content img))
                 else Raise (HTTPStatusError img),
                 push w' [ESend (GET url (60 # 1))])
            | NetworkFailure => (Raise RequestError, push w' [ESend (GET url (60 # 1))])
            end
        | Some _ => (Raise TypeError, w')
        | None => (Ok None, push w' [EPrint "  Unexpected response format"])
        end
    end.
Proof.
  intros Hex Hjson Hdata first second. split; [by eapply exchange_success|].
  split.
  { apply exchange_origin in Hex. rewrite calls_push in Hex.
    cbn [requests omap length] in Hex. by rewrite Nat.add_0_r in Hex. }
  rewrite generate_run. cbn zeta. rewrite Hex.
  by rewrite (extract_image_first_item E r kvs fields rest).
Qed.
(** A well-formed answer to the first request with an inline payload
    gives the decoded bytes after that single request. *)
Lemma generate_inline api_key prompt size quality w r kvs fields rest payload data :
  net E (calls w) (POST API_URL (auth_headers api_key)
                     (primary_payload model prompt size quality) post_timeout) = Responded r →
  is_success r = true →
  json_body r = Some (JObj kvs) →
  dict_get "data" kvs = Some (JArr (JObj fields :: rest)) →
  dict_get "b64_json" fields = Some (JStr payload) →
  b64decode E payload = Some data →
  generate api_key prompt size quality w =
  (Ok (Some data),
   push w [EPrint ("  Calling " +:+ model +:+ " (" +:+ size +:+ ", " +:+ quality
                   +:+ ")...");
           ESend (POST API_URL (auth_headers api_key)
                    (primary_payload model prompt size quality) post_timeout)]).
Proof.
  intros Hnet Hok Hjson Hdata Hb64 Hdec.
  rewrite generate_run. cbn zeta. rewrite request_with_fallback_run. cbn zeta.
  rewrite calls_push. cbn [requests omap length]. rewrite Nat.add_0_r, Hnet, Hok.
  rewrite (extract_image_first_item E r kvs fields rest) by done.
  unfold first_item_outcome. by rewrite Hb64, Hdec, push_push.
Qed.
End Extraction.
(** * The fallback *)

Section Fallback.
Variable E : environment.
Variables model fallback_model : string.
Variable post_timeout : Q.
Variables trying_prefix failed_prefix : string.

Local Abbreviation generate :=
  (generate_image_with E model fallback_model post_timeout trying_prefix failed_prefix).

(** The call after an error status on the first request, with two
    different model names: it goes on with whatever the second
    request brings. *)
Lemma generate_refused api_key prompt size quality w e :
  let headers := auth_headers api_key in
  let payload := primary_payload model prompt size quality in
  let first := POST API_URL headers payload post_timeout in
  let second := POST API_URL headers (fallback_payload fallback_model payload)
                  post_timeout in
  let said := [EPrint ("  Calling " +:+ model +:+ " (" +:+ size +:+ ", " +:+ quality
                       +:+ ")...");
               ESend first;
               EPrint (status_line "  API error (" e);
               EPrint (trying_prefix +:+ fallback_model +:+ "...");
               ESend second] in
  net E (calls w) first = Responded e →
  is_success e = false →
  model ≠ fallback_model →
  generate api_key prompt size quality w =
  match net E (S (calls w)) second with
  | Responded r2 =>
      if is_success r2 then extract_image E r2 (push w said)
      else (Ok None, push w (said ++ [EPrint (status_line failed_prefix r2)]))
  | NetworkFailure => (Raise RequestError, push w said)
  end.
Proof.
  intros headers payload first second said Hfirst Hfail Hne.
  rewrite generate_run. cbn zeta. rewrite request_with_fallback_run. cbn zeta.
  fold headers payload first.
  rewrite calls_push. cbn [requests omap length]. rewrite Nat.add_0_r, Hfirst, Hfail.
  rewrite fallback_attempt_run by done. cbn zeta. fold headers payload second.
  rewrite !calls_push. cbn [requests omap length]. rewrite Nat.add_0_r, Nat.add_1_r.
  destruct (net E (S (calls w)) second) as [r2|]; [|by rewrite !push_push].
  destruct (is_success r2); by rewrite !push_push.
Qed.



(** The line logged for an error status, character by character: the
    prefix, the status, and the first 300 characters of the body. *)
Lemma status_line_cut prefix r body :
  text r = utf8 body →
  status_line prefix r
  = prefix +:+ str_of_int (status_code r) +:+ "): " +:+ utf8 (take 300 body).
Proof. intros Hbody. unfold status_line. by rewrite Hbody, str_take_utf8. Qed.

(** C2.  When the first request comes back with an error status:
    with two different model names exactly one more request is
    posted, for the same prompt, to the fallback model, asking for
    [response_format = "b64_json"] and without [output_format], and
    nothing else is ever posted after it; when that one comes back
    with an error status as well the call ends there, with [None] and
    a line made of the status of the second answer and of the first
    300 characters of its body, cut between characters, after the
    like line for the first answer; with the same name twice the
    second request is not sent.  The two names of the scripts do
    differ. *)
Theorem fallback_exactly_once api_key prompt size quality w e :
  let headers := auth_headers api_key in
  let payload := primary_payload model prompt size quality in
  let second_payload := fallback_payload fallback_model payload in
  let first := POST API_URL headers payload post_timeout in
  let second := POST API_URL headers second_payload post_timeout in
  let calling := EPrint ("  Calling " +:+ model +:+ " (" +:+ size +:+ ", " +:+ quality
                         +:+ ")...") in
  let refused := EPrint (status_line "  API error (" e) in
  let trying := EPrint (trying_prefix +:+ fallback_model +:+ "...") in
  net E (calls w) first = Responded e →
  is_success e = false →
  (dict_get "model" second_payload = Some (JStr fallback_model) ∧
   dict_get "prompt" second_payload = Some (JStr prompt) ∧
   dict_get "response_format" second_payload = Some (JStr "b64_json") ∧
   dict_get "output_format" second_payload = None) ∧
  (model ≠ fallback_model →
     (∃ rest, trace (snd (generate api_key prompt size quality w)) =
                trace w ++ [calling; ESend first; refused; trying; ESend second] ++ rest ∧
              forallb not_post rest = true) ∧
     (∀ e2, net E (S (calls w)) second = Responded e2 → is_success e2 = false →
            generate api_key prompt size quality w =
              (Ok None,
               push w [calling; ESend first; refused; trying; ESend second;
                       EPrint (status_line failed_prefix e2)])) ∧
     (∀ e2 body body2,
        text e = utf8 body → text e2 = utf8 body2 →
        net E (S (calls w)) second = Responded e2 → is_success e2 = false →
        generate api_key prompt size quality w =
          (Ok None,
           push w [calling; ESend first;
                   EPrint ("  API error (" +:+ str_of_int (status_code e) +:+ "): "
                           +:+ utf8 (take 300 body));
                   trying; ESend second;
                   EPrint (failed_prefix +:+ str_of_int (status_code e2) +:+ "): "
                           +:+ utf8 (take 300 body2))]))) ∧
  (model = fallback_model →
     generate api_key prompt size quality w =
       (Ok None, push w [calling; ESend first; refused])) ∧
  MODEL ≠ FALLBACK_MODEL.
Proof.
  intros headers payload second_payload first second calling refused trying Hfirst Hfail.
  split; [done|].
  assert (calls (push w [calling]) = calls w) as Hcalls
    by (rewrite calls_push; simpl; lia).
  assert (calls (push (push w [calling]) [ESend first]) = S (calls w)) as Hcalls'
    by (rewrite !calls_push; simpl; lia).
  split.
  - intros Hne.
    assert (generate api_key prompt size quality w =
            match net E (S (calls w)) second with
            | Responded r2 =>
                if is_success r2 then
                  extract_image E r2 (push w [calling; ESend first; refused; trying;
                                              ESend second])
                else (Ok None, push w [calling; ESend first; refused; trying; ESend second;
                                       EPrint (status_line failed_prefix r2)])
            | NetworkFailure =>
                (Raise RequestError,
                 push w [calling; ESend first; refused; trying; ESend second])
            end) as Hrun.
    { rewrite generate_run. cbn zeta. rewrite request_with_fallback_run. cbn zeta.
      fold headers payload first calling. rewrite Hcalls, Hfirst, Hfail.
      rewrite fallback_attempt_run by done. cbn zeta.
      fold second_payload second refused trying. rewrite Hcalls'.
      destruct (net E (S (calls w)) second) as [r2|]; [|by rewrite !push_push].
      destruct (is_success r2); by rewrite !push_push. }
    split; [|split].
    + rewrite Hrun. destruct (net E (S (calls w)) second) as [r2|].
      * destruct (is_success r2).
        -- destruct (extract_image_no_post E r2
                       (push w [calling; ESend first; refused; trying; ESend second]))
             as (rest & Hrest & Hposts).
           exists rest. split; [|done]. rewrite Hrest. simpl. by rewrite <-app_assoc.
        -- by exists [EPrint (status_line failed_prefix r2)].
      * exists []. by rewrite app_nil_r.
    + intros e2 Hsecond Hfail2. by rewrite Hrun, Hsecond, Hfail2.
    + intros e2 body body2 Hbody Hbody2 Hsecond Hfail2.
      rewrite Hrun, Hsecond, Hfail2. unfold refused.
      by rewrite (status_line_cut _ e body Hbody), (status_line_cut _ e2 body2 Hbody2).
  - split; [|done].
    intros Heq. rewrite generate_run. cbn zeta. rewrite request_with_fallback_run.
    cbn zeta. fold headers payload first calling. rewrite Hcalls, Hfirst, Hfail.
    rewrite fallback_attempt_same by done. by rewrite !push_push.
Qed.
End Fallback.
(** * The persist step *)

Lemma mkdir_run p w m :
  mkdir_walk [] p (fs w) = Ok m → mkdir p w = (Ok tt, mkWorld m (trace w)).
Proof. intros H. unfold mkdir. by rewrite H. Qed.

(** Writing below a directory that exists, at a place that is not a
    directory itself. *)
Lemma write_bytes_run p data w :
  p ≠ [] → fs w !! p ≠ Some Dir → dirs_to (fs w) (parent p) →
  write_bytes p data w = (Ok tt, mkWorld (<[p := File data]> (fs w)) (trace w)).
Proof.
  intros Hp Hnd Hdirs. unfold write_bytes.
  assert (parent p = [] ∨ fs w !! parent p = Some Dir) as Hparent.
  { destruct (parent p) as [|part rest] eqn:Hpar; [by left|right].
    rewrite <-(firstn_all (part :: rest)), <-Hpar at 1. apply Hdirs. rewrite Hpar. simpl. lia. }
  destruct p as [|part rest]; [done|].
  destruct (fs w !! (part :: rest)) as [[?|]|]; try done;
    destruct Hparent as [-> | ->]; try done; by destruct (parent (part :: rest)).
Qed.

Lemma walk_keeps_target p m m' :
  p ≠ [] → mkdir_walk [] (parent p) m = Ok m' → m' !! p = m !! p.
Proof.
  intros Hp [_ Hrest]%mkdir_walk_spec.
  destruct (Hrest p) as [?|(k & Hk & Hq & _)]; [done|].
  apply (f_equal length) in Hq. simpl in Hq. rewrite length_take in Hq.
  unfold parent in *. destruct p as [|part rest]; [done|].
  assert (length (removelast (part :: rest)) < length (part :: rest))%nat; [|lia].
  clear. revert part. induction rest as [|x rest IH]; intros part; simpl in *; [lia|].
  specialize (IH x). lia.
Qed.

Section Persist.
Variable E : environment.

(** The persist step, once the directory can be made and the target
    is not a directory. *)
Lemma persist_run data p w m :
  p ≠ [] → fs w !! p ≠ Some Dir → mkdir_walk [] (parent p) (fs w) = Ok m →
  persist E data p w =
  match image_open E data with
  | Some size => (Ok tt, mkWorld (<[p := File data]> m) (trace w ++ [saved_line p size]))
  | None => (Raise UnidentifiedImageError, mkWorld (<[p := File data]> m) (trace w))
  end.
Proof.
  intros Hp Hnd Hwalk. unfold persist, bind.
  rewrite (mkdir_run _ _ _ Hwalk).
  rewrite write_bytes_run; [|done|..]; simpl.
  - unfold py_image_open. by destruct (image_open E data).
  - by rewrite (walk_keeps_target p (fs w) m).
  - by eapply mkdir_walk_dirs_to.
Qed.

(** C10.  Whenever the file system lets the persist step through
    (the directory of the target can be made and the target is not a
    directory itself), the step makes the directory and writes the
    file with exactly the bytes it was given before it looks at them
    as an image: when they are not one, the step raises and the file
    with those bytes stays. *)
Theorem persist_writes_before_validation data p w m :
  p ≠ [] → fs w !! p ≠ Some Dir → mkdir_walk [] (parent p) (fs w) = Ok m →
  fs (snd (persist E data p w)) !! p = Some (File data) ∧
  dirs_to (fs (snd (persist E data p w))) (parent p) ∧
  (image_open E data = None →
     persist E data p w =
       (Raise UnidentifiedImageError, mkWorld (<[p := File data]> m) (trace w))) ∧
  (∀ size, image_open E data = Some size →
     persist E data p w =
       (Ok tt, mkWorld (<[p := File data]> m) (trace w ++ [saved_line p size]))).
Proof.
  intros Hp Hnd Hwalk. rewrite (persist_run data p w m) by done.
  assert (dirs_to (<[p := File data]> m) (parent p)) as Hdirs.
  { apply (dirs_to_mono m); [|by eapply mkdir_walk_dirs_to].
    intros q. destruct (decide (q = p)) as [->|Hne].
    - rewrite lookup_insert_eq, (walk_keeps_target p (fs w) m) by done.
      split; [eauto|done].
    - by rewrite lookup_insert_ne. }
  destruct (image_open E data) as [size|]; simpl.
  - rewrite lookup_insert_eq. repeat split; [done|done|]. by intros ? [= <-].
  - rewrite lookup_insert_eq. repeat split; done.
Qed.

(** A persist step that returns has written the file. *)
Lemma persist_ok_written data p w w' :
  persist E data p w = (Ok tt, w') → fs w' !! p = Some (File data).
Proof.
  unfold persist, bind.
  destruct (mkdir (parent p) w) as [[[]|e] w1]; [|done].
  destruct (write_bytes p data w1) as [[[]|e] w2] eqn:Hwrite; [|done].
  assert (fs w2 !! p = Some (File data)) as Hw2.
  { revert Hwrite. unfold write_bytes.
    repeat case_match; intros [= <-]; simpl; by rewrite lookup_insert_eq. }
  unfold py_image_open. destruct (image_open E data); [|done].
  unfold print, emit. by intros [= <-].
Qed.
End Persist.
(** * The loop of generate_logo.py *)

Lemma present_part m (d : path) (part : string) :
  present m (d ++ [part]) = true ↔ is_Some (m !! (d ++ [part])).
Proof.
  unfold present. destruct (d ++ [part]) eqn:Hd.
  - by destruct d.
  - apply bool_decide_eq_true.
Qed.

Lemma for_each_app {S A} (xs ys : list A) (body : S → A → M S) s w :
  for_each (xs ++ ys) body s w =
  match for_each xs body s w with
  | (Ok s', w') => for_each ys body s' w'
  | (Raise e, w') => (Raise e, w')
  end.
Proof.
  revert s w. induction xs as [|x xs IH]; intros s w; simpl; [done|].
  unfold bind. destruct (body s x w) as [[s'|e] w']; [apply IH|done].
Qed.

(** A loop whose body adds at most one to the counter adds at most
    the number of its turns. *)
Lemma for_each_count {A} (items : list A) (body : Z → A → M Z) s w s' w' :
  (∀ s x w s' w', body s x w = (Ok s', w') → s ≤ s' ≤ s + 1) →
  for_each items body s w = (Ok s', w') →
  s ≤ s' ≤ s + Z.of_nat (length items).
Proof.
  intros Hbody. revert s w. induction items as [|x rest IH]; intros s w; simpl.
  - intros [= -> _]. lia.
  - unfold bind. destruct (body s x w) as [[s1|e] w1] eqn:Hx; [|done].
    intros Hrest. apply Hbody in Hx. apply IH in Hrest. lia.
Qed.

Section LogoLoop.
Variable E : environment.
Variable prompt_text : Z → string.
Variables (api_key : string) (c : GenerateLogo.concept) (output_dir : path).
Variables (variations : Z) (quality size : string).

Local Abbreviation turn :=
  (GenerateLogo.run_variation E api_key c output_dir variations quality size).
Local Abbreviation target i := (output_dir ++ [GenerateLogo.filename_of i]).

Local Abbreviation skipping_line := (GenerateLogo.skipping_line variations).
Local Abbreviation generating_line := (GenerateLogo.generating_line variations).
Local Abbreviation failed_line := GenerateLogo.failed_line.
Local Abbreviation pause := (GenerateLogo.pause variations).

(** A turn whose file is there already. *)
Lemma turn_skip count i w :
  is_Some (fs w !! target i) →
  turn count i w = (Ok (count + 1), push w [skipping_line i]).
Proof.
  intros Hthere. unfold GenerateLogo.run_variation, bind, path_exists.
  rewrite path_join_filename_logo.
  by apply present_part in Hthere as ->.
Qed.

(** A turn whose file is missing. *)
Lemma turn_generate count i w :
  fs w !! target i = None →
  turn count i w =
  match GenerateLogo.generate_image E api_key
          (GenerateLogo.prompt c +:+ GenerateLogo.variation_suffix i) size quality
          (push w [generating_line i]) with
  | (Ok image_bytes, w1) =>
      match truthy image_bytes with
      | Some data =>
          match GenerateLogo.save_image E data (target i) w1 with
          | (Ok _, w2) => (Ok (count + 1), push w2 (pause i))
          | (Raise e, w2) => (Raise e, w2)
          end
      | None => (Ok count, push w1 (failed_line i :: pause i))
      end
  | (Raise e, w1) => (Raise e, w1)
  end.
Proof.
  intros Hmissing. unfold GenerateLogo.run_variation, bind, path_exists.
  rewrite path_join_filename_logo.
  assert (present (fs w) (target i) = false) as ->.
  { apply not_true_iff_false. rewrite present_part, Hmissing. by intros [? ?]. }
  unfold print, sleep, emit, ret, GenerateLogo.pause. fold (generating_line i).
  destruct (GenerateLogo.generate_image _ _ _ _ _ _) as [[image_bytes|e] w1]; [|done].
  destruct (truthy image_bytes) as [data|].
  - destruct (GenerateLogo.save_image _ _ _ _) as [[[]|e] w2]; [|done].
    destruct (i <? variations); [done|]. unfold push. by rewrite app_nil_r, world_eta.
  - fold (failed_line i). destruct (i <? variations); by rewrite ?push_push.
Qed.

Local Abbreviation prompt_of i :=
  (GenerateLogo.prompt c +:+ GenerateLogo.variation_suffix i).

(** The trace of a turn whose file is missing: the announcement, the
    first request, then events none of which is a pause, and last the
    pause of the turn when it ends normally. *)
Lemma turn_shape count i w :
  fs w !! target i = None →
  ∃ t, forallb not_sleep t = true ∧
    trace (snd (turn count i w)) =
      trace w ++ [generating_line i; GenerateLogo.calling_line size quality;
                  GenerateLogo.first_request api_key (prompt_of i) size quality]
              ++ t
              ++ match fst (turn count i w) with
                 | Ok _ => pause i
                 | Raise _ => []
                 end.
Proof.
  intros Hmissing. rewrite turn_generate by done.
  unfold GenerateLogo.save_image, GenerateLogo.generate_image.
  destruct (generate_first_request E MODEL FALLBACK_MODEL (120 # 1)
              "  Trying fallback model: " "  Fallback also failed ("
              api_key (prompt_of i) size quality (push w [generating_line i]))
    as (t1 & Ht1 & Hns1).
  destruct (generate_image_with _ _ _ _ _ _ _ _ _ _ _) as [[image_bytes|e] w1];
    simpl in Ht1; rewrite <-app_assoc in Ht1; simpl in Ht1.
  - destruct (truthy image_bytes) as [data|].
    + destruct (persist_no_sleep E data (target i) w1) as (t2 & Ht2 & Hns2).
      destruct (persist _ _ _ _) as [[[]|e] w2]; simpl in *;
        exists (t1 ++ t2); (split; [by rewrite forallb_app, Hns1, Hns2|]);
        rewrite Ht2, Ht1, <-?app_assoc; simpl; rewrite <-?app_assoc, ?app_nil_r;
        reflexivity.
    + exists (t1 ++ [failed_line i]). simpl. split; [by rewrite forallb_app, Hns1|].
      rewrite Ht1, <-?app_assoc. simpl. rewrite <-?app_assoc. reflexivity.
  - exists t1. simpl. split; [done|]. rewrite Ht1, app_nil_r, <-?app_assoc. reflexivity.
Qed.

Lemma turn_counts count i w count' w' :
  turn count i w = (Ok count', w') → count ≤ count' ≤ count + 1.
Proof.
  destruct (fs w !! target i) as [n|] eqn:Hlook.
  - rewrite turn_skip by eauto. intros [= <- _]. lia.
  - rewrite turn_generate by done.
    destruct (GenerateLogo.generate_image _ _ _ _ _ _) as [[image_bytes|e] w1]; [|done].
    destruct (truthy image_bytes) as [data|].
    + destruct (GenerateLogo.save_image _ _ _ _) as [[[]|e] w2]; [|done].
      intros [= <- _]. lia.
    + intros [= <- _]. lia.
Qed.

(** A turn that adds one leaves a file at its target. *)
Lemma turn_written count i w w' :
  turn count i w = (Ok (count + 1), w') → is_Some (fs w' !! target i).
Proof.
  destruct (fs w !! target i) as [n|] eqn:Hlook.
  - rewrite turn_skip by eauto. intros [= <-]. simpl. eauto.
  - rewrite turn_generate by done.
    destruct (GenerateLogo.generate_image _ _ _ _ _ _) as [[image_bytes|e] w1]; [|done].
    destruct (truthy image_bytes) as [data|].
    + destruct (GenerateLogo.save_image _ _ _ _) as [[[]|e] w2] eqn:Hsave; [|done].
      intros [= <-]. simpl. apply persist_ok_written in Hsave. eauto.
    + intros [= ? _]. lia.
Qed.

Lemma turn_fs_grows count i : respects fs_grows (turn count i).
Proof.
  unfold GenerateLogo.run_variation, GenerateLogo.save_image, print, sleep.
  respects_auto; try apply persist_fs_grows;
    apply same_fs_grows; (apply path_exists_same_fs || apply generate_same_fs).
Qed.
End LogoLoop.
(** * A whole run of run_concept *)

Lemma requests_prints (lines : list event) :
  forallb not_send lines = true → requests lines = [].
Proof.
  induction lines as [|e lines IH]; [done|]. simpl.
  intros [He Hl]%andb_true_iff. destruct e; try done; by apply IH.
Qed.

Lemma length_py_range lo hi : Z.of_nat (length (py_range lo hi)) = Z.max 0 (hi - lo).
Proof. unfold py_range. rewrite length_seqZ. lia. Qed.

Section LogoRun.
Variable E : environment.
Variable prompt_text : Z → string.
Variables (api_key : string) (variations : Z) (quality size : string).
Variable base_dir : path.

Local Abbreviation run cid :=
  (GenerateLogo.run_concept E prompt_text api_key cid variations quality size base_dir).
Local Abbreviation turn c output_dir :=
  (GenerateLogo.run_variation E api_key c output_dir variations quality size).

(** [run_concept] for one of the four concepts: the directory is
    made, the banner printed, and the loop entered. *)
Lemma run_concept_run cid w :
  1 ≤ cid ≤ 4 →
  ∃ c dir,
    List.In (cid, c) (GenerateLogo.CONCEPT_PROMPTS prompt_text) ∧
    List.In (cid, dir) GenerateLogo.CONCEPT_DIRS ∧
    run cid w =
    match mkdir (path_join base_dir dir) w with
    | (Ok _, w1) =>
        for_each (py_range 1 (variations + 1)) (turn c (path_join base_dir dir)) 0
          (push w1 (GenerateLogo.banner cid (GenerateLogo.name c)
                      (path_join base_dir dir) variations))
    | (Raise e, w1) => (Raise e, w1)
    end.
Proof.
  intros Hcid.
  assert (cid = 1 ∨ cid = 2 ∨ cid = 3 ∨ cid = 4) as [-> | [-> | [-> | ->]]] by lia;
    eexists _, _; (split; [|split]);
    [simpl; eauto | simpl; eauto | | simpl; eauto 6 | simpl; eauto 6 |
     | simpl; eauto 6 | simpl; eauto 6 | | simpl; eauto 6 | simpl; eauto 6 | ];
    unfold GenerateLogo.run_concept, bind, GenerateLogo.lookup_int; cbn [List.find fst snd
      GenerateLogo.CONCEPT_PROMPTS GenerateLogo.CONCEPT_DIRS Z.eqb Pos.eqb ret];
    (destruct (mkdir _ w) as [[[]|e] w1]; [|done]);
    unfold print, emit; by rewrite !push_push.
Qed.

Lemma concept_known cid c dir :
  List.In (cid, c) (GenerateLogo.CONCEPT_PROMPTS prompt_text) →
  List.In (cid, dir) GenerateLogo.CONCEPT_DIRS →
  1 ≤ cid ≤ 4 ∧
  ∀ c' dir', List.In (cid, c') (GenerateLogo.CONCEPT_PROMPTS prompt_text) →
             List.In (cid, dir') GenerateLogo.CONCEPT_DIRS → c' = c ∧ dir' = dir.
Proof.
  intros Hc Hdir. split.
  - simpl in Hdir. repeat (destruct Hdir as [[= <- _]|Hdir]; [lia|]). done.
  - intros c' dir' Hc' Hdir'. simpl in *.
    repeat match goal with H : _ ∨ _ |- _ => destruct H end; simplify_eq; done.
Qed.

(** [run_concept] for the concept [c] kept in directory [dir]. *)
Lemma run_concept_known cid c dir w :
  List.In (cid, c) (GenerateLogo.CONCEPT_PROMPTS prompt_text) →
  List.In (cid, dir) GenerateLogo.CONCEPT_DIRS →
  run cid w =
  match mkdir (path_join base_dir dir) w with
  | (Ok _, w1) =>
      for_each (py_range 1 (variations + 1)) (turn c (path_join base_dir dir)) 0
        (push w1 (GenerateLogo.banner cid (GenerateLogo.name c)
                    (path_join base_dir dir) variations))
  | (Raise e, w1) => (Raise e, w1)
  end.
Proof.
  intros Hc Hdir. destruct (concept_known cid c dir Hc Hdir) as [Hcid Huniq].
  destruct (run_concept_run cid w Hcid) as (c' & dir' & Hc' & Hdir' & ->).
  by destruct (Huniq c' dir' Hc' Hdir') as [-> ->].
Qed.

(** Any other concept number ends the call with [KeyError]. *)
Lemma run_concept_unknown cid w :
  ¬ (1 ≤ cid ≤ 4) → run cid w = (Raise KeyError, w).
Proof.
  intros Hcid. unfold GenerateLogo.run_concept, bind, GenerateLogo.lookup_int.
  cbn [List.find fst snd GenerateLogo.CONCEPT_PROMPTS].
  assert ((1 =? cid) = false) as -> by lia.
  assert ((2 =? cid) = false) as -> by lia.
  assert ((3 =? cid) = false) as -> by lia.
  assert ((4 =? cid) = false) as -> by lia.
  done.
Qed.
End LogoRun.
(** * Running again *)

Section LogoLoopFacts.
Variables (api_key : string) (c : GenerateLogo.concept) (output_dir : path).
Variables (variations : Z) (quality size : string).

Local Abbreviation turn E :=
  (GenerateLogo.run_variation E api_key c output_dir variations quality size).
Local Abbreviation target i := (output_dir ++ [GenerateLogo.filename_of i]).

(** A loop that counted every one of its turns left a file at every
    target. *)
Lemma loop_all_written E items count w count' w' :
  for_each items (turn E) count w = (Ok count', w') →
  count' = count + Z.of_nat (length items) →
  ∀ i, i ∈ items → is_Some (fs w' !! target i).
Proof.
  revert count w. induction items as [|x rest IH]; intros count w Hrun Hall i Hi.
  { by apply elem_of_nil in Hi. }
  simpl in Hrun. unfold bind in Hrun.
  destruct (turn E count x w) as [[count1|e] w1] eqn:Hturn; [|done].
  pose proof (turn_counts E api_key c output_dir variations quality size _ _ _ _ _ Hturn)
    as Hstep.
  pose proof (for_each_count rest (turn E) count1 w1 count' w'
                (turn_counts E api_key c output_dir variations quality size) Hrun)
    as Hrest.
  simpl in Hall.
  assert (count1 = count + 1) as -> by lia.
  apply elem_of_cons in Hi as [-> | Hi].
  - apply (turn_written E api_key c output_dir variations quality size) in Hturn.
    pose proof (respects_for_each fs_grows rest (turn E) (count + 1)
                  (λ s y, turn_fs_grows E api_key c output_dir variations quality size s y)
                  w1) as Hgrows.
    rewrite Hrun in Hgrows. by apply Hgrows.
  - eapply IH; [exact Hrun | lia | done].
Qed.

(** A loop all of whose targets are there only prints. *)
Lemma loop_all_skip E items count w :
  (∀ i, i ∈ items → is_Some (fs w !! target i)) →
  for_each items (turn E) count w =
  (Ok (count + Z.of_nat (length items)),
   push w (GenerateLogo.skipping_line variations <$> items)).
Proof.
  revert count w. induction items as [|x rest IH]; intros count w Hall.
  { simpl. unfold ret, push. by rewrite Z.add_0_r, app_nil_r, world_eta. }
  cbn [for_each]. unfold bind. rewrite turn_skip by (apply Hall; left).
  rewrite IH.
  - rewrite push_push. f_equal. f_equal. simpl length. lia.
  - intros i Hi. simpl. apply Hall. by right.
Qed.
End LogoLoopFacts.

Section Rerun.
Variables E E' : environment.
Variable prompt_text : Z → string.
Variables (api_key : string) (concept_id variations : Z) (quality size : string).
Variable base_dir : path.

(** C5.  When a run of [run_concept] counted every variation as
    succeeded, a second run with the same arguments on the files it
    left, whatever the network now answers, counts the same number,
    leaves the files as they are and sends no request. *)
Theorem rerun_sends_nothing w w1 t :
  GenerateLogo.run_concept E prompt_text api_key concept_id variations quality size
    base_dir w = (Ok variations, w1) →
  ∃ w2,
    GenerateLogo.run_concept E' prompt_text api_key concept_id variations quality size
      base_dir (mkWorld (fs w1) t) = (Ok variations, w2) ∧
    fs w2 = fs w1 ∧
    requests (trace w2) = requests t.
Proof.
  intros Hfirst.
  destruct (decide (1 ≤ concept_id ≤ 4)) as [Hcid|Hcid];
    [|by rewrite run_concept_unknown in Hfirst].
  destruct (run_concept_run E prompt_text api_key variations quality size base_dir
              concept_id w Hcid) as (c & dir & Hc & Hdir & Hrun).
  destruct (run_concept_run E' prompt_text api_key variations quality size base_dir
              concept_id (mkWorld (fs w1) t) Hcid) as (c' & dir' & Hc' & Hdir' & Hrun').
  assert (c' = c ∧ dir' = dir) as [-> ->].
  { clear -Hc Hc' Hdir Hdir'. simpl in *.
    repeat match goal with H : _ ∨ _ |- _ => destruct H end;
      simplify_eq; done. }
  rewrite Hrun in Hfirst. rewrite Hrun'. clear Hrun Hrun'.
  set (output_dir := path_join base_dir dir) in *.
  unfold mkdir in Hfirst at 1.
  destruct (mkdir_walk [] output_dir (fs w)) as [m|e] eqn:Hwalk; [|done].
  set (w0 := push (mkWorld m (trace w)) _) in Hfirst.
  assert (dirs_to (fs w0) output_dir) as Hdirs by (by eapply mkdir_walk_dirs_to).
  pose proof (for_each_count _ _ _ _ _ _
                (turn_counts E api_key c output_dir variations quality size) Hfirst)
    as Hbound.
  rewrite length_py_range in Hbound.
  pose proof (loop_all_written api_key c output_dir variations quality size E
                _ _ _ _ _ Hfirst) as Hall.
  rewrite length_py_range in Hall. specialize (Hall ltac:(lia)).
  pose proof (respects_for_each fs_grows (py_range 1 (variations + 1))
                (GenerateLogo.run_variation E api_key c output_dir variations quality size)
                0 (λ s y, turn_fs_grows E api_key c output_dir variations quality size s y)
                w0) as Hgrows.
  rewrite Hfirst in Hgrows. simpl in Hgrows.
  rewrite mkdir_idem by (simpl; by eapply dirs_to_mono).
  rewrite loop_all_skip by done.
  rewrite length_py_range, push_push.
  eexists. split; [f_equal; f_equal; lia|]. split; [done|].
  cbn [trace push]. rewrite requests_app.
  match goal with |- _ ++ requests ?l = _ => rewrite (requests_prints l) end;
    [by rewrite app_nil_r|].
  rewrite forallb_app. apply andb_true_iff. split; [done|].
  apply forallb_forall. intros e [i [<- _]]%in_map_iff. done.
Qed.
End Rerun.
(** * The loop of generate_round3.py *)

Section Round3Loop.
Variable E : environment.
Variable prompt_text : string → string.
Variables (api_key : string) (output_dir : path) (total : Z).

Local Abbreviation turn :=
  (GenerateRound3.run_key E prompt_text api_key output_dir total).
Local Abbreviation target key :=
  (path_join output_dir (GenerateRound3.filename_of key)).

(** A turn whose file is there already. *)
Lemma key_skip success i key w :
  present (fs w) (target key) = true →
  turn success (i, key) w =
  (Ok (success + 1), push w [GenerateRound3.skipping_line total i key]).
Proof.
  intros Hthere. unfold GenerateRound3.run_key, bind, path_exists. by rewrite Hthere.
Qed.

(** A turn whose file is missing. *)
Lemma key_generate success i key w :
  present (fs w) (target key) = false →
  turn success (i, key) w =
  let w0 := push w (GenerateRound3.generating_lines total i key) in
  match GenerateRound3.lookup_str key (GenerateRound3.PROMPTS prompt_text) w0 with
  | (Ok prompt, _) =>
      match GenerateRound3.generate_image E api_key prompt "1024x1024" "high" w0 with
      | (Ok image_bytes, w1) =>
          match truthy image_bytes with
          | Some data =>
              match persist E data (target key) w1 with
              | (Ok _, w2) => (Ok (success + 1), push w2 (GenerateRound3.pause total i))
              | (Raise e, w2) => (Raise e, w2)
              end
          | None =>
              (Ok success,
               push w1 (GenerateRound3.failed_line key :: GenerateRound3.pause total i))
          end
      | (Raise e, w1) => (Raise e, w1)
      end
  | (Raise e, _) => (Raise e, w0)
  end.
Proof.
  intros Hmissing. unfold GenerateRound3.run_key, bind, path_exists. rewrite Hmissing.
  unfold print, sleep, emit, ret, GenerateRound3.pause. rewrite !push_push. cbn [app].
  fold (GenerateRound3.generating_lines total i key). cbn zeta.
  unfold GenerateRound3.lookup_str.
  destruct (List.find _ _) as [kv|]; [|done]. unfold ret.
  destruct (GenerateRound3.generate_image _ _ _ _ _ _) as [[image_bytes|e] w1]; [|done].
  destruct (truthy image_bytes) as [data|].
  - destruct (persist _ _ _ _) as [[[]|e] w2]; [|done].
    destruct (i <? total); [done|]. unfold push. by rewrite app_nil_r, world_eta.
  - fold (GenerateRound3.failed_line key). destruct (i <? total); by rewrite ?push_push.
Qed.

Lemma key_counts success entry w success' w' :
  turn success entry w = (Ok success', w') → success ≤ success' ≤ success + 1.
Proof.
  destruct entry as [i key].
  destruct (present (fs w) (target key)) eqn:Hlook.
  - rewrite key_skip by done. intros [= <- _]. lia.
  - rewrite key_generate by done. cbn zeta.
    destruct (GenerateRound3.lookup_str _ _ _) as [[prompt|e] w0]; [|done].
    destruct (GenerateRound3.generate_image _ _ _ _ _ _) as [[image_bytes|e] w1]; [|done].
    destruct (truthy image_bytes) as [data|].
    + destruct (persist _ _ _ _) as [[[]|e] w2]; [|done].
      intros [= <- _]. lia.
    + intros [= <- _]. lia.
Qed.

End Round3Loop.

Section Round3Skips.
Variable prompt_text : string → string.
Variables (api_key : string) (output_dir : path) (total : Z).

Local Abbreviation turn E :=
  (GenerateRound3.run_key E prompt_text api_key output_dir total).
Local Abbreviation target key :=
  (path_join output_dir (GenerateRound3.filename_of key)).

(** A loop all of whose targets are there only prints. *)
Lemma keys_all_skip E entries success w :
  (∀ entry, entry ∈ entries → present (fs w) (target (snd entry)) = true) →
  for_each entries (turn E) success w =
  (Ok (success + Z.of_nat (length entries)),
   push w ((λ entry, GenerateRound3.skipping_line total (fst entry) (snd entry))
             <$> entries)).
Proof.
  revert success w. induction entries as [|[i key] rest IH]; intros success w Hall.
  { simpl. unfold ret, push. by rewrite Z.add_0_r, app_nil_r, world_eta. }
  cbn [for_each]. unfold bind.
  rewrite key_skip by (apply (Hall (i, key)); left).
  rewrite IH.
  - rewrite push_push. f_equal. f_equal. simpl length. lia.
  - intros entry Hin. simpl. apply Hall. by right.
Qed.
End Round3Skips.
(** * Resuming a run *)

Section LogoInline.
Variable E : environment.
Variables (api_key : string) (c : GenerateLogo.concept) (output_dir : path).
Variables (variations : Z) (quality size : string).

Local Abbreviation turn :=
  (GenerateLogo.run_variation E api_key c output_dir variations quality size).
Local Abbreviation target i := (output_dir ++ [GenerateLogo.filename_of i]).
Local Abbreviation prompt_of i :=
  (GenerateLogo.prompt c +:+ GenerateLogo.variation_suffix i).

(** A turn whose request is answered with an inline image that opens:
    one request, one file, one more success. *)
Lemma turn_inline count i w r data dims :
  fs w !! target i = None →
  dirs_to (fs w) output_dir →
  net E (calls w) (POST API_URL (auth_headers api_key)
                     (primary_payload MODEL (prompt_of i) size quality) (120 # 1))
    = Responded r →
  carries_inline E r data →
  data ≠ [] →
  image_open E data = Some dims →
  turn count i w =
  (Ok (count + 1),
   mkWorld (<[target i := File data]> (fs w))
     (trace w ++ [GenerateLogo.generating_line variations i;
                  GenerateLogo.calling_line size quality;
                  GenerateLogo.first_request api_key (prompt_of i) size quality;
                  saved_line (target i) dims]
              ++ GenerateLogo.pause variations i)).
Proof.
  intros Hmissing Hdirs Hnet (Hok & kvs & fields & rest & payload & Hjson & Hdata & Hb64 & Hdec)
    Hdata_ne Hopen.
  rewrite turn_generate by done. unfold GenerateLogo.generate_image.
  rewrite (generate_inline E MODEL FALLBACK_MODEL (120 # 1) _ _ api_key (prompt_of i) size
             quality _ r kvs fields rest payload data); try done.
  2:{ rewrite calls_push. cbn [requests omap length]. by rewrite Nat.add_0_r. }
  assert (truthy (Some data) = Some data) as -> by (by destruct data).
  unfold GenerateLogo.save_image.
  rewrite (persist_run E data (target i) _ (fs w)).
  - rewrite Hopen. unfold push. cbn [fs trace]. f_equal. f_equal.
    rewrite <-!app_assoc. reflexivity.
  - by destruct output_dir.
  - cbn [fs push]. by rewrite Hmissing.
  - cbn [fs push]. rewrite parent_app_part. by apply mkdir_walk_idem.
Qed.
End LogoInline.

Lemma insert_file_fs_le (m : gmap path node) p data :
  m !! p ≠ Some Dir → fs_le m (<[p := File data]> m).
Proof.
  intros Hp q. destruct (decide (q = p)) as [->|Hne].
  - rewrite lookup_insert_eq. split; [eauto|done].
  - by rewrite lookup_insert_ne.
Qed.

Section Resume.
Variable E : environment.
Variable prompt_text : Z → string.
Variables (api_key quality size : string) (base_dir : path).

(** Three variations asked for, the first one already on disk, the
    two requests answered with inline images that open. *)
Lemma resume_three cid c dir w r2 r3 d2 d3 dims2 dims3 :
  let output_dir := path_join base_dir dir in
  let request i :=
    GenerateLogo.primary_request api_key
      (GenerateLogo.prompt c +:+ GenerateLogo.variation_suffix i) size quality in
  List.In (cid, c) (GenerateLogo.CONCEPT_PROMPTS prompt_text) →
  List.In (cid, dir) GenerateLogo.CONCEPT_DIRS →
  dirs_to (fs w) output_dir →
  is_Some (fs w !! (output_dir ++ ["v01.png"])) →
  fs w !! (output_dir ++ ["v02.png"]) = None →
  fs w !! (output_dir ++ ["v03.png"]) = None →
  net E (calls w) (request 2) = Responded r2 →
  carries_inline E r2 d2 → d2 ≠ [] → image_open E d2 = Some dims2 →
  net E (S (calls w)) (request 3) = Responded r3 →
  carries_inline E r3 d3 → d3 ≠ [] → image_open E d3 = Some dims3 →
  ∃ w',
    GenerateLogo.run_concept E prompt_text api_key cid 3 quality size base_dir w
      = (Ok 3, w') ∧
    requests (trace w') = requests (trace w) ++ [request 2; request 3] ∧
    fs w' = <[output_dir ++ ["v03.png"] := File d3]>
              (<[output_dir ++ ["v02.png"] := File d2]> (fs w)).
Proof.
  intros output_dir request Hc Hdir Hdirs H1 H2 H3 Hnet2 Hin2 Hne2 Hopen2
    Hnet3 Hin3 Hne3 Hopen3.
  rewrite (run_concept_known E prompt_text api_key 3 quality size base_dir cid c dir)
    by done.
  fold output_dir. rewrite mkdir_idem by done.
  change (py_range 1 (3 + 1)) with [1; 2; 3].
  cbn [for_each]. unfold bind.
  set (banner := GenerateLogo.banner cid (GenerateLogo.name c) output_dir 3).
  assert (requests banner = []) as Hbanner by done.
  rewrite turn_skip by done. rewrite push_push.
  set (w1 := push w _).
  assert (requests (trace w1) = requests (trace w)) as Hreq1.
  { unfold w1, push. cbn [trace]. rewrite !requests_app, Hbanner. simpl.
    by rewrite app_nil_r. }
  rewrite (turn_inline E api_key c output_dir 3 quality size _ 2 w1 r2 d2 dims2);
    try done.
  2:{ unfold calls. by rewrite Hreq1. }
  set (w2 := mkWorld _ _).
  assert (requests (trace w2) = requests (trace w) ++ [request 2]) as Hreq2.
  { unfold w2. cbn [trace]. rewrite !requests_app, Hreq1. reflexivity. }
  assert (fs w2 !! (output_dir ++ ["v03.png"]) = None) as H3'.
  { unfold w2. cbn [fs]. rewrite lookup_insert_ne; [done|].
    intros Heq%(inj (app output_dir)). done. }
  rewrite (turn_inline E api_key c output_dir 3 quality size _ 3 w2 r3 d3 dims3);
    try done.
  - eexists. split; [reflexivity|]. cbn [trace fs]. split; [|done].
    rewrite !requests_app, Hreq2. simpl. by rewrite ?app_nil_r, <-?app_assoc.
  - unfold w2. cbn [fs]. eapply dirs_to_mono; [|exact Hdirs].
    apply insert_file_fs_le. change (GenerateLogo.filename_of 2) with "v02.png".
    unfold w1. cbn [fs push]. by rewrite H2.
  - unfold calls. rewrite Hreq2, length_app. simpl.
    replace (length (requests (trace w)) + 1)%nat with (S (calls w))
      by (unfold calls; lia).
    done.
Qed.
End Resume.

Section MainOfLogo.
Variable E : environment.
Variable prompt_text : Z → string.

(** [main] when one concept is asked for and the credential is set. *)
Lemma main_single cid variations quality size api_key base_dir w :
  cid ≠ 0 → api_key ≠ "" →
  GenerateLogo.main E prompt_text
    (GenerateLogo.mkArgs (Some cid) false variations quality size false)
    (Some api_key) base_dir w =
  match GenerateLogo.run_concept E prompt_text api_key cid variations quality size
          base_dir w with
  | (Ok count, w') =>
      (Ok (Some (count, variations)), push w' (GenerateLogo.done_lines count variations))
  | (Raise e, w') => (Raise e, w')
  end.
Proof.
  intros Hcid Hkey. unfold GenerateLogo.main, GenerateLogo.chosen.
  cbn [GenerateLogo.arg_list GenerateLogo.arg_concept GenerateLogo.arg_all
       GenerateLogo.arg_variations GenerateLogo.arg_quality GenerateLogo.arg_size].
  assert (credential (Some api_key) = Some api_key) as -> by (by destruct api_key).
  assert (match cid with 0 => None | _ => Some cid end = Some cid) as Hchosen
    by (by destruct cid).
  unfold GenerateLogo.concepts_to_run.
  cbn [GenerateLogo.arg_all GenerateLogo.arg_concept for_each].
  unfold GenerateLogo.run_all.
  cbn [GenerateLogo.arg_variations GenerateLogo.arg_quality GenerateLogo.arg_size fst snd].
  unfold bind, print, emit, ret.
  destruct cid as [|p|p]; [done|..];
    (destruct (GenerateLogo.run_concept _ _ _ _ _ _ _ _ _) as [[count|e] w']; [|done]);
    by rewrite !push_push, ?Z.add_0_l.
Qed.
End MainOfLogo.

(** C4.  A variation whose file is already there is counted as
    succeeded without any request, in the loop of either script; and
    with three variations asked for and [v01.png] on disk, when the two
    requests made for [v02.png] and [v03.png] are answered with images,
    these are the only two requests of the run and its last lines
    report 3/3. *)
Theorem existing_file_is_skipped :
  (∀ E api_key c output_dir variations quality size count i w,
     is_Some (fs w !! (output_dir ++ [GenerateLogo.filename_of i])) →
     GenerateLogo.run_variation E api_key c output_dir variations quality size count i w
       = (Ok (count + 1), push w [GenerateLogo.skipping_line variations i])) ∧
  (∀ E prompt_text api_key output_dir total success i key w,
     present (fs w) (path_join output_dir (GenerateRound3.filename_of key)) = true →
     GenerateRound3.run_key E prompt_text api_key output_dir total success (i, key) w
       = (Ok (success + 1), push w [GenerateRound3.skipping_line total i key])) ∧
  (∀ E prompt_text api_key quality size base_dir cid c dir w r2 r3 d2 d3 dims2 dims3,
     let output_dir := path_join base_dir dir in
     let request i :=
       GenerateLogo.primary_request api_key
         (GenerateLogo.prompt c +:+ GenerateLogo.variation_suffix i) size quality in
     api_key ≠ "" →
     List.In (cid, c) (GenerateLogo.CONCEPT_PROMPTS prompt_text) →
     List.In (cid, dir) GenerateLogo.CONCEPT_DIRS →
     dirs_to (fs w) output_dir →
     is_Some (fs w !! (output_dir ++ ["v01.png"])) →
     fs w !! (output_dir ++ ["v02.png"]) = None →
     fs w !! (output_dir ++ ["v03.png"]) = None →
     net E (calls w) (request 2) = Responded r2 →
     carries_inline E r2 d2 → d2 ≠ [] → image_open E d2 = Some dims2 →
     net E (S (calls w)) (request 3) = Responded r3 →
     carries_inline E r3 d3 → d3 ≠ [] → image_open E d3 = Some dims3 →
     ∃ w',
       GenerateLogo.main E prompt_text
         (GenerateLogo.mkArgs (Some cid) false 3 quality size false) (Some api_key)
         base_dir w
       = (Ok (Some (3, 3)),
          push w' [EPrint (nl +:+ str_repeat 60 "=");
                   EPrint "DONE: 3/3 images generated successfully";
                   EPrint (str_repeat 60 "=")]) ∧
       requests (trace w') = requests (trace w) ++ [request 2; request 3] ∧
       fs w' = <[output_dir ++ ["v03.png"] := File d3]>
                 (<[output_dir ++ ["v02.png"] := File d2]> (fs w))).
Proof.
  split; [|split].
  - intros. by apply turn_skip.
  - intros. by apply key_skip.
  - intros E prompt_text api_key quality size base_dir cid c dir w r2 r3 d2 d3 dims2 dims3
      output_dir request Hkey Hc Hdir Hdirs H1 H2 H3 Hnet2 Hin2 Hne2 Hopen2
      Hnet3 Hin3 Hne3 Hopen3.
    destruct (resume_three E prompt_text api_key quality size base_dir cid c dir w
                r2 r3 d2 d3 dims2 dims3 Hc Hdir Hdirs H1 H2 H3 Hnet2 Hin2 Hne2 Hopen2
                Hnet3 Hin3 Hne3 Hopen3) as (w' & Hrun & Hreq & Hfs).
    exists w'. split; [|done].
    rewrite main_single; [by rewrite Hrun|..|done].
    destruct (concept_known prompt_text cid c dir Hc Hdir) as [? _]. lia.
Qed.
(** * The success counter *)

Lemma for_each_split {A} (done todo : list A) (body : Z → A → M Z) s w n w' :
  (∀ s x w s' w', body s x w = (Ok s', w') → s ≤ s' ≤ s + 1) →
  for_each (done ++ todo) body s w = (Ok n, w') →
  ∃ m w1, for_each done body s w = (Ok m, w1) ∧
          s ≤ m ≤ s + Z.of_nat (length done) ∧
          m ≤ n ≤ m + Z.of_nat (length todo).
Proof.
  intros Hbody. rewrite for_each_app.
  destruct (for_each done body s w) as [[m|e] w1] eqn:Hdone; [|done].
  intros Htodo. exists m, w1. split; [done|].
  split; by eapply for_each_count.
Qed.

Lemma length_enumerate1 {A} (items : list A) :
  length (GenerateRound3.enumerate1 items) = length items.
Proof.
  unfold GenerateRound3.enumerate1. rewrite length_combine, length_seqZ. lia.
Qed.

Section Counting.
Variable E : environment.

Lemma turn_cases api_key c output_dir variations quality size count i w
    count' w' :
  GenerateLogo.run_variation E api_key c output_dir variations quality size count i w
    = (Ok count', w') →
  let target := output_dir ++ [GenerateLogo.filename_of i] in
  (is_Some (fs w !! target) ∧ count' = count + 1 ∧ fs w' = fs w) ∨
  (fs w !! target = None ∧ count' = count + 1 ∧
     ∃ data, data ≠ [] ∧ fs w' !! target = Some (File data)) ∨
  (fs w !! target = None ∧ count' = count ∧ fs w' = fs w).
Proof.
  intros Hturn target.
  destruct (fs w !! target) as [n|] eqn:Hlook.
  - left. rewrite turn_skip in Hturn by (fold target; eauto).
    injection Hturn as <- <-. eauto.
  - right. rewrite turn_generate in Hturn by done.
    pose proof (generate_same_fs E MODEL FALLBACK_MODEL (120 # 1)
                  "  Trying fallback model: " "  Fallback also failed (" api_key
                  (GenerateLogo.prompt c +:+ GenerateLogo.variation_suffix i) size quality
                  (push w [GenerateLogo.generating_line variations i])) as Hsame.
    unfold GenerateLogo.generate_image in Hturn.
    destruct (generate_image_with _ _ _ _ _ _ _ _ _ _ _) as [[image_bytes|e] w1];
      [|done]. unfold same_fs in Hsame. cbn [snd fs push] in Hsame.
    destruct (truthy image_bytes) as [data|] eqn:Htruthy.
    + destruct (GenerateLogo.save_image _ _ _ _) as [[[]|e] w2] eqn:Hsave; [|done].
      injection Hturn as <- <-. left. split; [done|]. split; [done|].
      exists data. split.
      * destruct image_bytes as [[|b rest]|]; simplify_eq/=; done.
      * cbn [fs push]. by apply persist_ok_written in Hsave.
    + injection Hturn as <- <-. right. done.
Qed.

Lemma key_cases prompt_text api_key output_dir total success i key w success' w' :
  GenerateRound3.run_key E prompt_text api_key output_dir total success (i, key) w
    = (Ok success', w') →
  let target := path_join output_dir (GenerateRound3.filename_of key) in
  (present (fs w) target = true ∧ success' = success + 1 ∧ fs w' = fs w) ∨
  (present (fs w) target = false ∧ success' = success + 1 ∧
     ∃ data, data ≠ [] ∧ fs w' !! target = Some (File data)) ∨
  (present (fs w) target = false ∧ success' = success ∧ fs w' = fs w).
Proof.
  intros Hturn target.
  destruct (present (fs w) target) eqn:Hlook.
  - left. rewrite key_skip in Hturn by done. injection Hturn as <- <-. eauto.
  - right. rewrite key_generate in Hturn by done. cbn zeta in Hturn.
    destruct (GenerateRound3.lookup_str _ _ _) as [[prompt|e] w0]; [|done].
    pose proof (generate_same_fs E MODEL FALLBACK_MODEL (180 # 1)
                  "  Trying fallback: " "  Fallback failed (" api_key
                  prompt "1024x1024" "high"
                  (push w (GenerateRound3.generating_lines total i key))) as Hsame.
    unfold GenerateRound3.generate_image in Hturn.
    destruct (generate_image_with _ _ _ _ _ _ _ _ _ _ _) as [[image_bytes|e] w1];
      [|done]. unfold same_fs in Hsame. cbn [snd fs push] in Hsame.
    destruct (truthy image_bytes) as [data|] eqn:Htruthy.
    + destruct (persist _ _ _ _) as [[[]|e] w2] eqn:Hsave; [|done].
      injection Hturn as <- <-. left. split; [done|]. split; [done|].
      exists data. split.
      * destruct image_bytes as [[|b rest]|]; simplify_eq/=; done.
      * cbn [fs push]. by apply persist_ok_written in Hsave.
    + injection Hturn as <- <-. right. done.
Qed.

(** [main] of generate_round3.py with the credential set. *)
Lemma round3_main_run prompt_text argv api_key script_dir w :
  api_key ≠ "" →
  GenerateRound3.main E prompt_text argv (Some api_key) script_dir w =
  let output_dir := GenerateRound3.OUTPUT_DIR script_dir in
  let keys := GenerateRound3.keys_to_run argv in
  let total := Z.of_nat (length keys) in
  match mkdir output_dir w with
  | (Ok _, w1) =>
      match for_each (GenerateRound3.enumerate1 keys)
              (GenerateRound3.run_key E prompt_text api_key output_dir total) 0 w1 with
      | (Ok success, w2) =>
          (Ok (success, total), push w2 (GenerateRound3.done_lines success total output_dir))
      | (Raise e, w2) => (Raise e, w2)
      end
  | (Raise e, w1) => (Raise e, w1)
  end.
Proof.
  intros Hkey. unfold GenerateRound3.main.
  assert (credential (Some api_key) = Some api_key) as -> by (by destruct api_key).
  cbn zeta. unfold bind.
  destruct (mkdir _ w) as [[[]|e] w1]; [|done].
  destruct (for_each _ _ _ _) as [[success|e] w2]; [|done].
  unfold print, emit, ret. by rewrite !push_push.
Qed.
End Counting.

(** C9.  In both scripts the success counter starts at zero and a turn
    of the loop, when it returns, leaves it as it was or adds one to
    it: one for a file found (nothing is written then), or one for a
    file generated and written, or nothing when no image came back.
    So the counter never goes down, after any number of turns it is at
    most that number, and what [run_concept] and [main] return is at
    most the number of variations, or of keys, that were asked for. *)
Theorem success_count_invariant :
  (∀ E api_key c output_dir variations quality size count i w count' w',
     GenerateLogo.run_variation E api_key c output_dir variations quality size count i w
       = (Ok count', w') →
     let target := output_dir ++ [GenerateLogo.filename_of i] in
     (is_Some (fs w !! target) ∧ count' = count + 1 ∧ fs w' = fs w) ∨
     (fs w !! target = None ∧ count' = count + 1 ∧
        ∃ data, data ≠ [] ∧ fs w' !! target = Some (File data)) ∨
     (fs w !! target = None ∧ count' = count ∧ fs w' = fs w)) ∧
  (∀ E prompt_text api_key output_dir total success i key w success' w',
     GenerateRound3.run_key E prompt_text api_key output_dir total success (i, key) w
       = (Ok success', w') →
     let target := path_join output_dir (GenerateRound3.filename_of key) in
     (present (fs w) target = true ∧ success' = success + 1 ∧ fs w' = fs w) ∨
     (present (fs w) target = false ∧ success' = success + 1 ∧
        ∃ data, data ≠ [] ∧ fs w' !! target = Some (File data)) ∨
     (present (fs w) target = false ∧ success' = success ∧ fs w' = fs w)) ∧
  (∀ E api_key c output_dir variations quality size done todo w n w',
     for_each (done ++ todo)
       (GenerateLogo.run_variation E api_key c output_dir variations quality size) 0 w
       = (Ok n, w') →
     ∃ m w1,
       for_each done
         (GenerateLogo.run_variation E api_key c output_dir variations quality size) 0 w
         = (Ok m, w1) ∧
       0 ≤ m ≤ Z.of_nat (length done) ∧ m ≤ n ≤ m + Z.of_nat (length todo)) ∧
  (∀ E prompt_text api_key output_dir total done todo w n w',
     for_each (done ++ todo)
       (GenerateRound3.run_key E prompt_text api_key output_dir total) 0 w = (Ok n, w') →
     ∃ m w1,
       for_each done
         (GenerateRound3.run_key E prompt_text api_key output_dir total) 0 w = (Ok m, w1) ∧
       0 ≤ m ≤ Z.of_nat (length done) ∧ m ≤ n ≤ m + Z.of_nat (length todo)) ∧
  (∀ E prompt_text api_key concept_id variations quality size base_dir w n w',
     GenerateLogo.run_concept E prompt_text api_key concept_id variations quality size
       base_dir w = (Ok n, w') →
     0 ≤ n ≤ Z.max 0 variations) ∧
  (∀ E prompt_text argv key script_dir w success total w',
     GenerateRound3.main E prompt_text argv key script_dir w = (Ok (success, total), w') →
     total = Z.of_nat (length (GenerateRound3.keys_to_run argv)) ∧ 0 ≤ success ≤ total).
Proof.
  repeat split.
  - intros. by eapply turn_cases.
  - intros. by eapply key_cases.
  - intros E api_key c output_dir variations quality size done todo w n w' Hrun.
    eapply for_each_split in Hrun as (m & w1 & ? & ? & ?);
      [|apply turn_counts]. exists m, w1. split; [done|]. lia.
  - intros E prompt_text api_key output_dir total done todo w n w' Hrun.
    eapply for_each_split in Hrun as (m & w1 & ? & ? & ?);
      [|apply key_counts]. exists m, w1. split; [done|]. lia.
  - destruct (decide (1 ≤ concept_id ≤ 4)) as [Hcid|Hcid];
      [|by rewrite run_concept_unknown in H].
    destruct (run_concept_run E prompt_text api_key variations quality size base_dir
                concept_id w Hcid) as (c & dir & _ & _ & Hrun).
    rewrite Hrun in H. destruct (mkdir _ w) as [[[]|e] w1]; [|done].
    apply for_each_count in H; [|apply turn_counts]. lia.
  - destruct (decide (1 ≤ concept_id ≤ 4)) as [Hcid|Hcid];
      [|by rewrite run_concept_unknown in H].
    destruct (run_concept_run E prompt_text api_key variations quality size base_dir
                concept_id w Hcid) as (c & dir & _ & _ & Hrun).
    rewrite Hrun in H. destruct (mkdir _ w) as [[[]|e] w1]; [|done].
    apply for_each_count in H; [|apply turn_counts].
    rewrite length_py_range in H. lia.
  - destruct (credential key) as [api_key|] eqn:Hkey.
    + assert (key = Some api_key ∧ api_key ≠ "") as [-> Hne]
        by (destruct key as [[|a k]|]; simplify_eq/=; done).
      rewrite round3_main_run in H by done. cbn zeta in H.
      destruct (mkdir _ w) as [[[]|e] w1]; [|done].
      destruct (for_each _ _ _ _) as [[n|e] w2]; [|done]. by injection H as _ <- _.
    + unfold GenerateRound3.main in H. by rewrite Hkey in H.
  - destruct (credential key) as [api_key|] eqn:Hkey.
    + assert (key = Some api_key ∧ api_key ≠ "") as [-> Hne]
        by (destruct key as [[|a k]|]; simplify_eq/=; done).
      rewrite round3_main_run in H by done. cbn zeta in H.
      destruct (mkdir _ w) as [[[]|e] w1]; [|done].
      destruct (for_each _ _ _ _) as [[n|e] w2] eqn:Hloop; [|done].
      injection H as <- _ _.
      apply for_each_count in Hloop; [|apply key_counts]. lia.
    + unfold GenerateRound3.main in H. by rewrite Hkey in H.
  - destruct (credential key) as [api_key|] eqn:Hkey.
    + assert (key = Some api_key ∧ api_key ≠ "") as [-> Hne]
        by (destruct key as [[|a k]|]; simplify_eq/=; done).
      rewrite round3_main_run in H by done. cbn zeta in H.
      destruct (mkdir _ w) as [[[]|e] w1]; [|done].
      destruct (for_each _ _ _ _) as [[n|e] w2] eqn:Hloop; [|done].
      injection H as <- <- _.
      apply for_each_count in Hloop; [|apply key_counts].
      rewrite length_enumerate1 in Hloop. lia.
    + unfold GenerateRound3.main in H. by rewrite Hkey in H.
Qed.
(** * Pacing *)

Lemma paced_seen d seen t : paced d seen t → paced d true t.
Proof.
  revert seen. induction t as [|e t IH]; intros seen; [done|].
  destruct e; simpl; eauto. intros (_ & ? & ?). eauto.
Qed.

Lemma paced_app d seen t1 t2 :
  paced d seen t1 → paced d (seen || existsb is_send t1) t2 → paced d seen (t1 ++ t2).
Proof.
  revert seen. induction t1 as [|e t1 IH]; intros seen; simpl.
  - by rewrite orb_false_r.
  - destruct e; simpl; rewrite ?orb_false_l; try apply IH.
    + intros H1 H2. rewrite orb_true_r in H2. apply IH; [done|]. by rewrite orb_true_l.
    + intros (? & ? & H1) H2. repeat split; try done. by apply IH.
Qed.


Global Instance pacing_preorder d : PreOrder (pacing d).
Proof.
  split.
  - intros w. exists []. by rewrite app_nil_r.
  - intros w1 w2 w3 (t1 & H1 & P1) (t2 & H2 & P2). exists (t1 ++ t2). split.
    + by rewrite H2, H1, app_assoc.
    + apply paced_app; [done|]. destruct (existsb is_send t1); [|done].
      by eapply paced_seen.
Qed.



Section PacingLogo.
Variable E : environment.
Variable prompt_text : Z → string.



End PacingLogo.

Section PacingRound3.
Variable E : environment.
Variable prompt_text : string → string.


End PacingRound3.

(** ** Between two turns of one loop *)




Section BetweenLogo.
Variable E : environment.
Variables (api_key : string) (c : GenerateLogo.concept) (output_dir : path).
Variables (variations : Z) (quality size : string).

Local Abbreviation turn :=
  (GenerateLogo.run_variation E api_key c output_dir variations quality size).
Local Abbreviation target i := (output_dir ++ [GenerateLogo.filename_of i]).
Local Abbreviation announced i :=
  [GenerateLogo.generating_line variations i;
   GenerateLogo.calling_line size quality;
   GenerateLogo.first_request api_key
     (GenerateLogo.prompt c +:+ GenerateLogo.variation_suffix i) size quality].


End BetweenLogo.




Section BetweenRound3.
Variable E : environment.
Variable prompt_text : string → string.
Variables (api_key : string) (output_dir : path).

Local Abbreviation target key :=
  (path_join output_dir (GenerateRound3.filename_of key)).
Local Abbreviation announced total i key :=
  (GenerateRound3.generating_lines total i key
   ++ [EPrint "  Calling gpt-image-1 (1024x1024, high)...";
       ESend (POST API_URL (auth_headers api_key)
                (primary_payload MODEL (prompt_text key) "1024x1024" "high") (180 # 1))]).

End BetweenRound3.



(** * Errors of one image *)

Section ErrorsOfATurn.
Variable E : environment.
Variables (api_key : string) (c : GenerateLogo.concept) (output_dir : path).
Variables (variations : Z) (quality size : string).

Local Abbreviation turn :=
  (GenerateLogo.run_variation E api_key c output_dir variations quality size).
Local Abbreviation target i := (output_dir ++ [GenerateLogo.filename_of i]).
Local Abbreviation prompt_of i :=
  (GenerateLogo.prompt c +:+ GenerateLogo.variation_suffix i).
Local Abbreviation first i :=
  (GenerateLogo.primary_request api_key (prompt_of i) size quality).
Local Abbreviation second i :=
  (GenerateLogo.fallback_request api_key (prompt_of i) size quality).







End ErrorsOfATurn.


(** * Variation hints *)

Lemma variation_suffix_first : GenerateLogo.variation_suffix 1 = "".
Proof. reflexivity. Qed.

Lemma variation_suffix_rotates i :
  2 ≤ i →
  GenerateLogo.variation_hints !! Z.to_nat ((i - 2) `mod` 5)
    = Some (GenerateLogo.variation_suffix i).
Proof.
  intros Hi. unfold GenerateLogo.variation_suffix.
  assert ((1 <? i) = true) as -> by lia.
  change (Z.of_nat (length GenerateLogo.variation_hints)) with 5.
  pose proof (Z.mod_pos_bound (i - 2) 5 ltac:(lia)) as Hmod.
  assert (∀ k, (k < 5)%nat →
            GenerateLogo.variation_hints !! k
              = Some (nth k GenerateLogo.variation_hints "")) as Hnth.
  { intros k Hk. do 5 (destruct k as [|k]; [reflexivity|]). lia. }
  apply Hnth. lia.
Qed.

(** C3.  In a turn of [run_concept] that calls the API the prompt of
    the request is the prompt of the concept followed by the suffix of
    the turn: nothing for the first variation, and from the second on
    the hint of the five-element list at index [(i - 2) mod 5], so that
    the seventh variation gets the hint of the second. *)
Theorem variation_hint_rotation E api_key c output_dir variations quality size count i w :
  1 ≤ i →
  fs w !! (output_dir ++ [GenerateLogo.filename_of i]) = None →
  ∃ sent rest,
    trace (snd (GenerateLogo.run_variation E api_key c output_dir variations quality size
                  count i w))
      = trace w ++ [GenerateLogo.generating_line variations i;
                    GenerateLogo.calling_line size quality;
                    ESend (POST API_URL (auth_headers api_key)
                             (primary_payload MODEL sent size quality) (120 # 1))]
                ++ rest ∧
    dict_get "prompt" (primary_payload MODEL sent size quality) = Some (JStr sent) ∧
    (i = 1 → sent = GenerateLogo.prompt c) ∧
    (2 ≤ i →
       ∃ hint, GenerateLogo.variation_hints !! Z.to_nat ((i - 2) `mod` 5) = Some hint ∧
               sent = GenerateLogo.prompt c +:+ hint) ∧
    length GenerateLogo.variation_hints = 5%nat ∧
    GenerateLogo.variation_suffix 7 = GenerateLogo.variation_suffix 2.
Proof.
  intros Hi Hmissing.
  destruct (turn_shape E api_key c output_dir variations quality size count i w Hmissing)
    as (t & _ & Ht).
  exists (GenerateLogo.prompt c +:+ GenerateLogo.variation_suffix i). eexists.
  split; [exact Ht|]. split; [done|]. split; [|split; [|done]].
  - intros ->. by rewrite variation_suffix_first, app_empty_r.
  - intros Hge. exists (GenerateLogo.variation_suffix i).
    split; [by apply variation_suffix_rotates|done].
Qed.
(** * Output paths *)

Lemma app_inv_tail_str (s s' t : string) : s +:+ t = s' +:+ t → s = s'.
Proof.
  revert s'. induction s as [|a s IH]; intros [|a' s'] Heq; [done|..].
  - apply (f_equal String.length) in Heq. rewrite !length_app_str in Heq. simpl in Heq. lia.
  - apply (f_equal String.length) in Heq. rewrite !length_app_str in Heq. simpl in Heq. lia.
  - rewrite !app_cons in Heq. injection Heq as -> Heq. f_equal. by apply IH.
Qed.

(** The string of a path below a directory that is not the root. *)
Lemma path_str_app (p q : path) :
  p ≠ [] → q ≠ [] → last p ≠ Some "/" →
  path_str (p ++ q) = path_str p +:+ "/" +:+ path_str q.
Proof.
  intros Hp Hq. induction p as [|a p IH]; [done|]. intros Hlast.
  destruct p as [|b p].
  - destruct q as [|c q]; [done|]. cbn [app path_str].
    destruct (String.eqb a "/") eqn:Ha; [|done].
    apply String.eqb_eq in Ha. by subst.
  - cbn [app path_str] in *. rewrite IH by done.
    destruct (String.eqb a "/"); by rewrite ?app_assoc_str.
Qed.

Lemma concept_dir_parts base_dir cid dir :
  List.In (cid, dir) GenerateLogo.CONCEPT_DIRS →
  path_join base_dir dir = base_dir ++ path_join [] dir ∧
  path_str (path_join [] dir) = dir ∧
  path_join [] dir ≠ [] ∧
  length (path_join [] dir) = 2%nat.
Proof.
  simpl. intros [H|[H|[H|[H|[]]]]]; injection H as <- <-; done.
Qed.

Lemma concept_dirs_differ cid cid' dir dir' :
  List.In (cid, dir) GenerateLogo.CONCEPT_DIRS →
  List.In (cid', dir') GenerateLogo.CONCEPT_DIRS →
  path_join [] dir = path_join [] dir' → cid = cid'.
Proof.
  simpl. intros [H|[H|[H|[H|[]]]]] [H'|[H'|[H'|[H'|[]]]]];
    injection H as <- <-; injection H' as <- <-; done.
Qed.

Lemma prompt_key_part key :
  key ∈ GenerateRound3.PROMPT_KEYS →
  no_slash (GenerateRound3.filename_of key) = true.
Proof.
  intros Hkey.
  assert (forallb (λ k, no_slash (GenerateRound3.filename_of k))
            GenerateRound3.PROMPT_KEYS = true) as Hall by (vm_compute; reflexivity).
  rewrite forallb_forall in Hall. by apply Hall, list_elem_of_In.
Qed.

Lemma round3_target script_dir key :
  key ∈ GenerateRound3.PROMPT_KEYS →
  path_join (GenerateRound3.OUTPUT_DIR script_dir) (GenerateRound3.filename_of key)
    = script_dir ++ ["concepts"; "round3"; key +:+ ".png"].
Proof.
  intros Hkey. unfold GenerateRound3.OUTPUT_DIR.
  rewrite (path_join_part script_dir "concepts") by done.
  rewrite (path_join_part _ "round3") by done.
  rewrite path_join_part; [by rewrite <-!app_assoc|by apply prompt_key_part|..].
  - unfold GenerateRound3.filename_of. intros Heq%(f_equal String.length).
    rewrite length_app_str in Heq. simpl in Heq. lia.
  - unfold GenerateRound3.filename_of. intros Heq%(f_equal String.length).
    rewrite length_app_str in Heq. simpl in Heq. lia.
Qed.

Lemma logo_target base_dir cid dir i :
  List.In (cid, dir) GenerateLogo.CONCEPT_DIRS →
  path_join (path_join base_dir dir) (GenerateLogo.filename_of i)
    = base_dir ++ path_join [] dir ++ ["v" +:+ format_02d i +:+ ".png"].
Proof.
  intros Hdir. destruct (concept_dir_parts base_dir cid dir Hdir) as (-> & _).
  by rewrite path_join_filename_logo, <-app_assoc.
Qed.

(** C6.  The output path is a function of the concept and the index
    (of the key, in generate_round3.py) only:
    [<base_dir>/<concept directory>/v<NN>.png], where [NN] is the index
    written with two digits, tens then units, up to 99 and in full
    from 100 on, and [<script_dir>/concepts/round3/<key>.png]; two
    different pairs of a concept and an index, and two different keys,
    never give the same path. *)
Theorem output_path_is_deterministic :
  (∀ base_dir cid dir i,
     List.In (cid, dir) GenerateLogo.CONCEPT_DIRS →
     let output_path :=
       path_join (path_join base_dir dir) (GenerateLogo.filename_of i) in
     output_path = base_dir ++ path_join [] dir ++ ["v" +:+ format_02d i +:+ ".png"] ∧
     (base_dir ≠ [] → last base_dir ≠ Some "/" →
        path_str output_path
          = path_str base_dir +:+ "/" +:+ dir +:+ "/" +:+ "v" +:+ format_02d i +:+ ".png")) ∧
  (∀ i, (0 ≤ i < 100 →
           format_02d i = String (digit (i `div` 10)) (String (digit (i `mod` 10)) "")) ∧
        (10 ≤ i → format_02d i = str_of_int i)) ∧
  (∀ base_dir cid cid' dir dir' i i',
     List.In (cid, dir) GenerateLogo.CONCEPT_DIRS →
     List.In (cid', dir') GenerateLogo.CONCEPT_DIRS →
     1 ≤ i → 1 ≤ i' →
     path_join (path_join base_dir dir) (GenerateLogo.filename_of i)
       = path_join (path_join base_dir dir') (GenerateLogo.filename_of i') →
     cid = cid' ∧ i = i') ∧
  (∀ script_dir key,
     key ∈ GenerateRound3.PROMPT_KEYS →
     let output_path :=
       path_join (GenerateRound3.OUTPUT_DIR script_dir) (GenerateRound3.filename_of key) in
     output_path = script_dir ++ ["concepts"; "round3"; key +:+ ".png"] ∧
     (script_dir ≠ [] → last script_dir ≠ Some "/" →
        path_str output_path
          = path_str script_dir +:+ "/" +:+ "concepts/round3/" +:+ key +:+ ".png")) ∧
  (∀ script_dir key key',
     key ∈ GenerateRound3.PROMPT_KEYS → key' ∈ GenerateRound3.PROMPT_KEYS →
     path_join (GenerateRound3.OUTPUT_DIR script_dir) (GenerateRound3.filename_of key)
       = path_join (GenerateRound3.OUTPUT_DIR script_dir) (GenerateRound3.filename_of key') →
     key = key').
Proof.
  split; [|split; [|split; [|split]]].
  - intros base_dir cid dir i Hdir output_path.
    split; [by eapply logo_target|]. intros Hbase Hlast.
    unfold output_path. rewrite (logo_target base_dir cid dir i Hdir).
    destruct (concept_dir_parts base_dir cid dir Hdir) as (_ & Hstr & Hne & _).
    rewrite path_str_app; [|done|by destruct (path_join [] dir)|done].
    f_equal. f_equal.
    rewrite path_str_app; [by rewrite Hstr|done|done|].
    clear -Hdir. simpl in Hdir.
    destruct Hdir as [H|[H|[H|[H|[]]]]]; injection H as <- <-; done.
  - intros i. split; [apply format_02d_digits | apply format_02d_ge_10].
  - intros base_dir cid cid' dir dir' i i' Hdir Hdir' Hi Hi'.
    rewrite (logo_target base_dir cid dir i Hdir), (logo_target base_dir cid' dir' i' Hdir').
    intros Heq%(inj (app base_dir)).
    destruct (concept_dir_parts base_dir cid dir Hdir) as (_ & _ & _ & Hlen).
    destruct (concept_dir_parts base_dir cid' dir' Hdir') as (_ & _ & _ & Hlen').
    apply app_inj_1 in Heq as [Hparts Hfile]; [|by rewrite Hlen, Hlen'].
    split; [by eapply concept_dirs_differ|].
    injection Hfile as Hfile.
    change (format_02d i +:+ ".png" = format_02d i' +:+ ".png") in Hfile.
    apply app_inv_tail_str in Hfile. apply format_02d_inj; [lia|lia|done].
  - intros script_dir key Hkey output_path.
    split; [by apply round3_target|]. intros Hbase Hlast.
    unfold output_path. rewrite round3_target by done.
    rewrite path_str_app by done. reflexivity.
  - intros script_dir key key' Hkey Hkey'. rewrite !round3_target by done.
    intros Heq%(inj (app script_dir)). injection Heq as Heq.
    by apply app_inv_tail_str in Heq.
Qed.
(** * Nothing is overwritten *)

Global Instance keeps_fs_preorder : PreOrder keeps_fs.
Proof.
  split; unfold keeps_fs.
  - intros w. reflexivity.
  - intros w1 w2 w3 H1 H2. by etrans.
Qed.

Lemma same_fs_keeps {A} (m : M A) : respects same_fs m → respects keeps_fs m.
Proof. intros H w. unfold keeps_fs. by rewrite (H w). Qed.

Lemma mkdir_walk_subseteq above below m m' :
  mkdir_walk above below m = Ok m' → m ⊆ m'.
Proof.
  revert above m. induction below as [|part rest IH]; intros above m; simpl.
  - by intros [= ->].
  - destruct (m !! (above ++ [part])) as [[data|]|] eqn:Hlook; [done|..]; intros Hwalk.
    + by eapply IH.
    + etrans; [|by eapply IH]. by apply insert_subseteq.
Qed.

Lemma mkdir_keeps p : respects keeps_fs (mkdir p).
Proof.
  intros w. unfold mkdir, keeps_fs.
  destruct (mkdir_walk [] p (fs w)) eqn:Hwalk; simpl; [|done].
  by eapply mkdir_walk_subseteq.
Qed.

Lemma present_false m p : present m p = false → p ≠ [] ∧ m !! p = None.
Proof.
  destruct p as [|part rest]; [done|]. unfold present.
  intros H%bool_decide_eq_false. split; [done|].
  destruct (m !! (part :: rest)) eqn:Hlook; [|done]. destruct H. eauto.
Qed.

Lemma present_lookup m p x : m !! p = Some x → present m p = true.
Proof.
  intros H. destruct p as [|part rest]; [done|]. unfold present.
  apply bool_decide_eq_true. eauto.
Qed.

(** Writing a file where nothing was keeps everything else. *)
Lemma persist_keeps E data p w :
  fs w !! p = None → keeps_fs w (snd (persist E data p w)).
Proof.
  intros Hmissing. unfold persist, bind.
  pose proof (mkdir_keeps (parent p) w) as Hmk. unfold mkdir in *.
  destruct (mkdir_walk [] (parent p) (fs w)) as [m|e] eqn:Hwalk; simpl in *; [|done].
  destruct p as [|part rest]; [done|].
  assert (m !! (part :: rest) = None) as Hstill
    by (by rewrite (walk_keeps_target (part :: rest) (fs w) m)).
  etrans; [exact Hmk|]. unfold keeps_fs.
  unfold write_bytes. cbn [fs]. rewrite Hstill.
  destruct (parent (part :: rest)) as [|a l] eqn:Hpar.
  - cbn [fs]. unfold py_image_open.
    destruct (image_open E data); simpl; by apply insert_subseteq.
  - destruct (m !! (a :: l)) as [[?|]|]; simpl; try done.
    unfold py_image_open.
    destruct (image_open E data); simpl; by apply insert_subseteq.
Qed.

Lemma turn_keeps E api_key c output_dir variations quality size count i :
  respects keeps_fs
    (GenerateLogo.run_variation E api_key c output_dir variations quality size count i).
Proof.
  intros w.
  destruct (fs w !! (output_dir ++ [GenerateLogo.filename_of i])) as [n|] eqn:Hlook.
  - rewrite turn_skip by eauto. by unfold keeps_fs.
  - rewrite turn_generate by done.
    pose proof (generate_same_fs E MODEL FALLBACK_MODEL (120 # 1)
                  "  Trying fallback model: " "  Fallback also failed (" api_key
                  (GenerateLogo.prompt c +:+ GenerateLogo.variation_suffix i) size quality
                  (push w [GenerateLogo.generating_line variations i])) as Hsame.
    unfold GenerateLogo.generate_image, GenerateLogo.save_image.
    destruct (generate_image_with _ _ _ _ _ _ _ _ _ _ _) as [[image_bytes|e] w1];
      unfold same_fs in Hsame; cbn [snd fs push] in Hsame;
      [|unfold keeps_fs; simpl; by rewrite Hsame].
    destruct (truthy image_bytes) as [data|];
      [|unfold keeps_fs; simpl; by rewrite Hsame].
    pose proof (persist_keeps E data (output_dir ++ [GenerateLogo.filename_of i]) w1)
      as Hpersist.
    rewrite Hsame in Hpersist. specialize (Hpersist Hlook).
    unfold keeps_fs in *. rewrite Hsame in Hpersist.
    by destruct (persist _ _ _ _) as [[[]|e] w2].
Qed.

Lemma key_keeps E prompt_text api_key output_dir total success entry :
  respects keeps_fs
    (GenerateRound3.run_key E prompt_text api_key output_dir total success entry).
Proof.
  intros w. destruct entry as [i key].
  destruct (present (fs w) (path_join output_dir (GenerateRound3.filename_of key)))
    eqn:Hlook.
  - rewrite key_skip by done. by unfold keeps_fs.
  - rewrite key_generate by done. cbn zeta.
    apply present_false in Hlook as [_ Hlook].
    destruct (GenerateRound3.lookup_str _ _ _) as [[prompt|e] w0]; [|by unfold keeps_fs].
    pose proof (generate_same_fs E MODEL FALLBACK_MODEL (180 # 1)
                  "  Trying fallback: " "  Fallback failed (" api_key
                  prompt "1024x1024" "high"
                  (push w (GenerateRound3.generating_lines total i key))) as Hsame.
    unfold GenerateRound3.generate_image.
    destruct (generate_image_with _ _ _ _ _ _ _ _ _ _ _) as [[image_bytes|e] w1];
      unfold same_fs in Hsame; cbn [snd fs push] in Hsame;
      [|unfold keeps_fs; simpl; by rewrite Hsame].
    destruct (truthy image_bytes) as [data|];
      [|unfold keeps_fs; simpl; by rewrite Hsame].
    pose proof (persist_keeps E data
                  (path_join output_dir (GenerateRound3.filename_of key)) w1) as Hpersist.
    rewrite Hsame in Hpersist. specialize (Hpersist Hlook).
    unfold keeps_fs in *. rewrite Hsame in Hpersist.
    by destruct (persist _ _ _ _) as [[[]|e] w2].
Qed.

Ltac keeps_leaf :=
  first [ apply turn_keeps | apply key_keeps | apply mkdir_keeps
        | apply same_fs_keeps; first [apply emit_same_fs | apply path_exists_same_fs] ].

Lemma run_concept_keeps E prompt_text api_key concept_id variations quality size base_dir :
  respects keeps_fs
    (GenerateLogo.run_concept E prompt_text api_key concept_id variations quality size
       base_dir).
Proof.
  unfold GenerateLogo.run_concept, GenerateLogo.lookup_int, print.
  repeat (respects_step || keeps_leaf).
Qed.

Lemma logo_main_keeps E prompt_text a key base_dir :
  respects keeps_fs (GenerateLogo.main E prompt_text a key base_dir).
Proof.
  unfold GenerateLogo.main, GenerateLogo.run_all, GenerateLogo.list_concept,
    GenerateLogo.lookup_int, print.
  repeat (respects_step || apply run_concept_keeps || keeps_leaf).
Qed.

Lemma round3_main_keeps E prompt_text argv key script_dir :
  respects keeps_fs (GenerateRound3.main E prompt_text argv key script_dir).
Proof.
  unfold GenerateRound3.main, print.
  repeat (respects_step || keeps_leaf).
Qed.

(** X1.  Whatever the network answers and however the run ends, a run
    of either script leaves every file and every directory that was
    there before exactly as it was: files are only ever added. *)
Theorem existing_files_are_kept :
  (∀ E prompt_text a key base_dir w p node,
     fs w !! p = Some node →
     fs (snd (GenerateLogo.main E prompt_text a key base_dir w)) !! p = Some node) ∧
  (∀ E prompt_text argv key script_dir w p node,
     fs w !! p = Some node →
     fs (snd (GenerateRound3.main E prompt_text argv key script_dir w)) !! p = Some node).
Proof.
  split.
  - intros E prompt_text a key base_dir w p node Hp.
    pose proof (logo_main_keeps E prompt_text a key base_dir w) as Hkeeps.
    unfold keeps_fs in Hkeeps. by eapply lookup_weaken.
  - intros E prompt_text argv key script_dir w p node Hp.
    pose proof (round3_main_keeps E prompt_text argv key script_dir w) as Hkeeps.
    unfold keeps_fs in Hkeeps. by eapply lookup_weaken.
Qed.
(** * How many requests *)

Lemma sends_refl n w : sends_at_most n w w.
Proof. exists []. rewrite app_nil_r. split; [done|simpl; lia]. Qed.

Lemma sends_trans a b w1 w2 w3 :
  sends_at_most a w1 w2 → sends_at_most b w2 w3 → sends_at_most (a + b) w1 w3.
Proof.
  intros (t1 & H1 & L1) (t2 & H2 & L2). exists (t1 ++ t2). split.
  - by rewrite H2, H1, app_assoc.
  - rewrite requests_app, length_app. lia.
Qed.

Lemma sends_weaken a b w w' : (a ≤ b)%nat → sends_at_most a w w' → sends_at_most b w w'.
Proof. intros Hle (t & Ht & Hl). exists t. split; [done|lia]. Qed.

Lemma costs_weaken {A} a b (m : M A) : (a ≤ b)%nat → costs a m → costs b m.
Proof. intros Hle Hm w. by eapply sends_weaken. Qed.

Lemma costs_ret {A} n (a : A) : costs n (ret a).
Proof. intros w. apply sends_refl. Qed.

Lemma costs_raise {A} n e : costs n (@raise A e).
Proof. intros w. apply sends_refl. Qed.

Lemma costs_lift {A} n (r : result A) : costs n (lift r).
Proof. intros w. apply sends_refl. Qed.

Lemma costs_bind {A B} a b (m : M A) (k : A → M B) :
  costs a m → (∀ x, costs b (k x)) → costs (a + b) (bind m k).
Proof.
  intros Hm Hk w. unfold bind. specialize (Hm w).
  destruct (m w) as [[x|e] w']; simpl in *.
  - eapply sends_trans; [exact Hm | apply Hk].
  - eapply sends_weaken; [|exact Hm]. lia.
Qed.

Lemma costs_try {A} a b (body : M A) handler :
  costs a body → (∀ r, costs b (handler r)) →
  costs (a + b) (try_except_HTTPStatusError body handler).
Proof.
  intros Hb Hh w. unfold try_except_HTTPStatusError. specialize (Hb w).
  destruct (body w) as [[x|[]] w']; simpl in *;
    try (eapply sends_weaken; [|exact Hb]; lia).
  eapply sends_trans; [exact Hb | apply Hh].
Qed.

Lemma costs_for_each {S A} c (items : list A) (body : S → A → M S) s :
  (∀ s x, costs c (body s x)) → costs (length items * c) (for_each items body s).
Proof.
  intros Hb. revert s. induction items as [|x rest IH]; intros s; simpl.
  - apply costs_ret.
  - apply costs_bind; auto.
Qed.

(** What sends nothing costs nothing. *)
Lemma quiet_costs {A} n (m : M A) : respects (emits_only not_send) m → costs n m.
Proof.
  intros H w. destruct (H w) as (t & Ht & Hquiet). exists t. split; [done|].
  rewrite requests_prints by done. simpl. lia.
Qed.

Lemma send_costs E r : costs 1 (send E r).
Proof.
  intros w. exists [ESend r]. unfold send. by destruct (net E _ r).
Qed.

Lemma print_costs n line : costs n (print line).
Proof. apply quiet_costs, emit_emits. done. Qed.

Lemma costs_bind_quiet {A B} n (m : M A) (k : A → M B) :
  costs 0 m → (∀ x, costs n (k x)) → costs n (bind m k).
Proof. intros Hm Hk. by apply (costs_bind 0 n). Qed.

Lemma costs_bind_last {A B} n (m : M A) (k : A → M B) :
  costs n m → (∀ x, costs 0 (k x)) → costs n (bind m k).
Proof.
  intros Hm Hk. eapply costs_weaken; [|by apply (costs_bind n 0)]. lia.
Qed.

Ltac costs_quiet :=
  first [ apply costs_ret | apply costs_raise | apply costs_lift | apply print_costs
        | apply quiet_costs; first [apply emit_emits; reflexivity | apply path_exists_emits
                                   | apply mkdir_emits | apply write_bytes_emits] ].

Ltac costs_step :=
  match goal with
  | |- costs _ (if ?b then _ else _) => destruct b
  | |- costs _ (match ?x with _ => _ end) => destruct x
  | |- costs _ (bind _ _) =>
      first [ apply costs_bind_quiet; [solve [costs_quiet]|intros ?]
            | apply costs_bind_last; [|intros ?; solve [repeat (costs_quiet || costs_step)]] ]
  end.

Ltac costs_auto := repeat (costs_quiet || costs_step).

Section Costs.
Variable E : environment.
Variables model fallback_model : string.
Variable post_timeout : Q.
Variables trying_prefix failed_prefix : string.

Lemma raise_for_status_costs n r : costs n (raise_for_status r).
Proof. unfold raise_for_status. destruct (is_success r); costs_quiet. Qed.

Lemma post_checked_costs headers payload :
  costs 1 (post_checked E post_timeout headers payload).
Proof.
  unfold post_checked. apply costs_bind_last; [apply send_costs|intros r].
  apply costs_bind_quiet; [apply raise_for_status_costs|intros _; apply costs_ret].
Qed.

Lemma download_costs v : costs 1 (download E v).
Proof.
  unfold download. destruct v; try apply costs_raise.
  apply costs_bind_last; [apply send_costs|intros r].
  apply costs_bind_quiet; [apply raise_for_status_costs|intros _; apply costs_ret].
Qed.

Lemma py_b64decode_costs n v : costs n (py_b64decode E v).
Proof. unfold py_b64decode. costs_auto. Qed.

Lemma extract_image_costs r : costs 1 (extract_image E r).
Proof.
  unfold extract_image, unexpected_format, response_json.
  repeat first
    [ costs_quiet
    | apply py_b64decode_costs
    | apply download_costs
    | match goal with
      | |- costs _ (if ?b then _ else _) => destruct b
      | |- costs _ (match ?x with _ => _ end) => destruct x
      | |- costs _ (bind (download _ _) _) =>
          apply costs_bind_last; [apply download_costs|intros ?; apply costs_ret]
      | |- costs _ (bind _ _) => apply costs_bind_quiet; [|intros ?]
      end ].
Qed.

Lemma fallback_attempt_costs headers payload e :
  costs 1 (fallback_attempt E model fallback_model post_timeout trying_prefix failed_prefix
             headers payload e).
Proof.
  unfold fallback_attempt.
  apply costs_bind_quiet; [apply print_costs|intros _].
  destruct (negb _); [|apply costs_ret].
  apply costs_bind_quiet; [apply print_costs|intros _].
  apply (costs_try 1 0).
  - apply costs_bind_last; [apply post_checked_costs|intros r; apply costs_ret].
  - intros r. apply costs_bind_quiet; [apply print_costs|intros _; apply costs_ret].
Qed.

Lemma generate_costs api_key prompt size quality :
  costs 3 (generate_image_with E model fallback_model post_timeout trying_prefix
             failed_prefix api_key prompt size quality).
Proof.
  unfold generate_image_with.
  apply costs_bind_quiet; [apply print_costs|intros _].
  apply (costs_bind 2 1).
  - unfold request_with_fallback. apply (costs_try 1 1).
    + apply costs_bind_last; [apply post_checked_costs|intros r; apply costs_ret].
    + intros r. apply fallback_attempt_costs.
  - intros [r|]; [apply extract_image_costs|apply costs_ret].
Qed.

Lemma persist_costs n data p : costs n (persist E data p).
Proof.
  apply quiet_costs. unfold persist, py_image_open, print. respects_auto.
Qed.
End Costs.

Lemma sends_calls n w w' : sends_at_most n w w' → (calls w ≤ calls w' ≤ calls w + n)%nat.
Proof.
  intros (t & Ht & Hl). unfold calls. rewrite Ht, requests_app, length_app. lia.
Qed.

Section ScriptCosts.
Variable E : environment.

Lemma sleep_costs n d : costs n (sleep d).
Proof. apply quiet_costs, emit_emits. done. Qed.

Lemma turn_costs api_key c output_dir variations quality size count i :
  costs 3 (GenerateLogo.run_variation E api_key c output_dir variations quality size count i).
Proof.
  unfold GenerateLogo.run_variation. cbn zeta.
  apply costs_bind_quiet; [costs_quiet|intros found].
  destruct found.
  - apply costs_bind_quiet; [costs_quiet|intros _; costs_quiet].
  - apply costs_bind_quiet; [costs_quiet|intros _].
    apply costs_bind_last; [apply generate_costs|intros image_bytes].
    apply costs_bind_quiet.
    + destruct (truthy image_bytes).
      * apply costs_bind_quiet; [apply persist_costs|intros _; costs_quiet].
      * apply costs_bind_quiet; [costs_quiet|intros _; costs_quiet].
    + intros n. apply costs_bind_quiet; [|intros _; costs_quiet].
      destruct (_ <? _); [apply sleep_costs|costs_quiet].
Qed.

Lemma lookup_int_costs {A} n k (d : list (Z * A)) : costs n (GenerateLogo.lookup_int k d).
Proof. unfold GenerateLogo.lookup_int. destruct (find _ _); costs_quiet. Qed.

Lemma run_concept_costs prompt_text api_key concept_id variations quality size base_dir :
  costs (Z.to_nat variations * 3)
    (GenerateLogo.run_concept E prompt_text api_key concept_id variations quality size
       base_dir).
Proof.
  unfold GenerateLogo.run_concept.
  apply costs_bind_quiet; [apply lookup_int_costs|intros c].
  apply costs_bind_quiet; [apply lookup_int_costs|intros dir]. cbn zeta.
  do 6 (apply costs_bind_quiet; [costs_quiet|intros _]).
  eapply costs_weaken; [|apply (costs_for_each 3); intros; apply turn_costs].
  pose proof (length_py_range 1 (variations + 1)). lia.
Qed.

Lemma logo_main_costs prompt_text a key base_dir :
  costs (length (GenerateLogo.concepts_to_run a) * (Z.to_nat (GenerateLogo.arg_variations a) * 3))
    (GenerateLogo.main E prompt_text a key base_dir).
Proof.
  unfold GenerateLogo.main.
  destruct (GenerateLogo.arg_list a).
  { apply costs_bind_quiet; [|intros _; costs_quiet].
    eapply costs_weaken; [|apply (costs_for_each 0)]; [lia|].
    intros [] [cid c]. unfold GenerateLogo.list_concept.
    apply costs_bind_quiet; [costs_quiet|intros _].
    apply costs_bind_quiet; [apply lookup_int_costs|intros dir].
    do 2 (apply costs_bind_quiet; [costs_quiet|intros _]). costs_quiet. }
  assert (costs (length (GenerateLogo.concepts_to_run a) *
                 (Z.to_nat (GenerateLogo.arg_variations a) * 3))
            (match credential key with
             | None =>
                 print "Error: OPENAI_API_KEY environment variable not set" ;;;
                 print "Usage: OPENAI_API_KEY='sk-...' python3 generate_logo.py --concept 1" ;;;
                 raise (SystemExit 1)
             | Some api_key =>
                 totals <- for_each (GenerateLogo.concepts_to_run a)
                             (GenerateLogo.run_all E prompt_text api_key a base_dir) (0, 0) ;;
                 print (nl +:+ str_repeat 60 "=") ;;;
                 print ("DONE: " +:+ str_of_int (fst totals) +:+ "/"
                        +:+ str_of_int (snd totals) +:+ " images generated successfully") ;;;
                 print (str_repeat 60 "=") ;;;
                 ret (Some totals)
             end)%py) as Hrun.
  { destruct (credential key) as [api_key|].
    - apply costs_bind_last.
      + apply costs_for_each. intros totals cid. unfold GenerateLogo.run_all.
        apply costs_bind_last; [apply run_concept_costs|intros n; costs_quiet].
      + intros totals. do 3 (apply costs_bind_quiet; [costs_quiet|intros _]). costs_quiet.
    - do 2 (apply costs_bind_quiet; [costs_quiet|intros _]). costs_quiet. }
  destruct (GenerateLogo.chosen a) as [c|], (GenerateLogo.arg_all a); try exact Hrun.
  do 2 (apply costs_bind_quiet; [costs_quiet|intros _]). costs_quiet.
Qed.

Lemma key_costs prompt_text api_key output_dir total success entry :
  costs 3 (GenerateRound3.run_key E prompt_text api_key output_dir total success entry).
Proof.
  destruct entry as [i key]. unfold GenerateRound3.run_key. cbn zeta.
  apply costs_bind_quiet; [costs_quiet|intros found].
  destruct found.
  - apply costs_bind_quiet; [costs_quiet|intros _; costs_quiet].
  - do 3 (apply costs_bind_quiet; [costs_quiet|intros _]).
    apply costs_bind_quiet.
    { unfold GenerateRound3.lookup_str. destruct (find _ _); costs_quiet. }
    intros prompt.
    apply costs_bind_last; [apply generate_costs|intros image_bytes].
    apply costs_bind_quiet.
    + destruct (truthy image_bytes).
      * apply costs_bind_quiet; [apply persist_costs|intros _; costs_quiet].
      * apply costs_bind_quiet; [costs_quiet|intros _; costs_quiet].
    + intros n. apply costs_bind_quiet; [|intros _; costs_quiet].
      destruct (_ <? _); [apply sleep_costs|costs_quiet].
Qed.

Lemma round3_main_costs prompt_text argv key script_dir :
  costs (length (GenerateRound3.keys_to_run argv) * 3)
    (GenerateRound3.main E prompt_text argv key script_dir).
Proof.
  unfold GenerateRound3.main.
  destruct (credential key) as [api_key|].
  - cbn zeta. apply costs_bind_quiet; [costs_quiet|intros _].
    apply costs_bind_last.
    + rewrite <- (length_enumerate1 (GenerateRound3.keys_to_run argv)).
      apply costs_for_each. intros. apply key_costs.
    + intros n. do 4 (apply costs_bind_quiet; [costs_quiet|intros _]). costs_quiet.
  - apply costs_bind_quiet; [costs_quiet|intros _]. costs_quiet.
Qed.
End ScriptCosts.

(** X2.  The request budget.  One call of [generate_image] sends at
    least one request and at most three (first model, fallback model,
    download of the image); a turn of either loop that finds its file
    sends none, so a run of [run_concept] sends at most three requests
    per variation, a run of the first script at most three per concept
    and variation, and a run of the second at most three per selected
    key, whatever the network answers. *)
Theorem request_budget E :
  (∀ model fallback_model post_timeout trying failed api_key prompt size quality w,
     let w' := snd (generate_image_with E model fallback_model post_timeout trying failed
                      api_key prompt size quality w) in
     (calls w + 1 ≤ calls w' ≤ calls w + 3)%nat) ∧
  (∀ prompt_text api_key concept_id variations quality size base_dir w,
     let w' := snd (GenerateLogo.run_concept E prompt_text api_key concept_id variations
                      quality size base_dir w) in
     (calls w' ≤ calls w + 3 * Z.to_nat variations)%nat) ∧
  (∀ prompt_text a key base_dir w,
     let w' := snd (GenerateLogo.main E prompt_text a key base_dir w) in
     (calls w' ≤ calls w + 3 * (length (GenerateLogo.concepts_to_run a)
                                 * Z.to_nat (GenerateLogo.arg_variations a)))%nat) ∧
  (∀ prompt_text argv key script_dir w,
     let w' := snd (GenerateRound3.main E prompt_text argv key script_dir w) in
     (calls w' ≤ calls w + 3 * length (GenerateRound3.keys_to_run argv))%nat).
Proof.
  split; [|split; [|split]]; intros; subst w'.
  - split.
    + destruct (generate_first_request E model fallback_model post_timeout trying failed
                  api_key prompt size quality w) as (t & Ht & _).
      unfold calls. rewrite Ht. unfold push. simpl.
      rewrite !requests_app, !length_app. simpl. lia.
    + apply (sends_calls 3), generate_costs.
  - pose proof (sends_calls _ _ _ (run_concept_costs E prompt_text api_key concept_id
                                     variations quality size base_dir w)). lia.
  - pose proof (sends_calls _ _ _ (logo_main_costs E prompt_text a key base_dir w)). lia.
  - pose proof (sends_calls _ _ _ (round3_main_costs E prompt_text argv key script_dir w)).
    lia.
Qed.
(** * A run that saves everything *)

Lemma filename_of_inj i j :
  0 ≤ i → 0 ≤ j → GenerateLogo.filename_of i = GenerateLogo.filename_of j → i = j.
Proof.
  intros Hi Hj Heq. unfold GenerateLogo.filename_of in Heq. injection Heq as Heq.
  change (format_02d i +:+ ".png" = format_02d j +:+ ".png") in Heq.
  apply app_inv_tail_str in Heq. by apply format_02d_inj.
Qed.

Section FreshLoop.
Variable E : environment.
Variables (api_key : string) (c : GenerateLogo.concept) (output_dir : path).
Variables (variations : Z) (quality size : string).
Hypothesis Hserver : always_inline E.

Local Abbreviation turn :=
  (GenerateLogo.run_variation E api_key c output_dir variations quality size).
Local Abbreviation target i := (output_dir ++ [GenerateLogo.filename_of i]).
Local Abbreviation request i :=
  (GenerateLogo.primary_request api_key
     (GenerateLogo.prompt c +:+ GenerateLogo.variation_suffix i) size quality).

Lemma loop_inline items count w :
  NoDup items → (∀ i, i ∈ items → 0 ≤ i) →
  dirs_to (fs w) output_dir →
  (∀ i, i ∈ items → fs w !! target i = None) →
  ∃ w',
    for_each items turn count w = (Ok (count + Z.of_nat (length items)), w') ∧
    requests (trace w') = requests (trace w) ++ ((λ i, request i) <$> items) ∧
    (∀ i, i ∈ items → ∃ data, data ≠ [] ∧ fs w' !! target i = Some (File data)) ∧
    (∀ p, (∀ i, i ∈ items → p ≠ target i) → fs w' !! p = fs w !! p).
Proof.
  revert count w. induction items as [|x rest IH]; intros count w Hnodup Hpos Hdirs Hnone.
  { exists w. simpl. rewrite Z.add_0_r, app_nil_r. repeat split; try done.
    intros i Hi. by apply elem_of_nil in Hi. }
  apply NoDup_cons in Hnodup as [Hx Hnodup].
  destruct (Hserver (calls w) (request x)) as (resp & data & dims & Hnet & Hin & Hne & Hopen).
  cbn [for_each]. unfold bind.
  rewrite (turn_inline E api_key c output_dir variations quality size count x w resp data
             dims); try done.
  2:{ apply Hnone. left. }
  set (w1 := mkWorld _ _).
  assert (∀ i, i ∈ rest → target i ≠ target x) as Hother.
  { intros i Hi Heq. apply (inj (app output_dir)) in Heq.
    assert (GenerateLogo.filename_of i = GenerateLogo.filename_of x) as Hname by congruence.
    clear Heq. apply filename_of_inj in Hname; [|apply Hpos; by right|apply Hpos; left].
    by subst. }
  destruct (IH (count + 1) w1) as (w' & Hrun & Hreq & Hfiles & Hframe); try done.
  - intros i Hi. apply Hpos. by right.
  - unfold w1. cbn [fs]. eapply dirs_to_mono; [|exact Hdirs].
    apply insert_file_fs_le. rewrite Hnone; [done|left].
  - intros i Hi. unfold w1. cbn [fs]. rewrite lookup_insert_ne by (symmetry; by apply Hother).
    apply Hnone. by right.
  - exists w'. rewrite Hrun. split; [|split; [|split]].
    + f_equal. f_equal. simpl length. lia.
    + rewrite Hreq. unfold w1. cbn [trace]. rewrite !requests_app.
      assert (requests (GenerateLogo.pause variations x) = []) as ->.
      { unfold GenerateLogo.pause. by destruct (_ <? _). }
      change (requests [_; _; _; _]) with [request x].
      rewrite fmap_cons. simpl. by rewrite <-app_assoc.
    + intros i [-> | Hi]%elem_of_cons; [|by apply Hfiles].
      exists data. split; [done|]. rewrite Hframe.
      * unfold w1. cbn [fs]. apply lookup_insert_eq.
      * intros i Hi. symmetry. by apply Hother.
    + intros p Hp. rewrite Hframe.
      * unfold w1. cbn [fs]. apply lookup_insert_ne. symmetry. apply Hp. left.
      * intros i Hi. apply Hp. by right.
Qed.
End FreshLoop.

(** X3.  When the directory of the concept can be made, none of the
    files asked for is there and the server answers every request with
    an image that opens, [run_concept] returns the number of variations
    asked for, having sent exactly one request per variation, in order
    and each for the first model; afterwards every one of the files
    holds an image, and the rest of the file system is as the making of
    the directory left it. *)
Theorem fresh_run_saves_every_variation
    E prompt_text api_key quality size base_dir cid c dir variations w m :
  let output_dir := path_join base_dir dir in
  let target i := output_dir ++ [GenerateLogo.filename_of i] in
  let request i :=
    GenerateLogo.primary_request api_key
      (GenerateLogo.prompt c +:+ GenerateLogo.variation_suffix i) size quality in
  List.In (cid, c) (GenerateLogo.CONCEPT_PROMPTS prompt_text) →
  List.In (cid, dir) GenerateLogo.CONCEPT_DIRS →
  always_inline E →
  mkdir_walk [] output_dir (fs w) = Ok m →
  (∀ i, 1 ≤ i ≤ variations → fs w !! target i = None) →
  ∃ w',
    GenerateLogo.run_concept E prompt_text api_key cid variations quality size base_dir w
      = (Ok (Z.max 0 variations), w') ∧
    requests (trace w') = requests (trace w) ++ (request <$> py_range 1 (variations + 1)) ∧
    (∀ i, 1 ≤ i ≤ variations → ∃ data, data ≠ [] ∧ fs w' !! target i = Some (File data)) ∧
    (∀ p, (∀ i, 1 ≤ i ≤ variations → p ≠ target i) → fs w' !! p = m !! p).
Proof.
  intros output_dir target request Hc Hdir Hserver Hwalk Hnone.
  rewrite (run_concept_known E prompt_text api_key variations quality size base_dir cid c dir)
    by done.
  fold output_dir. rewrite (mkdir_run _ _ _ Hwalk).
  set (w1 := push _ _).
  assert (∀ i, i ∈ py_range 1 (variations + 1) ↔ 1 ≤ i ≤ variations) as Hrange.
  { intros i. unfold py_range. rewrite elem_of_seqZ. lia. }
  destruct (loop_inline E api_key c output_dir variations quality size Hserver
              (py_range 1 (variations + 1)) 0 w1)
    as (w' & Hrun & Hreq & Hfiles & Hframe).
  - apply NoDup_seqZ.
  - intros i Hi%Hrange. lia.
  - unfold w1. cbn [fs push]. by eapply mkdir_walk_dirs_to.
  - intros i Hi%Hrange. unfold w1. cbn [fs push].
    specialize (Hnone i Hi). unfold target in Hnone.
    rewrite (walk_keeps_target (output_dir ++ [GenerateLogo.filename_of i]) (fs w) m).
    + exact Hnone.
    + by destruct output_dir.
    + by rewrite parent_app_part.
  - exists w'. rewrite Hrun. split; [|split; [|split]].
    + f_equal. f_equal. pose proof (length_py_range 1 (variations + 1)). lia.
    + rewrite Hreq. unfold w1, push. cbn [trace]. rewrite requests_app. cbn.
      by rewrite app_nil_r.
    + intros i Hi. apply Hfiles. by apply Hrange.
    + intros p Hp. rewrite Hframe; [done|]. intros i Hi%Hrange. by apply Hp.
Qed.
(** * No empty file *)

Global Instance no_empty_file_preorder : PreOrder no_empty_file.
Proof.
  split; unfold no_empty_file.
  - by intros w p.
  - intros w1 w2 w3 H1 H2 p Hp. by apply H1, H2.
Qed.

Lemma same_fs_no_empty {A} (m : M A) : respects same_fs m → respects no_empty_file m.
Proof. intros H w p. by rewrite (H w). Qed.

Lemma mkdir_no_empty p : respects no_empty_file (mkdir p).
Proof.
  intros w q. unfold mkdir.
  destruct (mkdir_walk [] p (fs w)) as [m|e] eqn:Hwalk; simpl; [|done].
  apply mkdir_walk_spec in Hwalk as [_ Hrest].
  destruct (Hrest q) as [-> | (k & _ & _ & ->)]; done.
Qed.

Lemma write_bytes_no_empty p data :
  data ≠ [] → respects no_empty_file (write_bytes p data).
Proof.
  intros Hdata w q. unfold write_bytes.
  repeat case_match; simpl; try done; subst;
    match goal with
    | |- <[?k := _]> _ !! _ = _ → _ =>
        destruct (decide (q = k)) as [->|Hne];
        [rewrite lookup_insert_eq; by intros [= ->] | by rewrite lookup_insert_ne]
    end.
Qed.

Lemma truthy_nonempty image_bytes data : truthy image_bytes = Some data → data ≠ [].
Proof. destruct image_bytes as [[|b rest]|]; [done| |done]. by intros [= <-]. Qed.

Lemma persist_no_empty E data p : data ≠ [] → respects no_empty_file (persist E data p).
Proof.
  intros Hdata. unfold persist, py_image_open, print.
  repeat first [ respects_step | apply mkdir_no_empty | by apply write_bytes_no_empty
               | apply same_fs_no_empty, emit_same_fs ].
Qed.

Ltac no_empty_leaf E :=
  first
    [ apply mkdir_no_empty
    | apply same_fs_no_empty;
      first [ apply emit_same_fs | apply path_exists_same_fs | apply generate_same_fs ]
    | match goal with
      | |- respects _ (match truthy ?x with _ => _ end) =>
          let H := fresh "Hbytes" in
          destruct (truthy x) as [?|] eqn:H; [apply truthy_nonempty in H|]
      | |- respects _ (persist _ _ _) => by apply persist_no_empty
      end ].

Lemma turn_no_empty E api_key c output_dir variations quality size count i :
  respects no_empty_file
    (GenerateLogo.run_variation E api_key c output_dir variations quality size count i).
Proof.
  unfold GenerateLogo.run_variation, GenerateLogo.save_image, GenerateLogo.generate_image,
    print, sleep.
  cbn zeta. repeat (no_empty_leaf E || respects_step).
Qed.

Lemma key_no_empty E prompt_text api_key output_dir total success entry :
  respects no_empty_file
    (GenerateRound3.run_key E prompt_text api_key output_dir total success entry).
Proof.
  destruct entry as [i key].
  unfold GenerateRound3.run_key, GenerateRound3.generate_image, GenerateRound3.lookup_str,
    print, sleep.
  cbn zeta. repeat (no_empty_leaf E || respects_step).
Qed.

Lemma logo_main_no_empty E prompt_text a key base_dir :
  respects no_empty_file (GenerateLogo.main E prompt_text a key base_dir).
Proof.
  unfold GenerateLogo.main, GenerateLogo.run_all, GenerateLogo.run_concept,
    GenerateLogo.list_concept, GenerateLogo.lookup_int, print.
  repeat (apply turn_no_empty || no_empty_leaf E || respects_step).
Qed.

Lemma round3_main_no_empty E prompt_text argv key script_dir :
  respects no_empty_file (GenerateRound3.main E prompt_text argv key script_dir).
Proof.
  unfold GenerateRound3.main, print.
  repeat (apply key_no_empty || no_empty_leaf E || respects_step).
Qed.

(** X4.  Neither script ever writes an empty file: bytes of length
    zero coming from the API count as no image.  A file without
    content found after a run was there before it; and a turn whose
    answer decodes to no bytes at all logs the failure, leaves the
    count and the file system as they are and goes on. *)
Theorem no_empty_file_is_written :
  (∀ E prompt_text a key base_dir w p,
     fs (snd (GenerateLogo.main E prompt_text a key base_dir w)) !! p = Some (File []) →
     fs w !! p = Some (File [])) ∧
  (∀ E prompt_text argv key script_dir w p,
     fs (snd (GenerateRound3.main E prompt_text argv key script_dir w)) !! p
       = Some (File []) →
     fs w !! p = Some (File [])) ∧
  (∀ E api_key c output_dir variations quality size count i w r,
     let prompt := GenerateLogo.prompt c +:+ GenerateLogo.variation_suffix i in
     fs w !! (output_dir ++ [GenerateLogo.filename_of i]) = None →
     net E (calls w) (GenerateLogo.primary_request api_key prompt size quality)
       = Responded r →
     carries_inline E r [] →
     GenerateLogo.run_variation E api_key c output_dir variations quality size count i w
     = (Ok count,
        push w ([GenerateLogo.generating_line variations i;
                 GenerateLogo.calling_line size quality;
                 GenerateLogo.first_request api_key prompt size quality;
                 GenerateLogo.failed_line i]
                ++ GenerateLogo.pause variations i))).
Proof.
  split; [|split].
  - intros E prompt_text a key base_dir w p. apply logo_main_no_empty.
  - intros E prompt_text argv key script_dir w p. apply round3_main_no_empty.
  - intros E api_key c output_dir variations quality size count i w r prompt Hmissing Hnet
      (Hok & kvs & fields & rest & payload & Hjson & Hdata & Hb64 & Hdec).
    rewrite turn_generate by done. unfold GenerateLogo.generate_image.
    rewrite (generate_inline E MODEL FALLBACK_MODEL (120 # 1) _ _ api_key prompt size
               quality _ r kvs fields rest payload []); try done.
    2:{ rewrite calls_push. cbn [requests omap length]. by rewrite Nat.add_0_r. }
    cbn [truthy]. by rewrite !push_push.
Qed.
(** * Running generate_round3.py again *)

Lemma present_keeps m m' p : m ⊆ m' → present m p = true → present m' p = true.
Proof.
  intros Hsub. destruct p as [|part rest]; [done|]. unfold present.
  intros [x Hx]%bool_decide_eq_true. apply bool_decide_eq_true.
  exists x. by eapply lookup_weaken.
Qed.

Lemma dirs_to_keeps m m' p : m ⊆ m' → dirs_to m p → dirs_to m' p.
Proof. intros Hsub Hd k Hk. eapply lookup_weaken; [by apply Hd|done]. Qed.

Section Round3LoopFacts.
Variable prompt_text : string → string.
Variables (api_key : string) (output_dir : path) (total : Z).

Local Abbreviation turn E :=
  (GenerateRound3.run_key E prompt_text api_key output_dir total).
Local Abbreviation target key :=
  (path_join output_dir (GenerateRound3.filename_of key)).

(** A turn that adds one leaves its file behind. *)
Lemma key_written E success i key w w' :
  turn E success (i, key) w = (Ok (success + 1), w') → present (fs w') (target key) = true.
Proof.
  destruct (present (fs w) (target key)) eqn:Hlook.
  - rewrite key_skip by done. by intros [= <-].
  - rewrite key_generate by done. cbn zeta.
    destruct (GenerateRound3.lookup_str _ _ _) as [[prompt|e] w0]; [|done].
    destruct (GenerateRound3.generate_image _ _ _ _ _ _) as [[image_bytes|e] w1]; [|done].
    destruct (truthy image_bytes) as [data|].
    + destruct (persist _ _ _ _) as [[[]|e] w2] eqn:Hsave; [|done].
      intros [= <-]. simpl. apply persist_ok_written in Hsave.
      by eapply present_lookup.
    + intros [= ? _]. lia.
Qed.

Lemma keys_all_written E entries success w success' w' :
  for_each entries (turn E) success w = (Ok success', w') →
  success' = success + Z.of_nat (length entries) →
  ∀ entry, entry ∈ entries → present (fs w') (target (snd entry)) = true.
Proof.
  revert success w. induction entries as [|x rest IH]; intros success w Hrun Hall entry Hin.
  { by apply elem_of_nil in Hin. }
  simpl in Hrun. unfold bind in Hrun.
  destruct (turn E success x w) as [[success1|e] w1] eqn:Hturn; [|done].
  pose proof (key_counts E prompt_text api_key output_dir total _ _ _ _ _ Hturn) as Hstep.
  pose proof (for_each_count rest (turn E) success1 w1 success' w'
                (key_counts E prompt_text api_key output_dir total) Hrun) as Hrest.
  simpl in Hall.
  assert (success1 = success + 1) as -> by lia.
  apply elem_of_cons in Hin as [-> | Hin].
  - destruct x as [i key]. apply key_written in Hturn.
    pose proof (respects_for_each keeps_fs rest (turn E) (success + 1)
                  (λ s y, key_keeps E prompt_text api_key output_dir total s y) w1)
      as Hkeeps.
    rewrite Hrun in Hkeeps. by eapply present_keeps.
  - eapply IH; [exact Hrun | lia | done].
Qed.

End Round3LoopFacts.

(** X5.  When a run of generate_round3.py ended with every selected
    logo counted, running it again with the same arguments on the files
    it left, whatever the network now answers and whatever the
    credential, reports the same totals, leaves the file system as it
    is and sends no request. *)
Theorem round3_rerun_sends_nothing
    E E' prompt_text prompt_text' argv key api_key' script_dir w w1 t total :
  GenerateRound3.main E prompt_text argv key script_dir w = (Ok (total, total), w1) →
  api_key' ≠ "" →
  ∃ w2,
    GenerateRound3.main E' prompt_text' argv (Some api_key') script_dir
      (mkWorld (fs w1) t) = (Ok (total, total), w2) ∧
    fs w2 = fs w1 ∧
    requests (trace w2) = requests t.
Proof.
  intros Hfirst Hkey'.
  assert (∃ api_key, key = Some api_key ∧ api_key ≠ "") as (api_key & -> & Hkey).
  { destruct key as [[|a s]|]; try done. by eexists. }
  rewrite round3_main_run in Hfirst by done. rewrite round3_main_run by done.
  cbn zeta in *.
  set (output_dir := GenerateRound3.OUTPUT_DIR script_dir) in *.
  set (keys := GenerateRound3.keys_to_run argv) in *.
  unfold mkdir in Hfirst at 1.
  destruct (mkdir_walk [] output_dir (fs w)) as [m|e] eqn:Hwalk; [|done].
  set (w0 := mkWorld m (trace w)) in Hfirst.
  destruct (for_each _ _ 0 w0) as [[success|e] w'] eqn:Hloop; [|done].
  injection Hfirst as -> Htotal <-.
  pose proof (keys_all_written prompt_text api_key output_dir _ E _ _ _ _ _ Hloop) as Hall.
  rewrite length_enumerate1 in Hall. specialize (Hall ltac:(lia)).
  pose proof (respects_for_each keeps_fs (GenerateRound3.enumerate1 keys)
                (GenerateRound3.run_key E prompt_text api_key output_dir
                   (Z.of_nat (length keys))) 0
                (λ s y, key_keeps E prompt_text api_key output_dir _ s y) w0) as Hkeeps.
  rewrite Hloop in Hkeeps. unfold keeps_fs in Hkeeps. simpl in Hkeeps.
  rewrite mkdir_idem.
  2:{ cbn [fs push]. eapply dirs_to_keeps; [exact Hkeeps|]. by eapply mkdir_walk_dirs_to. }
  rewrite keys_all_skip by exact Hall.
  rewrite length_enumerate1, push_push.
  eexists. split; [by rewrite Z.add_0_l, Htotal|]. split; [done|].
  cbn [trace push]. rewrite requests_app.
  match goal with |- _ ++ requests ?l = _ => rewrite (requests_prints l) end;
    [by rewrite app_nil_r|].
  rewrite forallb_app. apply andb_true_iff. split; [|done].
  apply forallb_forall. intros e [entry [<- _]]%in_map_iff. done.
Qed.
(** * The selection of generate_round3.py *)

Lemma is_prefix_spec p s : is_prefix p s = true ↔ ∃ b, s = p +:+ b.
Proof.
  revert s. induction p as [|a p IH]; intros s.
  - split; [intros _; by exists s|done].
  - destruct s as [|c s]; cbn [is_prefix].
    + split; [done|]. by intros [b Hb].
    + destruct (Ascii.eqb a c) eqn:Hac.
      * apply Ascii.eqb_eq in Hac as ->. rewrite IH. split.
        -- intros [b ->]. by exists b.
        -- intros [b Hb]. rewrite app_cons in Hb. injection Hb as ->. by exists b.
      * apply Ascii.eqb_neq in Hac. split; [done|].
        intros [b Hb]. rewrite app_cons in Hb. by injection Hb as -> _.
Qed.

(** [p in s] holds exactly when [p] occurs in [s]. *)
Lemma is_substring_spec p s : is_substring p s = true ↔ ∃ a b, s = a +:+ p +:+ b.
Proof.
  induction s as [|c s IH]; cbn [is_substring]; rewrite orb_true_iff, is_prefix_spec.
  - split.
    + intros [[b Hb]|]; [|done]. by exists "", b.
    + intros ([|x a] & b & Hs); [left; by exists b|done].
  - rewrite IH. split.
    + intros [[b Hb]|(a & b & ->)]; [by exists "", b|]. by exists (String c a), b.
    + intros ([|x a] & b & Hs); [left; by exists b|right].
      rewrite app_cons in Hs. injection Hs as -> ->. by exists a, b.
Qed.

Lemma count_occ_filter (f : string → bool) l k :
  count_occ string_dec (List.filter f l) k
  = if f k then count_occ string_dec l k else 0%nat.
Proof.
  induction l as [|x l IH]; simpl; [by destruct (f k)|].
  destruct (f x) eqn:Hx; simpl; destruct (string_dec x k) as [->|Hne]; rewrite IH.
  - by rewrite Hx.
  - done.
  - by rewrite Hx.
  - done.
Qed.

Lemma count_selected (keys args : list string) k :
  count_occ string_dec keys k = 1%nat →
  count_occ string_dec
    (List.concat (List.map (λ a, List.filter (λ k, is_substring a k) keys) args)) k
  = length (List.filter (λ x, is_substring x k) args).
Proof.
  intros Hone. induction args as [|x args IH]; [done|].
  cbn [List.map List.concat List.filter].
  rewrite count_occ_app, count_occ_filter, IH, Hone.
  by destruct (is_substring x k).
Qed.

Lemma prompt_keys_nodup : List.NoDup GenerateRound3.PROMPT_KEYS.
Proof.
  apply NoDup_ListNoDup.
  apply (bool_decide_unpack (NoDup GenerateRound3.PROMPT_KEYS)). vm_compute. reflexivity.
Qed.

Lemma keys_to_run_args prog arg args :
  GenerateRound3.keys_to_run (prog :: arg :: args)
  = List.concat (List.map (λ a, List.filter (λ k, is_substring a k)
                                 GenerateRound3.PROMPT_KEYS) (arg :: args)).
Proof.
  unfold GenerateRound3.keys_to_run.
  assert ((1 <? Z.of_nat (length (prog :: arg :: args))) = true) as ->; [|done].
  apply Z.ltb_lt. simpl length. lia.
Qed.

Lemma lookup_prompt prompt_text key w :
  key ∈ GenerateRound3.PROMPT_KEYS →
  GenerateRound3.lookup_str key (GenerateRound3.PROMPTS prompt_text) w
  = (Ok (prompt_text key), w).
Proof.
  intros Hkey. unfold GenerateRound3.lookup_str, GenerateRound3.PROMPTS.
  unfold GenerateRound3.PROMPT_KEYS in *.
  repeat (apply elem_of_cons in Hkey as [-> | Hkey]; [reflexivity|]).
  by apply elem_of_nil in Hkey.
Qed.

(** X6.  The selection made from the command line.  Without argument
    every key of the catalogue is run.  With arguments, a key is run
    exactly when it is a key of the catalogue in which one of the
    arguments occurs, and as many times as there are arguments that
    occur in it; the prompt of every key that is run is found in the
    catalogue, so that [PROMPTS[key]] never fails. *)
Theorem selection_by_arguments prog arg args :
  GenerateRound3.keys_to_run [prog] = GenerateRound3.PROMPT_KEYS ∧
  (∀ k, k ∈ GenerateRound3.keys_to_run (prog :: arg :: args) ↔
        k ∈ GenerateRound3.PROMPT_KEYS ∧
        ∃ x a b, x ∈ arg :: args ∧ k = a +:+ x +:+ b) ∧
  (∀ k, k ∈ GenerateRound3.PROMPT_KEYS →
        count_occ string_dec (GenerateRound3.keys_to_run (prog :: arg :: args)) k
        = length (List.filter (λ x, is_substring x k) (arg :: args))) ∧
  (∀ argv prompt_text k w,
     k ∈ GenerateRound3.keys_to_run argv →
     GenerateRound3.lookup_str k (GenerateRound3.PROMPTS prompt_text) w
     = (Ok (prompt_text k), w)).
Proof.
  assert (∀ k, k ∈ GenerateRound3.keys_to_run (prog :: arg :: args) ↔
               k ∈ GenerateRound3.PROMPT_KEYS ∧
               ∃ x, x ∈ arg :: args ∧ is_substring x k = true) as Hsel.
  { intros k. rewrite keys_to_run_args.
    rewrite !list_elem_of_In, in_concat. split.
    - intros (l & [x [<- Hx]]%in_map_iff & [Hk Hsub]%filter_In).
      split; [done|]. exists x. by rewrite list_elem_of_In.
    - intros (Hk & x & Hx%list_elem_of_In & Hsub).
      exists (List.filter (λ k, is_substring x k) GenerateRound3.PROMPT_KEYS).
      split; [apply in_map_iff; by exists x|]. by apply filter_In. }
  split; [done|]. split; [|split].
  - intros k. rewrite Hsel. split.
    + intros (Hk & x & Hx & (a & b & ->)%is_substring_spec). split; [done|]. by exists x, a, b.
    + intros (Hk & x & a & b & Hx & ->). split; [done|]. exists x. split; [done|].
      apply is_substring_spec. by exists a, b.
  - intros k Hk. rewrite keys_to_run_args. apply count_selected.
    apply NoDup_count_occ'; [apply prompt_keys_nodup|]. by apply list_elem_of_In.
  - intros argv prompt_text k w Hk. apply lookup_prompt.
    unfold GenerateRound3.keys_to_run in Hk. destruct (1 <? _); [|done].
    apply list_elem_of_In, in_concat in Hk as (l & [x [<- Hx]]%in_map_iff & Hin).
    apply filter_In in Hin as [Hin _]. by apply list_elem_of_In.
Qed.

(** X7.  Arguments that occur in no key of the catalogue are no
    error: once the output directory is made, the run generates
    nothing, sends no request and reports 0/0. *)
Theorem no_match_runs_nothing E prompt_text argv api_key script_dir w m :
  let output_dir := GenerateRound3.OUTPUT_DIR script_dir in
  api_key ≠ "" →
  GenerateRound3.keys_to_run argv = [] →
  mkdir_walk [] output_dir (fs w) = Ok m →
  GenerateRound3.main E prompt_text argv (Some api_key) script_dir w
  = (Ok (0, 0), mkWorld m (trace w ++ GenerateRound3.done_lines 0 0 output_dir)).
Proof.
  intros output_dir Hkey Hnone Hwalk.
  rewrite round3_main_run by done. cbn zeta. fold output_dir.
  rewrite (mkdir_run _ _ _ Hwalk), Hnone. reflexivity.
Qed.
(** * Where the bytes come from *)

(** What [extract_image] does, by the shape of the answer: with the
    expected shape it goes by the first item; with any other it ends
    at once, with the line about the format or with one of four
    exceptions. *)
Lemma extract_image_shapes E r w :
  (∃ kvs fields rest,
     json_body r = Some (JObj kvs) ∧
     dict_get "data" kvs = Some (JArr (JObj fields :: rest)) ∧
     extract_image E r w = first_item_outcome E fields w) ∨
  extract_image E r w = (Ok None, push w [EPrint "  Unexpected response format"]) ∨
  (∃ e, extract_image E r w = (Raise e, w) ∧
        (e = JSONDecodeError ∨ e = TypeError ∨ e = KeyError ∨ e = IndexError)).
Proof.
  assert (∀ x : result (option bytes) * world,
            x = (Ok None, push w [EPrint "  Unexpected response format"]) ∨
            (∃ e, x = (Raise e, w) ∧
                  (e = JSONDecodeError ∨ e = TypeError ∨ e = KeyError ∨ e = IndexError)) →
            extract_image E r w = x →
            (∃ kvs fields rest,
               json_body r = Some (JObj kvs) ∧
               dict_get "data" kvs = Some (JArr (JObj fields :: rest)) ∧
               extract_image E r w = first_item_outcome E fields w) ∨
            extract_image E r w = (Ok None, push w [EPrint "  Unexpected response format"]) ∨
            (∃ e, extract_image E r w = (Raise e, w) ∧
                  (e = JSONDecodeError ∨ e = TypeError ∨ e = KeyError ∨ e = IndexError)))
    as Hplain.
  { intros x Hx ->. by right. }
  destruct (json_body r) as [j|] eqn:Hjson.
  2:{ right. right. exists JSONDecodeError.
      unfold extract_image, response_json, bind. rewrite Hjson. auto. }
  destruct j as [| | |s|xs|kvs].
  1-5: eapply Hplain;
       [|unfold extract_image, unexpected_format, response_json, bind, lift, print, emit,
           ret, raise;
         rewrite Hjson; cbn [py_contains py_getitem]; reflexivity];
       cbv beta iota; repeat (case_match; cbv beta iota in *; simplify_eq); eauto 10.
  destruct (dict_get "data" kvs) as [v|] eqn:Hdata.
  2:{ right. left. by rewrite (extract_image_no_data E r kvs w) by auto. }
  assert (extract_image E r w =
          match py_len v with
          | Ok n =>
              if 0 <? n then
                match py_first v with
                | Ok item =>
                    match py_contains "b64_json" item with
                    | Ok true =>
                        match py_getitem "b64_json" item with
                        | Ok payload =>
                            match py_b64decode E payload w with
                            | (Ok decoded, w1) => (Ok (Some decoded), w1)
                            | (Raise e, w1) => (Raise e, w1)
                            end
                        | Raise e => (Raise e, w)
                        end
                    | Ok false =>
                        match py_contains "url" item with
                        | Ok true =>
                            match py_getitem "url" item with
                            | Ok url =>
                                match download E url w with
                                | (Ok downloaded, w1) => (Ok (Some downloaded), w1)
                                | (Raise e, w1) => (Raise e, w1)
                                end
                            | Raise e => (Raise e, w)
                            end
                        | Ok false => (Ok None, push w [EPrint "  Unexpected response format"])
                        | Raise e => (Raise e, w)
                        end
                    | Raise e => (Raise e, w)
                    end
                | Raise e => (Raise e, w)
                end
              else (Ok None, push w [EPrint "  Unexpected response format"])
          | Raise e => (Raise e, w)
          end) as Hrun.
  { unfold extract_image, unexpected_format, response_json, bind, lift, print, emit, ret,
      raise.
    rewrite Hjson. cbn [py_contains py_getitem]. unfold dict_has. rewrite Hdata.
    destruct (py_len v) as [n|e]; [|done].
    destruct (0 <? n); [|done].
    destruct (py_first v) as [item|e]; [|done].
    destruct (py_contains "b64_json" item) as [[]|e]; [| |done].
    - destruct (py_getitem "b64_json" item) as [payload|e]; [|done].
      by destruct (py_b64decode E payload w) as [[decoded|e] w1].
    - destruct (py_contains "url" item) as [[]|e]; [|done..].
      destruct (py_getitem "url" item) as [url|e]; [|done].
      by destruct (download E url w) as [[downloaded|e] w1]. }
  destruct v as [| | |s|xs|kvs'];
    try solve [eapply Hplain; [|exact Hrun]; cbn [py_len]; eauto 10].
  - destruct s as [|a s]; [eapply Hplain; [|exact Hrun]; cbn; eauto 10|].
    eapply Hplain; [|exact Hrun]. cbn [py_len String.length].
    try (assert ((0 <? Z.of_nat (S (String.length s))) = true) as ->
           by (apply Z.ltb_lt; lia)).
    cbn [py_first py_contains py_getitem].
    repeat (case_match; cbv beta iota in *; simplify_eq); eauto 10.
  - destruct xs as [|x xs]; [eapply Hplain; [|exact Hrun]; cbn; eauto 10|].
    destruct x as [| | |s|ys|fields].
    6:{ left. exists kvs, fields, xs. repeat split; [done|].
        by apply (extract_image_first_item E r kvs fields xs). }
    all: eapply Hplain; [|exact Hrun]; cbn [py_len length];
      try (assert ((0 <? Z.of_nat (S (length xs))) = true) as -> by (apply Z.ltb_lt; lia));
      cbn [py_first py_contains py_getitem];
      repeat (case_match; cbv beta iota in *; simplify_eq); eauto 10.
  - eapply Hplain; [|exact Hrun]. cbn [py_len py_first].
    destruct (0 <? _); eauto 10.
Qed.

(** [extract_image] hands bytes over only from the first item of a
    JSON object's [data] array. *)
Lemma extract_image_some E r w data w' :
  extract_image E r w = (Ok (Some data), w') →
  ∃ kvs fields rest,
    json_body r = Some (JObj kvs) ∧
    dict_get "data" kvs = Some (JArr (JObj fields :: rest)) ∧
    first_item_outcome E fields w = (Ok (Some data), w').
Proof.
  destruct (extract_image_shapes E r w)
    as [(kvs & fields & rest & Hjson & Hdata & ->) | [-> | (e & -> & _)]]; [|done..].
  intros Hitem. by exists kvs, fields, rest.
Qed.

(** [extract_image] raises the status error of the download only. *)
Lemma extract_image_status E r w img w' :
  extract_image E r w = (Raise (HTTPStatusError img), w') →
  ∃ url, w' = push w [ESend (GET url (60 # 1))] ∧
         net E (calls w) (GET url (60 # 1)) = Responded img ∧ is_success img = false.
Proof.
  destruct (extract_image_shapes E r w)
    as [(kvs & fields & rest & Hjson & Hdata & ->) | [-> | (e & -> & He)]]; [|done|].
  - unfold first_item_outcome.
    destruct (dict_get "b64_json" fields) as [v|].
    { destruct v as [| | |payload| |]; try done. by destruct (b64decode E payload). }
    destruct (dict_get "url" fields) as [v|]; [|done].
    destruct v as [| | |url| |]; try done. cbn zeta.
    destruct (net E (calls w) _) as [img'|] eqn:Hnet; [|done].
    destruct (is_success img') eqn:Hok; [done|].
    intros [= -> <-]. by exists url.
  - intros [= -> _]. by destruct He as [?|[?|[?|?]]].
Qed.

Section Provenance.
Variable E : environment.
Variables model fallback_model : string.
Variable post_timeout : Q.
Variables trying_prefix failed_prefix : string.

Local Abbreviation generate :=
  (generate_image_with E model fallback_model post_timeout trying_prefix failed_prefix).
Local Abbreviation exchange :=
  (request_with_fallback E model fallback_model post_timeout trying_prefix failed_prefix).

(** The exchange turns every error status into [None]. *)
Lemma exchange_no_status headers payload w img w' :
  exchange headers payload w ≠ (Raise (HTTPStatusError img), w').
Proof.
  rewrite request_with_fallback_run. cbn zeta.
  destruct (net E (calls w) _) as [r1|]; [|done].
  destruct (is_success r1); [done|].
  destruct (decide (model = fallback_model)) as [Heq|Hne].
  { by rewrite fallback_attempt_same. }
  rewrite fallback_attempt_run by done. cbn zeta.
  destruct (net E _ _) as [r2|]; [|done].
  by destruct (is_success r2).
Qed.

(** X8.  Bytes returned by [generate_image] always come from a
    successful answer of the API, to the first request or, after an
    error status, to the second one, whose body is a JSON object with
    a [data] array that starts with an object: they are the decoding
    of its [b64_json] string or, when it has no [b64_json], the body
    of the successful answer to one GET of its [url]. *)
Theorem returned_bytes_provenance api_key prompt size quality w data w' :
  let first := POST API_URL (auth_headers api_key)
                 (primary_payload model prompt size quality) post_timeout in
  let second := POST API_URL (auth_headers api_key)
                  (fallback_payload fallback_model
                     (primary_payload model prompt size quality)) post_timeout in
  generate api_key prompt size quality w = (Ok (Some data), w') →
  ∃ r kvs fields rest,
    (net E (calls w) first = Responded r ∨
     ∃ e, net E (calls w) first = Responded e ∧ is_success e = false ∧
          net E (S (calls w)) second = Responded r) ∧
    is_success r = true ∧
    json_body r = Some (JObj kvs) ∧
    dict_get "data" kvs = Some (JArr (JObj fields :: rest)) ∧
    ((∃ payload, dict_get "b64_json" fields = Some (JStr payload) ∧
                 b64decode E payload = Some data) ∨
     (dict_get "b64_json" fields = None ∧
      ∃ url img w1,
        dict_get "url" fields = Some (JStr url) ∧
        w' = push w1 [ESend (GET url (60 # 1))] ∧
        net E (calls w1) (GET url (60 # 1)) = Responded img ∧
        is_success img = true ∧ content img = data)).
Proof.
  intros first second. rewrite generate_run. cbn zeta.
  destruct (exchange _ _ _) as [[[r|]|e] w1] eqn:Hex; [|done..].
  intros (kvs & fields & rest & Hjson & Hdata & Hitem)%extract_image_some.
  exists r, kvs, fields, rest.
  split.
  { apply exchange_origin in Hex. rewrite calls_push in Hex.
    cbn [requests omap length] in Hex. by rewrite Nat.add_0_r in Hex. }
  split; [by eapply exchange_success|]. split; [done|]. split; [done|].
  unfold first_item_outcome in Hitem.
  destruct (dict_get "b64_json" fields) as [v|].
  - left. destruct v as [| | |payload| |]; try done. exists payload. split; [done|].
    destruct (b64decode E payload); by simplify_eq.
  - right. split; [done|].
    destruct (dict_get "url" fields) as [v|]; [|done].
    destruct v as [| | |url| |]; try done. cbn zeta in Hitem.
    destruct (net E (calls w1) _) as [img|] eqn:Hnet; [|done].
    destruct (is_success img) eqn:Hok; [|done].
    injection Hitem as <- <-. by exists url, img, w1.
Qed.

(** X9.  An error status of the API never leaves [generate_image] as
    an exception: when the call raises [HTTPStatusError], the status is
    that of the download of the image, the last request of the call. *)
Theorem api_status_never_escapes api_key prompt size quality w img w' :
  generate api_key prompt size quality w = (Raise (HTTPStatusError img), w') →
  ∃ url w1,
    w' = push w1 [ESend (GET url (60 # 1))] ∧
    net E (calls w1) (GET url (60 # 1)) = Responded img ∧
    is_success img = false.
Proof.
  rewrite generate_run. cbn zeta.
  destruct (exchange _ _ _) as [[[r|]|e] w1] eqn:Hex; [|done|].
  - intros (url & -> & Hnet & Hfail)%extract_image_status. by exists url, w1.
  - intros [= -> ->]. by apply exchange_no_status in Hex.
Qed.

(** X10.  A successful answer that does not have the expected shape,
    a JSON object with a [data] array that starts with an object,
    ends the call at once, without any further request: either with
    [None] and the line about the format, or with one of four
    exceptions, which nothing catches.  A body that is not JSON raises
    [JSONDecodeError]; a body that is JSON [null], a boolean or a
    number raises [TypeError]. *)
Theorem unexpected_answer_ends_the_call api_key prompt size quality w r w1 :
  exchange (auth_headers api_key) (primary_payload model prompt size quality)
    (push w [EPrint ("  Calling " +:+ model +:+ " (" +:+ size +:+ ", " +:+ quality
                     +:+ ")...")]) = (Ok (Some r), w1) →
  (∀ kvs fields rest,
     json_body r = Some (JObj kvs) →
     dict_get "data" kvs ≠ Some (JArr (JObj fields :: rest))) →
  (generate api_key prompt size quality w
     = (Ok None, push w1 [EPrint "  Unexpected response format"]) ∨
   ∃ e, generate api_key prompt size quality w = (Raise e, w1) ∧
        (e = JSONDecodeError ∨ e = TypeError ∨ e = KeyError ∨ e = IndexError)) ∧
  (json_body r = None →
     generate api_key prompt size quality w = (Raise JSONDecodeError, w1)) ∧
  (json_body r = Some JNull ∨ (∃ b, json_body r = Some (JBool b)) ∨
   (∃ n, json_body r = Some (JNum n)) →
     generate api_key prompt size quality w = (Raise TypeError, w1)).
Proof.
  intros Hex Hshape. rewrite generate_run. cbn zeta. rewrite Hex.
  split; [|split].
  - destruct (extract_image_shapes E r w1)
      as [(kvs & fields & rest & Hjson & Hdata & _) | Hplain]; [|done].
    by destruct (Hshape kvs fields rest).
  - intros Hjson. unfold extract_image, response_json, bind. by rewrite Hjson.
  - intros Hjson. unfold extract_image, response_json, bind, lift.
    by destruct Hjson as [-> | [[b ->] | [n ->]]].
Qed.
End Provenance.
(** * A turn saved by the fallback *)

(** X11.  An image obtained from the fallback model is saved and
    counted like any other: when the first request is refused with an
    error status and the second is answered with an inline image that
    opens, the turn writes the file, adds one to the count and has sent
    exactly these two requests. *)
Theorem fallback_image_is_saved
    E api_key c output_dir variations quality size count i w e r data dims :
  let target := output_dir ++ [GenerateLogo.filename_of i] in
  let prompt := GenerateLogo.prompt c +:+ GenerateLogo.variation_suffix i in
  let first := GenerateLogo.primary_request api_key prompt size quality in
  let second := GenerateLogo.fallback_request api_key prompt size quality in
  fs w !! target = None →
  dirs_to (fs w) output_dir →
  net E (calls w) first = Responded e → is_success e = false →
  net E (S (calls w)) second = Responded r →
  carries_inline E r data → data ≠ [] → image_open E data = Some dims →
  GenerateLogo.run_variation E api_key c output_dir variations quality size count i w
  = (Ok (count + 1),
     mkWorld (<[target := File data]> (fs w))
       (trace w ++ [GenerateLogo.generating_line variations i;
                    GenerateLogo.calling_line size quality;
                    ESend first;
                    EPrint (status_line "  API error (" e);
                    EPrint "  Trying fallback model: dall-e-3...";
                    ESend second;
                    saved_line target dims]
                ++ GenerateLogo.pause variations i)).
Proof.
  intros target prompt first second Hmissing Hdirs Hfirst Hfail Hsecond
    (Hok & kvs & fields & rest & payload & Hjson & Hdata & Hb64 & Hdec) Hne Hopen.
  rewrite turn_generate by done. unfold GenerateLogo.generate_image.
  rewrite (generate_refused E MODEL FALLBACK_MODEL (120 # 1) _ _ api_key prompt size
             quality _ e); try done.
  2:{ rewrite calls_push. cbn [requests omap length]. by rewrite Nat.add_0_r. }
  cbn zeta. rewrite calls_push. cbn [requests omap length]. rewrite Nat.add_0_r.
  fold second. unfold GenerateLogo.fallback_request in second. fold second.
  rewrite Hsecond, Hok.
  rewrite (extract_image_first_item E r kvs fields rest) by done.
  unfold first_item_outcome. rewrite Hb64, Hdec.
  assert (truthy (Some data) = Some data) as -> by (by destruct data).
  unfold GenerateLogo.save_image.
  rewrite (persist_run E data target _ (fs w)).
  - rewrite Hopen. unfold push. cbn [fs trace]. f_equal. f_equal.
    rewrite <-!app_assoc. reflexivity.
  - unfold target. by destruct output_dir.
  - cbn [fs push]. by rewrite Hmissing.
  - cbn [fs push]. unfold target. rewrite parent_app_part. by apply mkdir_walk_idem.
Qed.
(** * The two [main] *)

Section LogoMain.
Variable E : environment.
Variable prompt_text : Z → string.

Lemma run_concept_count api_key concept_id variations quality size base_dir w n w' :
  GenerateLogo.run_concept E prompt_text api_key concept_id variations quality size
    base_dir w = (Ok n, w') →
  0 ≤ n ≤ Z.max 0 variations.
Proof.
  intros Hrun.
  destruct (decide (1 ≤ concept_id ≤ 4)) as [Hcid|Hcid];
    [|by rewrite run_concept_unknown in Hrun].
  destruct (run_concept_run E prompt_text api_key variations quality size base_dir
              concept_id w Hcid) as (c & dir & _ & _ & Hform).
  rewrite Hform in Hrun. destruct (mkdir _ w) as [[[]|e] w1]; [|done].
  apply for_each_count in Hrun; [|apply turn_counts].
  rewrite length_py_range in Hrun. lia.
Qed.

Lemma run_all_totals api_key a base_dir cids s0 a0 w s att w' :
  for_each cids (GenerateLogo.run_all E prompt_text api_key a base_dir) (s0, a0) w
    = (Ok (s, att), w') →
  att = a0 + Z.of_nat (length cids) * GenerateLogo.arg_variations a ∧
  s0 ≤ s ≤ s0 + Z.of_nat (length cids) * Z.max 0 (GenerateLogo.arg_variations a).
Proof.
  revert s0 a0 w. induction cids as [|cid cids IH]; intros s0 a0 w.
  - intros [= <- <- _]. simpl. lia.
  - cbn [for_each]. unfold bind at 1. unfold GenerateLogo.run_all at 1. unfold bind at 1.
    destruct (GenerateLogo.run_concept _ _ _ _ _ _ _ _ _) as [[n|e] w1] eqn:Hrun; [|done].
    apply run_concept_count in Hrun. cbn [ret fst snd].
    intros [-> Hs]%IH. simpl length. split; [lia|]. nia.
Qed.

(** [main] when it comes to the loop over the concepts. *)
Lemma logo_main_run a api_key base_dir w :
  GenerateLogo.arg_list a = false →
  is_Some (GenerateLogo.chosen a) ∨ GenerateLogo.arg_all a = true →
  api_key ≠ "" →
  GenerateLogo.main E prompt_text a (Some api_key) base_dir w =
  match for_each (GenerateLogo.concepts_to_run a)
          (GenerateLogo.run_all E prompt_text api_key a base_dir) (0, 0) w with
  | (Ok totals, w1) =>
      (Ok (Some totals), push w1 (GenerateLogo.done_lines (fst totals) (snd totals)))
  | (Raise e, w1) => (Raise e, w1)
  end.
Proof.
  intros Hlist Hsel Hkey. unfold GenerateLogo.main. rewrite Hlist.
  assert (credential (Some api_key) = Some api_key) as -> by (by destruct api_key).
  assert (∀ X (x y : X),
            match GenerateLogo.chosen a, GenerateLogo.arg_all a with
            | None, false => x
            | _, _ => y
            end = y) as ->.
  { intros X x y. destruct Hsel as [[c ->] | ->]; [done|].
    by destruct (GenerateLogo.chosen a). }
  unfold bind.
  destruct (for_each _ _ _ _) as [[totals|e] w1]; [|done].
  unfold print, emit, ret. by rewrite !push_push.
Qed.
End LogoMain.

(** X12.  The totals of generate_logo.py.  When [main] returns its two
    totals, they are the ones of its last lines; the second is the
    number of concepts times [--variations] as it was given, the first
    lies between zero and the number of concepts times the number of
    turns made, so that it is above the second when [--variations] is
    negative.  With [--variations] at zero or below no request is
    sent. *)
Theorem logo_totals E prompt_text a key base_dir w :
  let concepts := Z.of_nat (length (GenerateLogo.concepts_to_run a)) in
  let variations := GenerateLogo.arg_variations a in
  (∀ s att w',
     GenerateLogo.main E prompt_text a key base_dir w = (Ok (Some (s, att)), w') →
     att = concepts * variations ∧
     0 ≤ s ≤ concepts * Z.max 0 variations ∧
     ∃ w1, w' = push w1 (GenerateLogo.done_lines s att)) ∧
  (variations ≤ 0 →
     requests (trace (snd (GenerateLogo.main E prompt_text a key base_dir w)))
     = requests (trace w)).
Proof.
  intros concepts variations. split.
  - intros s att w' Hmain.
    destruct (GenerateLogo.arg_list a) eqn:Hlist.
    { unfold GenerateLogo.main in Hmain. rewrite Hlist in Hmain. unfold bind in Hmain.
      by destruct (for_each _ _ _ _) as [[[]|e] w1]. }
    assert (is_Some (GenerateLogo.chosen a) ∨ GenerateLogo.arg_all a = true) as Hsel.
    { unfold GenerateLogo.main in Hmain. rewrite Hlist in Hmain.
      destruct (GenerateLogo.chosen a) as [c|]; [left; eauto|].
      destruct (GenerateLogo.arg_all a); [by right|done]. }
    assert (∃ api_key, key = Some api_key ∧ api_key ≠ "") as (api_key & -> & Hkey).
    { unfold GenerateLogo.main in Hmain. rewrite Hlist in Hmain.
      destruct key as [[|c k]|]; [| by eexists |];
        destruct (GenerateLogo.chosen a), (GenerateLogo.arg_all a); done. }
    rewrite logo_main_run in Hmain by done.
    destruct (for_each _ _ _ _) as [[[s' att']|e] w1] eqn:Hloop; [|done].
    injection Hmain as -> -> <-.
    apply run_all_totals in Hloop as [-> Hs].
    split; [subst concepts variations; lia|]. split; [subst concepts variations; lia|].
    by exists w1.
  - intros Hv.
    destruct (logo_main_costs E prompt_text a key base_dir w) as (t & -> & Hlen).
    replace (Z.to_nat (GenerateLogo.arg_variations a)) with 0%nat in Hlen
      by (subst variations; lia).
    rewrite requests_app.
    destruct (requests t); [by rewrite app_nil_r|]. simpl in Hlen. lia.
Qed.

Lemma turn_emits_any E api_key c output_dir variations quality size count i :
  respects (emits_only (λ _, true))
    (GenerateLogo.run_variation E api_key c output_dir variations quality size count i).
Proof.
  unfold GenerateLogo.run_variation, GenerateLogo.save_image, GenerateLogo.generate_image,
    generate_image_with, request_with_fallback, fallback_attempt, post_checked,
    extract_image, unexpected_format, response_json, py_b64decode, download,
    raise_for_status, persist, py_image_open, print, sleep.
  respects_auto.
Qed.

(** X13.  An unknown concept number ends [run_concept] with
    [KeyError] before anything is printed, sent or created.  For one of
    the four concepts the directory is made first: when that fails the
    call ends with the file system's error and nothing else done,
    otherwise the banner is the first thing printed and the directory
    exists from then on. *)
Theorem concept_lookup E prompt_text api_key cid variations quality size base_dir w :
  let run := GenerateLogo.run_concept E prompt_text api_key cid variations quality size
               base_dir w in
  (¬ (1 ≤ cid ≤ 4) → run = (Raise KeyError, w)) ∧
  (1 ≤ cid ≤ 4 →
     ∃ c dir,
       List.In (cid, c) (GenerateLogo.CONCEPT_PROMPTS prompt_text) ∧
       List.In (cid, dir) GenerateLogo.CONCEPT_DIRS ∧
       let output_dir := path_join base_dir dir in
       match mkdir_walk [] output_dir (fs w) with
       | Ok m =>
           dirs_to (fs (snd run)) output_dir ∧
           ∃ t, trace (snd run)
                = trace w ++ GenerateLogo.banner cid (GenerateLogo.name c) output_dir
                               variations ++ t
       | Raise e =>
           run = (Raise e, w) ∧ (e = FileExistsError ∨ e = NotADirectoryError)
       end).
Proof.
  intros run. split; [apply run_concept_unknown|].
  intros Hcid.
  destruct (run_concept_run E prompt_text api_key variations quality size base_dir
              cid w Hcid) as (c & dir & Hc & Hdir & Hrun).
  exists c, dir. split; [done|]. split; [done|]. cbn zeta.
  subst run. rewrite Hrun. unfold mkdir.
  destruct (mkdir_walk [] (path_join base_dir dir) (fs w)) as [m|e] eqn:Hwalk.
  - set (w0 := push _ _).
    pose proof (respects_for_each keeps_fs (py_range 1 (variations + 1))
                  (GenerateLogo.run_variation E api_key c (path_join base_dir dir)
                     variations quality size) 0
                  (λ s y, turn_keeps E api_key c _ variations quality size s y) w0)
      as Hkeeps.
    pose proof (respects_for_each (emits_only (λ _, true)) (py_range 1 (variations + 1))
                  (GenerateLogo.run_variation E api_key c (path_join base_dir dir)
                     variations quality size) 0) as Hemits.
    destruct (Hemits (λ s y, turn_emits_any E api_key c _ variations quality size s y) w0)
      as (t & Ht & _).
    split.
    + eapply dirs_to_keeps; [exact Hkeeps|]. by eapply mkdir_walk_dirs_to.
    + exists t. rewrite Ht. unfold w0, push. cbn [trace]. by rewrite <-app_assoc.
  - split; [done|].
    clear -Hwalk. revert Hwalk. generalize (fs w). generalize (@nil string).
    induction (path_join base_dir dir) as [|part rest IH]; intros above m; [done|].
    simpl. destruct (m !! (above ++ [part])) as [[data|]|].
    + intros [= <-]. destruct rest; auto.
    + apply IH.
    + apply IH.
Qed.

(** X14.  [--list] needs neither a selection nor the credential, the
    network or the file system: for each of the four concepts, in
    order, it prints the name, the directory, the length of the prompt
    and the first 200 characters of the prompt followed by three dots,
    and returns.  Length and cut are counted in characters (code
    points) of the prompt, not in bytes. *)
Theorem list_needs_nothing E prompt_text points a key base_dir w :
  GenerateLogo.arg_list a = true →
  (∀ cid, prompt_text cid = utf8 (points cid)) →
  GenerateLogo.main E prompt_text a key base_dir w
  = (Ok None,
     push w (listing 1 "The Kiln Mark" "concepts/01-kiln-mark" (points 1)
             ++ listing 2 "Earthen Strata" "concepts/02-earthen-strata" (points 2)
             ++ listing 3 "The Winding Path" "concepts/03-winding-path" (points 3)
             ++ listing 4 "The Vermillion Leaf" "concepts/04-vermillion-leaf" (points 4))).
Proof.
  intros Hlist Hpoints. unfold GenerateLogo.main. rewrite Hlist.
  unfold GenerateLogo.CONCEPT_PROMPTS. cbn [for_each].
  unfold GenerateLogo.list_concept, GenerateLogo.lookup_int, bind, print, emit, ret.
  cbn [List.find fst snd GenerateLogo.CONCEPT_DIRS Z.eqb Pos.eqb
       GenerateLogo.name GenerateLogo.prompt].
  rewrite !push_push, !Hpoints, !str_len_utf8, !str_take_utf8. reflexivity.
Qed.

(** X15.  What the scripts refuse.  generate_logo.py without
    [--concept] and without [--all] prints its help and ends with
    status 1, whatever the credential; with a selection but with the
    credential unset or empty, either script ends with status 1 after
    its message.  In each case nothing is sent and the file system is
    not touched, not even to make the output directory. *)
Theorem refusals_touch_nothing E w :
  (∀ prompt_text a key base_dir,
     GenerateLogo.arg_list a = false →
     GenerateLogo.arg_concept a = None → GenerateLogo.arg_all a = false →
     GenerateLogo.main E prompt_text a key base_dir w
     = (Raise (SystemExit 1),
        push w [EPrintHelp; EPrint (nl +:+ "Error: specify --concept N or --all")])) ∧
  (∀ prompt_text a key base_dir,
     GenerateLogo.arg_list a = false →
     is_Some (GenerateLogo.chosen a) ∨ GenerateLogo.arg_all a = true →
     key = None ∨ key = Some "" →
     GenerateLogo.main E prompt_text a key base_dir w
     = (Raise (SystemExit 1),
        push w [EPrint "Error: OPENAI_API_KEY environment variable not set";
                EPrint "Usage: OPENAI_API_KEY='sk-...' python3 generate_logo.py --concept 1"])) ∧
  (∀ prompt_text argv key script_dir,
     key = None ∨ key = Some "" →
     GenerateRound3.main E prompt_text argv key script_dir w
     = (Raise (SystemExit 1), push w [EPrint "Error: OPENAI_API_KEY not set"])).
Proof.
  split; [|split].
  - intros prompt_text a key base_dir Hlist Hconcept Hall.
    unfold GenerateLogo.main, GenerateLogo.chosen. rewrite Hlist, Hconcept, Hall.
    unfold bind, print, emit, raise. by rewrite push_push.
  - intros prompt_text a key base_dir Hlist Hsel Hkey.
    unfold GenerateLogo.main. rewrite Hlist.
    assert (credential key = None) as -> by (by destruct Hkey as [-> | ->]).
    unfold bind, print, emit, raise.
    destruct Hsel as [[c ->] | ->];
      [destruct (GenerateLogo.arg_all a)|destruct (GenerateLogo.chosen a)];
      by rewrite push_push.
  - intros prompt_text argv key script_dir Hkey.
    unfold GenerateRound3.main.
    by assert (credential key = None) as -> by (by destruct Hkey as [-> | ->]).
Qed.

(** * Where the key goes *)

Ltac to_api_leaf :=
  first
    [ apply emit_emits; reflexivity
    | apply send_emits; first [reflexivity | by apply bool_decide_eq_true_2]
    | apply path_exists_emits | apply mkdir_emits | apply write_bytes_emits ].

Lemma generate_to_api E model fallback_model post_timeout trying failed api_key prompt size
    quality :
  respects (emits_only (to_api_with api_key))
    (generate_image_with E model fallback_model post_timeout trying failed api_key prompt
       size quality).
Proof.
  unfold generate_image_with, request_with_fallback, fallback_attempt, post_checked,
    extract_image, unexpected_format, response_json, py_b64decode, download,
    raise_for_status, print.
  repeat (to_api_leaf || respects_step).
Qed.

Lemma persist_to_api E api_key data p :
  respects (emits_only (to_api_with api_key)) (persist E data p).
Proof.
  unfold persist, py_image_open, print. repeat (to_api_leaf || respects_step).
Qed.

Lemma logo_main_to_api E prompt_text a api_key base_dir :
  api_key ≠ "" →
  respects (emits_only (to_api_with api_key))
    (GenerateLogo.main E prompt_text a (Some api_key) base_dir).
Proof.
  intros Hkey. unfold GenerateLogo.main.
  assert (credential (Some api_key) = Some api_key) as -> by (by destruct api_key).
  unfold GenerateLogo.run_all, GenerateLogo.run_concept, GenerateLogo.run_variation,
    GenerateLogo.save_image, GenerateLogo.generate_image, GenerateLogo.list_concept,
    GenerateLogo.lookup_int, print, sleep.
  repeat (apply generate_to_api || apply persist_to_api || to_api_leaf || respects_step).
Qed.

Lemma round3_main_to_api E prompt_text argv api_key script_dir :
  api_key ≠ "" →
  respects (emits_only (to_api_with api_key))
    (GenerateRound3.main E prompt_text argv (Some api_key) script_dir).
Proof.
  intros Hkey. unfold GenerateRound3.main.
  assert (credential (Some api_key) = Some api_key) as -> by (by destruct api_key).
  cbn zeta.
  assert (∀ total success entry,
            respects (emits_only (to_api_with api_key))
              (GenerateRound3.run_key E prompt_text api_key
                 (GenerateRound3.OUTPUT_DIR script_dir) total success entry)) as Hturn.
  { intros total success [i key].
    unfold GenerateRound3.run_key, GenerateRound3.generate_image,
      GenerateRound3.lookup_str, print, sleep.
    repeat (apply generate_to_api || apply persist_to_api || to_api_leaf || respects_step). }
  unfold print.
  repeat (apply Hturn || to_api_leaf || respects_step).
Qed.

Lemma to_api_posts api_key t url headers body timeout :
  forallb (to_api_with api_key) t = true →
  ESend (POST url headers body timeout) ∈ t →
  url = API_URL ∧ headers = [("Authorization"%string, "Bearer " +:+ api_key)].
Proof.
  intros Hall Hin. rewrite forallb_forall in Hall.
  apply list_elem_of_In, Hall in Hin. simpl in Hin.
  by apply bool_decide_eq_true in Hin.
Qed.

(** X16.  Where the key is posted: every request that a run of
    either script posts goes to [API_URL] and carries the key in its
    one header, [Authorization: Bearer <key>]. *)
Theorem key_goes_to_the_api_only E api_key :
  api_key ≠ "" →
  (∀ prompt_text a base_dir w,
     ∃ t, trace (snd (GenerateLogo.main E prompt_text a (Some api_key) base_dir w))
            = trace w ++ t ∧
          ∀ url headers body timeout,
            ESend (POST url headers body timeout) ∈ t →
            url = API_URL ∧ headers = [("Authorization"%string, "Bearer " +:+ api_key)]) ∧
  (∀ prompt_text argv script_dir w,
     ∃ t, trace (snd (GenerateRound3.main E prompt_text argv (Some api_key) script_dir w))
            = trace w ++ t ∧
          ∀ url headers body timeout,
            ESend (POST url headers body timeout) ∈ t →
            url = API_URL ∧ headers = [("Authorization"%string, "Bearer " +:+ api_key)]).
Proof.
  intros Hkey. split.
  - intros prompt_text a base_dir w.
    destruct (logo_main_to_api E prompt_text a api_key base_dir Hkey w) as (t & Ht & Hall).
    exists t. split; [done|]. intros. by eapply to_api_posts.
  - intros prompt_text argv script_dir w.
    destruct (round3_main_to_api E prompt_text argv api_key script_dir Hkey w)
      as (t & Ht & Hall).
    exists t. split; [done|]. intros. by eapply to_api_posts.
Qed.
(** * The statements at work on the scenarios *)


Lemma fallback_exactly_once_witness :
  GenerateLogo.generate_image Scenario.verbose "sk-test" "P" "1024x1024" "high" Scenario.fresh
  = (Ok None,
     push Scenario.fresh
       [EPrint "  Calling gpt-image-1 (1024x1024, high)...";
        ESend (GenerateLogo.primary_request "sk-test" "P" "1024x1024" "high");
        EPrint ("  API error (500): " +:+ utf8 (take 300 Scenario.long_body));
        EPrint "  Trying fallback model: dall-e-3...";
        ESend (GenerateLogo.fallback_request "sk-test" "P" "1024x1024" "high");
        EPrint ("  Fallback also failed (500): " +:+ utf8 (take 300 Scenario.long_body))]) ∧
  length Scenario.long_body = 311%nat ∧
  String.length (utf8 (take 300 Scenario.long_body)) = 302%nat.
Proof.
  split; [|split; reflexivity].
  destruct (fallback_exactly_once Scenario.verbose MODEL FALLBACK_MODEL (120 # 1)
              "  Trying fallback model: " "  Fallback also failed ("
              "sk-test" "P" "1024x1024" "high" Scenario.fresh Scenario.long_error_answer
              eq_refl eq_refl) as (_ & Hdiffer & _ & Hnames).
  destruct (Hdiffer Hnames) as (_ & _ & Hlines).
  exact (Hlines Scenario.long_error_answer Scenario.long_body Scenario.long_body
           eq_refl eq_refl eq_refl eq_refl).
Defined.

Lemma variation_hint_rotation_witness :
  ∃ sent,
    (2 ≤ 7 → ∃ hint, GenerateLogo.variation_hints !! 0%nat = Some hint ∧
                     sent = "P" +:+ hint).
Proof.
  destruct (variation_hint_rotation Scenario.healthy "sk-test" Scenario.kiln
              Scenario.kiln_dir 7 "high" "1024x1024" 0 7 Scenario.fresh
              ltac:(lia) eq_refl) as (sent & rest & _ & _ & _ & Hhint & _).
  exists sent. exact Hhint.
Defined.

Lemma existing_file_is_skipped_witness :
  ∃ w',
    GenerateLogo.main Scenario.healthy Scenario.texts Scenario.one_concept (Some "sk-test")
      Scenario.base_dir Scenario.resumed
    = (Ok (Some (3, 3)),
       push w' [EPrint (nl +:+ str_repeat 60 "=");
                EPrint "DONE: 3/3 images generated successfully";
                EPrint (str_repeat 60 "=")]) ∧
    length (requests (trace w')) = 2%nat.
Proof.
  destruct existing_file_is_skipped as (_ & _ & Hresume).
  destruct (Hresume Scenario.healthy Scenario.texts "sk-test" "high" "1024x1024"
              Scenario.base_dir 1 Scenario.kiln "concepts/01-kiln-mark" Scenario.resumed
              Scenario.inline_answer Scenario.inline_answer Scenario.png Scenario.png
              (1024, 1024) (1024, 1024)) as (w' & Hmain & Hreq & _).
  - discriminate.
  - simpl. auto.
  - simpl. auto.
  - intros k Hk. do 5 (destruct k as [|k]; [first [simpl in Hk; lia | reflexivity]|]).
    simpl in Hk. lia.
  - eexists. reflexivity.
  - reflexivity.
  - reflexivity.
  - reflexivity.
  - split; [reflexivity|]. eexists _, _, _, _. repeat split; reflexivity.
  - discriminate.
  - reflexivity.
  - reflexivity.
  - split; [reflexivity|]. eexists _, _, _, _. repeat split; reflexivity.
  - discriminate.
  - reflexivity.
  - exists w'. split; [exact Hmain|]. rewrite Hreq. reflexivity.
Defined.

Lemma rerun_sends_nothing_witness :
  ∃ w2,
    GenerateLogo.run_concept Scenario.failing Scenario.texts "sk-test" 1 3 "high" "1024x1024"
      Scenario.base_dir
      (mkWorld (fs (snd (GenerateLogo.run_concept Scenario.healthy Scenario.texts "sk-test"
                           1 3 "high" "1024x1024" Scenario.base_dir Scenario.fresh))) [])
    = (Ok 3, w2) ∧
    fs w2 = fs (snd (GenerateLogo.run_concept Scenario.healthy Scenario.texts "sk-test"
                       1 3 "high" "1024x1024" Scenario.base_dir Scenario.fresh)) ∧
    requests (trace w2) = requests [].
Proof.
  apply (rerun_sends_nothing Scenario.healthy Scenario.failing Scenario.texts "sk-test" 1 3
           "high" "1024x1024" Scenario.base_dir Scenario.fresh).
  vm_compute. reflexivity.
Defined.

Lemma output_path_is_deterministic_witness :
  path_str (path_join (path_join Scenario.base_dir "concepts/01-kiln-mark")
              (GenerateLogo.filename_of 7))
  = "srv/vermillion/concepts/01-kiln-mark/v07.png".
Proof.
  destruct output_path_is_deterministic as (Hlogo & _).
  destruct (Hlogo Scenario.base_dir 1 "concepts/01-kiln-mark" 7) as [_ Hstr].
  - simpl. auto.
  - rewrite Hstr; [reflexivity|discriminate|discriminate].
Defined.


Lemma generate_image_first_item_witness :
  GenerateLogo.generate_image Scenario.healthy "sk-test" "P" "1024x1024" "high" Scenario.fresh
  = (Ok (Some Scenario.png),
     push Scenario.fresh
       [GenerateLogo.calling_line "1024x1024" "high";
        GenerateLogo.first_request "sk-test" "P" "1024x1024" "high"]).
Proof.
  destruct (generate_image_first_item Scenario.healthy MODEL FALLBACK_MODEL (120 # 1)
              "  Trying fallback model: " "  Fallback also failed ("
              "sk-test" "P" "1024x1024" "high" Scenario.fresh Scenario.inline_answer
              (push Scenario.fresh
                 [GenerateLogo.calling_line "1024x1024" "high";
                  GenerateLogo.first_request "sk-test" "P" "1024x1024" "high"])
              [("created"%string, JNum 1700000000);
               ("data"%string, JArr [JObj [("b64_json"%string, JStr "iVBORw==")]])]
              [("b64_json"%string, JStr "iVBORw==")] []
              eq_refl eq_refl eq_refl) as (_ & _ & Hrun).
  exact Hrun.
Defined.

Lemma success_count_invariant_witness : 0 ≤ 3 ≤ Z.max 0 3.
Proof.
  destruct success_count_invariant as (_ & _ & _ & _ & Hrun & _).
  apply (Hrun Scenario.healthy Scenario.texts "sk-test" 1 3 "high" "1024x1024"
           Scenario.base_dir Scenario.fresh 3
           (snd (GenerateLogo.run_concept Scenario.healthy Scenario.texts "sk-test" 1 3
                   "high" "1024x1024" Scenario.base_dir Scenario.fresh))).
  vm_compute. reflexivity.
Defined.

Lemma persist_writes_before_validation_witness :
  fs (snd (persist Scenario.garbled Scenario.png (Scenario.kiln_dir ++ ["v01.png"])
             Scenario.fresh)) !! (Scenario.kiln_dir ++ ["v01.png"])
  = Some (File Scenario.png) ∧
  fst (persist Scenario.garbled Scenario.png (Scenario.kiln_dir ++ ["v01.png"])
         Scenario.fresh) = Raise UnidentifiedImageError.
Proof.
  destruct (persist_writes_before_validation Scenario.garbled Scenario.png
              (Scenario.kiln_dir ++ ["v01.png"]) Scenario.fresh
              (fs (snd (mkdir Scenario.kiln_dir Scenario.fresh))))
    as (Hfile & _ & Hraise & _).
  - discriminate.
  - discriminate.
  - vm_compute. reflexivity.
  - split; [exact Hfile|]. rewrite (Hraise eq_refl). reflexivity.
Defined.

(** * Further statements at work on the scenarios *)

Lemma existing_files_are_kept_witness :
  fs (snd (GenerateLogo.main Scenario.healthy Scenario.texts Scenario.one_concept
             (Some "sk-test") Scenario.base_dir Scenario.resumed))
    !! (Scenario.kiln_dir ++ ["v01.png"])
  = Some (File Scenario.png).
Proof.
  apply (proj1 existing_files_are_kept). vm_compute. reflexivity.
Defined.

Lemma fresh_run_saves_every_variation_witness :
  ∃ w',
    GenerateLogo.run_concept Scenario.healthy Scenario.texts "sk-test" 1 3 "high"
      "1024x1024" Scenario.base_dir Scenario.fresh = (Ok (Z.max 0 3), w') ∧
    length (requests (trace w')) = 3%nat.
Proof.
  destruct (fresh_run_saves_every_variation Scenario.healthy Scenario.texts "sk-test" "high"
              "1024x1024" Scenario.base_dir 1 Scenario.kiln "concepts/01-kiln-mark" 3
              Scenario.fresh (fs (snd (mkdir Scenario.kiln_dir Scenario.fresh))))
    as (w' & Hrun & Hreq & _).
  - simpl. auto.
  - simpl. auto.
  - intros n r. exists Scenario.inline_answer, Scenario.png, (1024, 1024).
    split; [reflexivity|]. split; [|split; [discriminate|reflexivity]].
    split; [reflexivity|]. eexists _, _, _, _. repeat split; reflexivity.
  - vm_compute. reflexivity.
  - intros i Hi. apply lookup_empty.
  - exists w'. split; [exact Hrun|]. rewrite Hreq. reflexivity.
Defined.

Lemma round3_rerun_sends_nothing_witness :
  ∃ w2,
    GenerateRound3.main Scenario.offline Scenario.prompts ["generate_round3.py"; "r3-01"]
      (Some "sk-other") Scenario.base_dir (mkWorld (fs (snd Scenario.round3_run)) [])
    = (Ok (1, 1), w2) ∧
    fs w2 = fs (snd Scenario.round3_run) ∧
    requests (trace w2) = requests [].
Proof.
  apply (round3_rerun_sends_nothing Scenario.healthy Scenario.offline Scenario.prompts
           Scenario.prompts ["generate_round3.py"; "r3-01"] (Some "sk-test") "sk-other"
           Scenario.base_dir Scenario.fresh (snd Scenario.round3_run) [] 1).
  - vm_compute. reflexivity.
  - discriminate.
Defined.

Lemma selection_by_arguments_witness :
  count_occ string_dec
    (GenerateRound3.keys_to_run ["generate_round3.py"; "r3-01"; "wordmark"])
    "r3-01-brick-wordmark" = 2%nat.
Proof.
  destruct (selection_by_arguments "generate_round3.py" "r3-01" ["wordmark"])
    as (_ & _ & Hcount & _).
  rewrite (Hcount "r3-01-brick-wordmark"); [reflexivity|].
  apply list_elem_of_here.
Defined.

Lemma no_match_runs_nothing_witness :
  GenerateRound3.main Scenario.healthy Scenario.prompts ["generate_round3.py"; "r4"]
    (Some "sk-test") Scenario.base_dir Scenario.fresh
  = (Ok (0, 0),
     mkWorld (fs (snd (mkdir (GenerateRound3.OUTPUT_DIR Scenario.base_dir) Scenario.fresh)))
       (trace Scenario.fresh
        ++ GenerateRound3.done_lines 0 0 (GenerateRound3.OUTPUT_DIR Scenario.base_dir))).
Proof.
  apply (no_match_runs_nothing Scenario.healthy Scenario.prompts
           ["generate_round3.py"; "r4"] "sk-test" Scenario.base_dir Scenario.fresh).
  - discriminate.
  - reflexivity.
  - vm_compute. reflexivity.
Defined.

Lemma returned_bytes_provenance_witness :
  ∃ r,
    net Scenario.healthy (calls Scenario.fresh)
      (GenerateLogo.primary_request "sk-test" "P" "1024x1024" "high") = Responded r ∧
    is_success r = true.
Proof.
  destruct (returned_bytes_provenance Scenario.healthy MODEL FALLBACK_MODEL (120 # 1)
              "  Trying fallback model: " "  Fallback also failed ("
              "sk-test" "P" "1024x1024" "high" Scenario.fresh Scenario.png
              (snd (GenerateLogo.generate_image Scenario.healthy "sk-test" "P" "1024x1024"
                      "high" Scenario.fresh)))
    as (r & kvs & fields & rest & Horigin & Hok & _).
  - vm_compute. reflexivity.
  - exists r. split; [|exact Hok].
    destruct Horigin as [Hfirst | (e & Hfirst & Hfail & _)]; [exact Hfirst|].
    vm_compute in Hfirst. injection Hfirst as <-. discriminate Hfail.
Defined.

Lemma api_status_never_escapes_witness :
  ∃ url w1,
    snd (GenerateLogo.generate_image Scenario.expired "sk-test" "P" "1024x1024" "high"
           Scenario.fresh) = push w1 [ESend (GET url (60 # 1))] ∧
    net Scenario.expired (calls w1) (GET url (60 # 1)) = Responded Scenario.error_answer ∧
    is_success Scenario.error_answer = false.
Proof.
  apply (api_status_never_escapes Scenario.expired MODEL FALLBACK_MODEL (120 # 1)
           "  Trying fallback model: " "  Fallback also failed ("
           "sk-test" "P" "1024x1024" "high" Scenario.fresh).
  vm_compute. reflexivity.
Defined.

Lemma unexpected_answer_ends_the_call_witness :
  GenerateLogo.generate_image Scenario.proxy "sk-test" "P" "1024x1024" "high" Scenario.fresh
  = (Raise JSONDecodeError,
     push Scenario.fresh
       [GenerateLogo.calling_line "1024x1024" "high";
        GenerateLogo.first_request "sk-test" "P" "1024x1024" "high"]).
Proof.
  destruct (unexpected_answer_ends_the_call Scenario.proxy MODEL FALLBACK_MODEL (120 # 1)
              "  Trying fallback model: " "  Fallback also failed ("
              "sk-test" "P" "1024x1024" "high" Scenario.fresh Scenario.html_answer
              (push Scenario.fresh
                 [GenerateLogo.calling_line "1024x1024" "high";
                  GenerateLogo.first_request "sk-test" "P" "1024x1024" "high"]))
    as (_ & Hbody & _).
  - vm_compute. reflexivity.
  - intros kvs fields rest Hjson. discriminate Hjson.
  - exact (Hbody eq_refl).
Defined.

Lemma no_empty_file_is_written_witness :
  GenerateLogo.run_variation Scenario.hollow "sk-test" Scenario.kiln Scenario.kiln_dir 3
    "high" "1024x1024" 0 1 Scenario.fresh
  = (Ok 0,
     push Scenario.fresh
       ([GenerateLogo.generating_line 3 1;
         GenerateLogo.calling_line "1024x1024" "high";
         GenerateLogo.first_request "sk-test" "P" "1024x1024" "high";
         GenerateLogo.failed_line 1]
        ++ GenerateLogo.pause 3 1)).
Proof.
  destruct no_empty_file_is_written as (_ & _ & Hturn).
  apply (Hturn Scenario.hollow "sk-test" Scenario.kiln Scenario.kiln_dir 3 "high"
           "1024x1024" 0 1 Scenario.fresh Scenario.empty_answer).
  - reflexivity.
  - reflexivity.
  - split; [reflexivity|]. eexists _, _, _, _. repeat split; reflexivity.
Defined.

Lemma fallback_image_is_saved_witness :
  fst (GenerateLogo.run_variation Scenario.recovering "sk-test" Scenario.kiln
         Scenario.kiln_dir 3 "high" "1024x1024" 1 2 Scenario.resumed) = Ok (1 + 1) ∧
  fs (snd (GenerateLogo.run_variation Scenario.recovering "sk-test" Scenario.kiln
             Scenario.kiln_dir 3 "high" "1024x1024" 1 2 Scenario.resumed))
    !! (Scenario.kiln_dir ++ ["v02.png"]) = Some (File Scenario.png).
Proof.
  rewrite (fallback_image_is_saved Scenario.recovering "sk-test" Scenario.kiln
             Scenario.kiln_dir 3 "high" "1024x1024" 1 2 Scenario.resumed
             Scenario.error_answer Scenario.inline_answer Scenario.png (1024, 1024)).
  - split; [reflexivity|]. apply lookup_insert_eq.
  - reflexivity.
  - intros k Hk. do 5 (destruct k as [|k]; [first [simpl in Hk; lia | reflexivity]|]).
    simpl in Hk. lia.
  - reflexivity.
  - reflexivity.
  - reflexivity.
  - split; [reflexivity|]. eexists _, _, _, _. repeat split; reflexivity.
  - discriminate.
  - reflexivity.
Defined.

Lemma logo_totals_witness :
  ∃ w1,
    snd (GenerateLogo.main Scenario.healthy Scenario.texts Scenario.one_concept
           (Some "sk-test") Scenario.base_dir Scenario.fresh)
    = push w1 (GenerateLogo.done_lines 3 3).
Proof.
  destruct (logo_totals Scenario.healthy Scenario.texts Scenario.one_concept
              (Some "sk-test") Scenario.base_dir Scenario.fresh) as [Htotals _].
  destruct (Htotals 3 3
              (snd (GenerateLogo.main Scenario.healthy Scenario.texts Scenario.one_concept
                      (Some "sk-test") Scenario.base_dir Scenario.fresh)))
    as (_ & _ & Hlast).
  - vm_compute. reflexivity.
  - exact Hlast.
Defined.

Lemma concept_lookup_witness :
  GenerateLogo.run_concept Scenario.healthy Scenario.texts "sk-test" 7 3 "high" "1024x1024"
    Scenario.base_dir Scenario.fresh = (Raise KeyError, Scenario.fresh).
Proof.
  apply (proj1 (concept_lookup Scenario.healthy Scenario.texts "sk-test" 7 3 "high"
                  "1024x1024" Scenario.base_dir Scenario.fresh)).
  lia.
Defined.

Lemma list_needs_nothing_witness :
  GenerateLogo.main Scenario.offline Scenario.dashed Scenario.list_only None
    Scenario.base_dir Scenario.fresh
  = (Ok None,
     push Scenario.fresh
       (listing 1 "The Kiln Mark" "concepts/01-kiln-mark" (Scenario.dashed_points 1)
        ++ listing 2 "Earthen Strata" "concepts/02-earthen-strata" (Scenario.dashed_points 2)
        ++ listing 3 "The Winding Path" "concepts/03-winding-path" (Scenario.dashed_points 3)
        ++ listing 4 "The Vermillion Leaf" "concepts/04-vermillion-leaf"
             (Scenario.dashed_points 4))) ∧
  listing 1 "The Kiln Mark" "concepts/01-kiln-mark" (Scenario.dashed_points 1)
    !! 2%nat = Some (EPrint "  Prompt (252 chars):").
Proof.
  split; [|reflexivity].
  apply (list_needs_nothing Scenario.offline Scenario.dashed Scenario.dashed_points
           Scenario.list_only None Scenario.base_dir Scenario.fresh).
  - reflexivity.
  - intros cid. reflexivity.
Defined.

Lemma refusals_touch_nothing_witness :
  GenerateRound3.main Scenario.healthy Scenario.prompts ["generate_round3.py"] (Some "")
    Scenario.base_dir Scenario.fresh
  = (Raise (SystemExit 1), push Scenario.fresh [EPrint "Error: OPENAI_API_KEY not set"]).
Proof.
  destruct (refusals_touch_nothing Scenario.healthy Scenario.fresh) as (_ & _ & Hround3).
  apply Hround3. right. reflexivity.
Defined.

Lemma key_goes_to_the_api_only_witness :
  ∃ t,
    trace (snd (GenerateLogo.main Scenario.expired Scenario.texts Scenario.one_concept
                  (Some "sk-test") Scenario.base_dir Scenario.fresh))
    = trace Scenario.fresh ++ t ∧
    ∀ url headers body timeout,
      ESend (POST url headers body timeout) ∈ t →
      url = API_URL ∧ headers = [("Authorization"%string, "Bearer " +:+ "sk-test")].
Proof.
  destruct (key_goes_to_the_api_only Scenario.expired "sk-test") as [Hlogo _].
  - discriminate.
  - apply Hlogo.
Defined.
